(** * phish-block: the decision pipeline of the extension core

    A shallow embedding of the JavaScript classes under
    [extension/core] (PredictionCache, Whitelist, ThresholdManager,
    ModelLoader, Predictor, DecisionEngine) together with the properties
    the specification states about them, and, after those, further
    properties of the same code and of the lexical features, the domain
    parser and the statistics of the state store.

    Conventions of the embedding.
    - A JavaScript number is a [jsnum]: NaN, the two infinities, or a finite
      value kept as an exact rational.  Arithmetic on finite values is exact:
      the rounding of IEEE doubles is not modelled.  The only transcendental
      step, [Math.exp] inside the sigmoid, is taken over the reals.
    - A call that may throw returns a [Res]: [Ok v], [Throw msg] (an [Error]
      with message [msg]) or [Diverge] (the [while (true)] loop of the tree
      walk ran out of the fuel it was given).
    - Objects that the code mutates are records threaded through the calls.
    - [Date.now()] and [performance.now()] are inputs of the operations.
    - The feature extractor and the predictor are the two objects handed to
      the engine's constructor; the engine is stated over any such pair.
      The predictor the statements are about is the one that walks
      XGBoost's array format and checks the vector against the metadata;
      the older node-object predictor is embedded beside it.  Of the
      extraction of the features from a URL, the character counts and the
      domain parser are embedded; the entropy is not. *)

From Stdlib Require Import List String Ascii Bool Arith ZArith QArith Qround Lia.
From Stdlib Require Import Reals Lra.
From Stdlib Require Import DecimalString.
Import ListNotations.

Open Scope string_scope.
Open Scope Z_scope.

(* ================================================================== *)
(** ** Results of calls that may throw *)

Inductive Res (A : Type) : Type :=
| Ok (a : A)
| Throw (msg : string)
| Diverge.

Arguments Ok {A} a.
Arguments Throw {A} msg.
Arguments Diverge {A}.

Definition bind {A B : Type} (m : Res A) (k : A -> Res B) : Res B :=
  match m with
  | Ok a => k a
  | Throw msg => Throw msg
  | Diverge => Diverge
  end.

Notation "x <- m ;; k" := (bind m (fun x => k))
  (at level 61, m at next level, right associativity).

(** [try { body } catch (error) { handler(error.message) }] *)
Definition try_catch {A : Type} (body : Res A) (handler : string -> Res A) : Res A :=
  match body with
  | Throw msg => handler msg
  | r => r
  end.

(* ================================================================== *)
(** ** JavaScript numbers *)

Module JS.

Inductive jsnum : Type :=
| NaN
| NegInf
| Fin (q : Q)
| PosInf.

(** [a < b]; every comparison with NaN is false. *)
Definition lt (a b : jsnum) : bool :=
  match a, b with
  | NaN, _ | _, NaN => false
  | PosInf, _ => false
  | _, NegInf => false
  | NegInf, _ => true
  | _, PosInf => true
  | Fin x, Fin y => if Qlt_le_dec x y then true else false
  end.

(** [a >= b]; not the negation of [a < b]: false as soon as one side is NaN. *)
Definition ge (a b : jsnum) : bool :=
  match a, b with
  | NaN, _ | _, NaN => false
  | PosInf, _ => true
  | _, NegInf => true
  | NegInf, _ => false
  | _, PosInf => false
  | Fin x, Fin y => if Qlt_le_dec x y then false else true
  end.

Definition add (a b : jsnum) : jsnum :=
  match a, b with
  | NaN, _ | _, NaN => NaN
  | PosInf, NegInf | NegInf, PosInf => NaN
  | PosInf, _ | _, PosInf => PosInf
  | NegInf, _ | _, NegInf => NegInf
  | Fin x, Fin y => Fin (x + y)
  end.

Definition neg (a : jsnum) : jsnum :=
  match a with
  | NaN => NaN
  | NegInf => PosInf
  | PosInf => NegInf
  | Fin x => Fin (- x)
  end.

Definition sub (a b : jsnum) : jsnum := add a (neg b).

(** Multiplication and division by a finite constant [k > 0], the only uses
    in the code ([x * 10000], [x / 10000]). *)
Definition scale (a : jsnum) (k : Q) : jsnum :=
  match a with
  | Fin x => Fin (x * k)
  | other => other
  end.

Definition unscale (a : jsnum) (k : Q) : jsnum :=
  match a with
  | Fin x => Fin (x / k)
  | other => other
  end.

(** [Math.round]: the nearest integer, ties towards +Infinity. *)
Definition Math_round (a : jsnum) : jsnum :=
  match a with
  | Fin x => Fin (inject_Z (Qfloor (x + (1 # 2))))
  | other => other
  end.

(** [Math.round(x * 10000) / 10000] *)
Definition round4 (a : jsnum) : jsnum :=
  unscale (Math_round (scale a 10000)) 10000.


(** The value an array read contributes to arithmetic and comparisons:
    [undefined] converts to NaN. *)
Definition of_read (o : option jsnum) : jsnum :=
  match o with
  | Some v => v
  | None => NaN
  end.

(** [1.0 / (1.0 + Math.exp(-score))], a real number, or NaN. *)
Definition sigmoid (score : jsnum) : option R :=
  match score with
  | NaN => None
  | PosInf => Some 1%R           (* exp(-Infinity) = 0 *)
  | NegInf => Some 0%R           (* 1 / Infinity = 0 *)
  | Fin s => Some (1 / (1 + exp (- Q2R s)))%R
  end.

(** [Math.round(probability * 10000) / 10000] on the real value. *)
Definition round4R (p : option R) : jsnum :=
  match p with
  | None => NaN
  | Some r => Fin (Zfloor (r * 10000 + / 2) # 10000)
  end.

End JS.

(* ================================================================== *)
(** ** Strings *)

Module Str.

Definition startsWith (s p : string) : bool := String.prefix p s.

Definition endsWith (s p : string) : bool :=
  let n := String.length s in
  let m := String.length p in
  (m <=? n)%nat && String.eqb (String.substring (n - m) m s) p.

(** [s.split(sep)] for a one-character separator: never empty. *)
Fixpoint split (sep : ascii) (s : string) : list string :=
  match s with
  | EmptyString => [EmptyString]
  | String c rest =>
      if Ascii.eqb c sep then EmptyString :: split sep rest
      else match split sep rest with
           | [] => [String c EmptyString]
           | h :: t => String c h :: t
           end
  end.

(** [parts.join(sep)] *)
Fixpoint join (sep : string) (parts : list string) : string :=
  match parts with
  | [] => EmptyString
  | [p] => p
  | p :: rest => p ++ sep ++ join sep rest
  end.

(** [parts.slice(i)] for [i >= 0] *)
Definition slice_from {A : Type} (i : nat) (parts : list A) : list A := skipn i parts.

(** [parts.slice(-k)]: the last [k] elements *)
Definition slice_last {A : Type} (k : nat) (parts : list A) : list A :=
  skipn (List.length parts - k) parts.

Definition lower_ascii (c : ascii) : ascii :=
  let n := nat_of_ascii c in
  if ((65 <=? n) && (n <=? 90))%nat then ascii_of_nat (n + 32) else c.

Fixpoint toLowerCase (s : string) : string :=
  match s with
  | EmptyString => EmptyString
  | String c r => String (lower_ascii c) (toLowerCase r)
  end.

(** The text before the first occurrence of a character satisfying [stop],
    and the text from that character on. *)
Fixpoint break (stop : ascii -> bool) (s : string) : string * string :=
  match s with
  | EmptyString => (EmptyString, EmptyString)
  | String c r =>
      if stop c then (EmptyString, s)
      else let (a, b) := break stop r in (String c a, b)
  end.

Fixpoint forallb (p : ascii -> bool) (s : string) : bool :=
  match s with
  | EmptyString => true
  | String c r => p c && forallb p r
  end.

(** Decimal rendering of a length in a template string. *)
Definition of_nat (n : nat) : string := NilEmpty.string_of_uint (Nat.to_uint n).

End Str.

(* ================================================================== *)
(** ** The platform's URL parser

    [new URL(s)] is the host environment's API, not code of the repository.
    It is modelled on plain ASCII absolute URLs of the shape
    [scheme://userinfo@host:port/path?query#fragment]: the scheme and the
    host are lower-cased, an empty path becomes ["/"], and the constructor
    throws (here: [None]) when there is no scheme, no ["//"], an empty or
    ill-formed host, or a port that is not a number.  Percent-encoding,
    IDNA, IPv6 literals and default-port elision are not modelled. *)

Module Platform.

Record URL : Type := mkURL {
  protocol : string;   (* with the trailing colon *)
  hostname : string;
  port : string;
  pathname : string;
  search : string;
  hash : string
}.

Definition is_alpha (c : ascii) : bool :=
  let n := nat_of_ascii c in
  (((65 <=? n) && (n <=? 90)) || ((97 <=? n) && (n <=? 122)))%nat.

Definition is_digit (c : ascii) : bool :=
  let n := nat_of_ascii c in ((48 <=? n) && (n <=? 57))%nat.

Definition is_scheme_char (c : ascii) : bool :=
  is_alpha c || is_digit c || Ascii.eqb c "+" || Ascii.eqb c "-" || Ascii.eqb c ".".

Definition is_host_char (c : ascii) : bool :=
  is_alpha c || is_digit c || Ascii.eqb c "-" || Ascii.eqb c "." || Ascii.eqb c "_".

Definition valid_scheme (s : string) : bool :=
  match s with
  | EmptyString => false
  | String c r => is_alpha c && Str.forallb is_scheme_char r
  end.

Definition is_colon (c : ascii) : bool := Ascii.eqb c ":".
Definition ends_authority (c : ascii) : bool :=
  Ascii.eqb c "/" || Ascii.eqb c "?" || Ascii.eqb c "#".
Definition ends_path (c : ascii) : bool := Ascii.eqb c "?" || Ascii.eqb c "#".
Definition is_hash (c : ascii) : bool := Ascii.eqb c "#".

Definition URL_new (s : string) : option URL :=
  let (scheme, after_scheme) := Str.break is_colon s in
  if negb (valid_scheme scheme) then None
  else if negb (Str.startsWith after_scheme "://") then None
  else
    let rest := String.substring 3 (String.length after_scheme - 3) after_scheme in
    let (authority, tail) := Str.break ends_authority rest in
    let hostport := List.last (Str.split "@" authority) EmptyString in
    let (host, colon_port) := Str.break is_colon hostport in
    let portnum := String.substring 1 (String.length colon_port - 1) colon_port in
    if negb (Str.forallb is_digit portnum) then None
    else if (String.length host =? 0)%nat then None
    else if negb (Str.forallb is_host_char host) then None
    else
      let (path, after_path) := Str.break ends_path tail in
      let (query, fragment) := Str.break is_hash after_path in
      Some {| protocol := Str.toLowerCase scheme ++ ":";
              hostname := Str.toLowerCase host;
              port := portnum;
              pathname := if (String.length path =? 0)%nat then "/" else path;
              search := if String.eqb query "?" then "" else query;
              hash := if String.eqb fragment "#" then "" else fragment |}.

End Platform.

(* ================================================================== *)
(** ** An insertion-ordered [Map] with string keys

    The entries are kept in insertion order, head first: [set] on a key that
    is present replaces its value in place, on a new key appends;
    [keys().next().value] is the head's key. *)

Module JSMap.
Section WithValue.
Context {V : Type}.

Definition t : Type := list (string * V).

Fixpoint get (m : t) (key : string) : option V :=
  match m with
  | [] => None
  | (k, v) :: rest => if String.eqb k key then Some v else get rest key
  end.

Definition has (m : t) (key : string) : bool :=
  match get m key with Some _ => true | None => false end.

Fixpoint delete (m : t) (key : string) : t :=
  match m with
  | [] => []
  | (k, v) :: rest => if String.eqb k key then delete rest key else (k, v) :: delete rest key
  end.

Fixpoint set (m : t) (key : string) (v : V) : t :=
  match m with
  | [] => [(key, v)]
  | (k, w) :: rest => if String.eqb k key then (k, v) :: rest else (k, w) :: set rest key v
  end.

Definition size (m : t) : nat := List.length m.

Definition keys (m : t) : list string := map fst m.

(** [m.keys().next().value]: [undefined] on an empty map. *)
Definition first_key (m : t) : option string :=
  match m with
  | [] => None
  | (k, _) :: _ => Some k
  end.

(** [m.delete(k)] where [k] may be [undefined] (no entry has that key). *)
Definition delete_opt (m : t) (key : option string) : t :=
  match key with
  | Some k => delete m k
  | None => m
  end.

End WithValue.
Arguments t V : clear implicits.
End JSMap.

(* ================================================================== *)
(** ** PredictionCache (core/storage/index.js, second document) *)

Module PredictionCache.
Section WithPayload.
Context {V : Type}.

Record Entry : Type := mkEntry {
  prediction : V;
  timestamp : Z
}.

Record t : Type := mkCache {
  cache : JSMap.t Entry;
  maxSize : Z;
  ttl : Z;
  hits : Z;
  misses : Z
}.

(** [new PredictionCache(maxSize = 1000, ttlMs = 3600000)] *)
Definition create (maxSize ttlMs : Z) : t :=
  {| cache := []; maxSize := maxSize; ttl := ttlMs; hits := 0; misses := 0 |}.

Definition create_default : t := create 1000 3600000.

Definition normalizeURL (url : string) : string :=
  match Platform.URL_new url with
  | Some urlObj =>
      Platform.protocol urlObj ++ "//" ++ Platform.hostname urlObj
        ++ Platform.pathname urlObj ++ Platform.search urlObj
  | None => url
  end.

(** [get(url)] at time [now = Date.now()]: the result ([None] for [null]) and
    the cache object after the call. *)
Definition get (c : t) (now : Z) (url : string) : option V * t :=
  let key := normalizeURL url in
  match JSMap.get (cache c) key with
  | None =>
      (None, {| cache := cache c; maxSize := maxSize c; ttl := ttl c;
                hits := hits c; misses := misses c + 1 |})
  | Some entry =>
      if now - timestamp entry >? ttl c then
        (None, {| cache := JSMap.delete (cache c) key; maxSize := maxSize c; ttl := ttl c;
                  hits := hits c; misses := misses c + 1 |})
      else
        (Some (prediction entry),
         {| cache := JSMap.set (JSMap.delete (cache c) key) key entry;
            maxSize := maxSize c; ttl := ttl c;
            hits := hits c + 1; misses := misses c |})
  end.

(** [set(url, prediction)] at time [now = Date.now()]. *)
Definition set (c : t) (now : Z) (url : string) (p : V) : t :=
  let key := normalizeURL url in
  let evicted :=
    if Z.of_nat (JSMap.size (cache c)) >=? maxSize c
    then JSMap.delete_opt (cache c) (JSMap.first_key (cache c))
    else cache c in
  {| cache := JSMap.set evicted key {| prediction := p; timestamp := now |};
     maxSize := maxSize c; ttl := ttl c; hits := hits c; misses := misses c |}.

Definition clear (c : t) : t :=
  {| cache := []; maxSize := maxSize c; ttl := ttl c; hits := 0; misses := 0 |}.

(** [cleanup()]: drops every expired entry, returns how many. *)
Definition cleanup (c : t) (now : Z) : nat * t :=
  let keysToDelete :=
    map fst (filter (fun kv => now - timestamp (snd kv) >? ttl c) (cache c)) in
  (List.length keysToDelete,
   {| cache := fold_left JSMap.delete keysToDelete (cache c);
      maxSize := maxSize c; ttl := ttl c; hits := hits c; misses := misses c |}).

(** The representation invariant of the [Map]: its keys are pairwise
    distinct. *)
Definition distinct_keys (c : t) : Prop := NoDup (JSMap.keys (cache c)).

End WithPayload.
Arguments t V : clear implicits.
Arguments Entry V : clear implicits.
End PredictionCache.

(* ================================================================== *)
(** ** Whitelist (core/storage/index.js, third document) *)

Module Whitelist.

(** [domains] is a [Set] of strings: insertion-ordered, no duplicates. *)
Record t : Type := mkWhitelist {
  domains : list string;
  loaded : bool
}.

Definition create : t := {| domains := []; loaded := false |}.

Definition set_has (d : list string) (x : string) : bool := existsb (String.eqb x) d.
Definition set_add (d : list string) (x : string) : list string :=
  if set_has d x then d else d ++ [x].
Definition set_delete (d : list string) (x : string) : list string :=
  filter (fun y => negb (String.eqb x y)) d.
Definition set_of_array (l : list string) : list string := fold_left set_add l [].

(** [extractDomain(url)]: [None] for [null] (the [catch] branch). *)
Definition extractDomain (url : string) : option string :=
  let url := if negb (Str.startsWith url "http://") && negb (Str.startsWith url "https://")
             then "http://" ++ url else url in
  match Platform.URL_new url with
  | None => None
  | Some urlObj =>
      let hostname := Platform.hostname urlObj in
      let parts := Str.split "." hostname in
      if (2 <=? List.length parts)%nat
      then Some (Str.join "." (Str.slice_last 2 parts))
      else Some hostname
  end.

(** [load()] given what [chrome.storage.local.get(['whitelist'])] produced:
    the stored array if there is one, or a thrown error. *)
Definition load (w : t) (stored : Res (option (list string))) : Res t :=
  try_catch
    (result <- stored ;;
     Ok {| domains := match result with
                      | Some arr => set_of_array arr
                      | None => domains w
                      end;
           loaded := true |})
    (fun _ => Ok {| domains := []; loaded := true |}).

(** [add(url)]; [!domain] holds for [null] and for the empty string.
    [save()] only writes the set to the persisted store and catches its own
    failures. *)
Definition add (w : t) (url : string) : bool * t :=
  match extractDomain url with
  | Some domain =>
      if String.eqb domain "" then (false, w)
      else (true, {| domains := set_add (domains w) domain; loaded := loaded w |})
  | None => (false, w)
  end.

Definition remove (w : t) (url : string) : bool * t :=
  match extractDomain url with
  | Some domain =>
      if String.eqb domain "" then (false, w)
      else (set_has (domains w) domain,
            {| domains := set_delete (domains w) domain; loaded := loaded w |})
  | None => (false, w)
  end.

Definition isWhitelisted (w : t) (url : string) : bool :=
  let domain := extractDomain url in
  match domain with
  | None => false
  | Some domain =>
      if String.eqb domain "" then false
      else if set_has (domains w) domain then true
      else
        let parts := Str.split "." domain in
        existsb (fun i => set_has (domains w) (Str.join "." (Str.slice_from i parts)))
                (seq 1 (List.length parts - 1))
  end.

Definition clear (w : t) : t := {| domains := []; loaded := loaded w |}.

End Whitelist.

(* ================================================================== *)
(** ** ThresholdManager (core/decision/engine.js, second document) *)

Inductive Action : Type := BLOCK | WARN | ALLOW.

Inductive Level : Type := SAFE | SUSPICIOUS | PHISHING | UNKNOWN.

Module ThresholdManager.

Record Profile : Type := mkProfile {
  block : Q;
  warn : Q
}.

Record Config : Type := mkConfig {
  blockThreshold : Q;
  warnThreshold : Q;
  popularDomainThreshold : Q;
  profiles : list (string * Profile);
  profile : option string
}.

Record t : Type := mkThresholds {
  config : Config;
  currentProfile : string
}.

Definition default_profiles : list (string * Profile) :=
  [ ("conservative", {| block := 85 # 100; warn := 65 # 100 |});
    ("balanced",     {| block := 70 # 100; warn := 50 # 100 |});
    ("aggressive",   {| block := 50 # 100; warn := 30 # 100 |}) ].

Definition create : t :=
  {| config := {| blockThreshold := 70 # 100;
                  warnThreshold := 50 # 100;
                  popularDomainThreshold := 90 # 100;
                  profiles := default_profiles;
                  profile := None |};
     currentProfile := "balanced" |}.

(** The object kept under [thresholdConfig]: any field may be absent. *)
Record Stored : Type := mkStored {
  s_blockThreshold : option Q;
  s_warnThreshold : option Q;
  s_popularDomainThreshold : option Q;
  s_profiles : option (list (string * Profile));
  s_profile : option string
}.

Definition or_else {A : Type} (o : option A) (d : A) : A :=
  match o with Some a => a | None => d end.

(** [{ ...this.config, ...result.thresholdConfig }] *)
Definition merge (c : Config) (st : Stored) : Config :=
  {| blockThreshold := or_else (s_blockThreshold st) (blockThreshold c);
     warnThreshold := or_else (s_warnThreshold st) (warnThreshold c);
     popularDomainThreshold := or_else (s_popularDomainThreshold st) (popularDomainThreshold c);
     profiles := or_else (s_profiles st) (profiles c);
     profile := match s_profile st with Some n => Some n | None => profile c end |}.

(** [this.config.profile || 'balanced'] *)
Definition profile_or_balanced (o : option string) : string :=
  match o with
  | Some n => if String.eqb n "" then "balanced" else n
  | None => "balanced"
  end.

Definition load (tm : t) (stored : Res (option Stored)) : Res t :=
  try_catch
    (result <- stored ;;
     match result with
     | Some st =>
         let c := merge (config tm) st in
         Ok {| config := c; currentProfile := profile_or_balanced (profile c) |}
     | None => Ok tm
     end)
    (fun _ => Ok tm).

Definition setCustom (tm : t) (blockThreshold warnThreshold : Q) : t :=
  {| config := {| blockThreshold := blockThreshold;
                  warnThreshold := warnThreshold;
                  popularDomainThreshold := popularDomainThreshold (config tm);
                  profiles := profiles (config tm);
                  profile := Some "custom" |};
     currentProfile := "custom" |}.

Definition getAction (tm : t) (probability : JS.jsnum) (isPopularDomain : bool) : Action :=
  if isPopularDomain && JS.lt probability (JS.Fin (popularDomainThreshold (config tm)))
  then ALLOW
  else if JS.ge probability (JS.Fin (blockThreshold (config tm))) then BLOCK
  else if JS.ge probability (JS.Fin (warnThreshold (config tm))) then WARN
  else ALLOW.

End ThresholdManager.

(* ================================================================== *)
(** ** ModelLoader (core/inference/model_loader.js) *)

Module ModelLoader.

(** A tree in XGBoost's array format: five parallel arrays indexed by node. *)
Record Tree : Type := mkTree {
  left_children : list Z;
  right_children : list Z;
  split_indices : list Z;
  split_conditions : list Q;
  base_weights : list Q
}.

Record Model : Type := mkModel {
  trees : list Tree;
  base_score : Q;
  num_trees : nat
}.

Record Metadata : Type := mkMetadata {
  feature_names : list string;
  recommended_threshold : Q;
  version : string
}.

Record t : Type := mkLoader {
  model : option Model;
  metadata : option Metadata;
  isLoaded : bool
}.

Definition create : t := {| model := None; metadata := None; isLoaded := false |}.

(** [this.metadata?.recommended_threshold || 0.70]: a missing metadata
    object and a zero threshold both give the default. *)
Definition getThreshold (ml : t) : Q :=
  match metadata ml with
  | Some md =>
      if Qeq_bool (recommended_threshold md) 0 then 70 # 100 else recommended_threshold md
  | None => 70 # 100
  end.

Definition getFeatureNames (ml : t) : list string :=
  match metadata ml with
  | Some md => feature_names md
  | None => []
  end.

End ModelLoader.

(* ================================================================== *)
(** ** Predictor (the array-format version, with the metadata-based length
       check)

    A [Tree] always carries [left_children], so the fallback to the old
    [nodes] format at the head of [predictTree] is not taken. *)

Module Predictor.
Import ModelLoader.

Record Prediction : Type := mkPrediction {
  probability : JS.jsnum;
  confidence : JS.jsnum;
  level : Level;
  threshold : Q
}.

(** [arr[i]] where [i] is an integer or [undefined] ([None]); the result is
    [None] for [undefined]. *)
Definition read {A : Type} (arr : list A) (i : option Z) : option A :=
  match i with
  | Some z => if z <? 0 then None else nth_error arr (Z.to_nat z)
  | None => None
  end.

(** [x === -1] *)
Definition is_sentinel (x : option Z) : bool :=
  match x with
  | Some z => z =? -1
  | None => false
  end.

(** [nodeIdx < 0 || nodeIdx >= leftChildren.length]; both comparisons are
    false on [undefined]. *)
Definition out_of_bounds (nodeIdx : option Z) (len : nat) : bool :=
  match nodeIdx with
  | Some z => (z <? 0) || (z >=? Z.of_nat len)
  | None => false
  end.

Inductive Step : Type :=
| Return (value : JS.jsnum)
| Continue (nodeIdx : option Z).

(** One iteration of the [while (true)] loop of [predictTree].  A returned
    [undefined] is given as NaN, which is what [score += treeScore] makes of
    it. *)
Definition loop_body (tree : Tree) (features : list JS.jsnum) (nodeIdx : option Z) : Step :=
  let leftChild := read (left_children tree) nodeIdx in
  let rightChild := read (right_children tree) nodeIdx in
  if is_sentinel leftChild && is_sentinel rightChild then
    Return (JS.of_read (option_map JS.Fin (read (base_weights tree) nodeIdx)))
  else
    let splitIdx := read (split_indices tree) nodeIdx in
    let splitValue := JS.of_read (option_map JS.Fin (read (split_conditions tree) nodeIdx)) in
    let featureValue := JS.of_read (read features splitIdx) in
    let nodeIdx' := if JS.lt featureValue splitValue then leftChild else rightChild in
    if out_of_bounds nodeIdx' (List.length (left_children tree)) then Return (JS.Fin 0)
    else Continue nodeIdx'.

Fixpoint predictTree_from (fuel : nat) (tree : Tree) (features : list JS.jsnum)
         (nodeIdx : option Z) : Res JS.jsnum :=
  match fuel with
  | O => Diverge
  | S fuel' =>
      match loop_body tree features nodeIdx with
      | Return value => Ok value
      | Continue nodeIdx' => predictTree_from fuel' tree features nodeIdx'
      end
  end.

Definition predictTree (fuel : nat) (tree : Tree) (features : list JS.jsnum) : Res JS.jsnum :=
  predictTree_from fuel tree features (Some 0).

(** The [for] loop of [predict]: [score += this.predictTree(model.trees[i], features)]. *)
Fixpoint add_trees (fuel : nat) (trees : list Tree) (features : list JS.jsnum)
         (score : JS.jsnum) : Res JS.jsnum :=
  match trees with
  | [] => Ok score
  | tree :: rest =>
      treeScore <- predictTree fuel tree features ;;
      add_trees fuel rest features (JS.add score treeScore)
  end.

Definition length_message (expectedFeatures got : nat) : string :=
  "Expected " ++ Str.of_nat expectedFeatures ++ " features, got " ++ Str.of_nat got.

Definition predict (fuel : nat) (ml : ModelLoader.t) (features : list JS.jsnum) : Res JS.jsnum :=
  if negb (isLoaded ml) then Throw "Model not loaded"
  else
    match metadata ml with
    | None => Throw "Cannot read properties of null (reading 'feature_names')"
    | Some md =>
        let expectedFeatures := List.length (feature_names md) in
        if negb (List.length features =? expectedFeatures)%nat
        then Throw (length_message expectedFeatures (List.length features))
        else
          match model ml with
          | None => Throw "Cannot read properties of null (reading 'base_score')"
          | Some model =>
              score <- add_trees fuel (trees model) features (JS.Fin (base_score model)) ;;
              Ok (JS.round4R (JS.sigmoid score))
          end
    end.

Definition predictWithConfidence (fuel : nat) (ml : ModelLoader.t) (features : list JS.jsnum)
  : Res Prediction :=
  probability <- predict fuel ml features ;;
  let threshold := getThreshold ml in
  let level :=
    if JS.ge probability (JS.Fin threshold) then PHISHING
    else if JS.ge probability (JS.sub (JS.Fin threshold) (JS.Fin (20 # 100))) then SUSPICIOUS
    else SAFE in
  let confidence :=
    match level with
    | SAFE => JS.sub (JS.Fin 1) probability
    | _ => probability
    end in
  Ok {| probability := probability;
        confidence := JS.round4 confidence;
        level := level;
        threshold := threshold |}.

End Predictor.

(* ================================================================== *)
(** ** DecisionEngine (core/decision/engine.js, first document) *)

(* ================================================================== *)
(** ** The older Predictor (core/inference/predictor.js)

    It walks trees given as arrays of node objects and checks the vector
    against the constant 14.  A node object may lack any of its properties
    ([None]); [a || b] falls through on [undefined] and on [0]. *)

Module NodePredictor.

Record Node : Type := mkNode {
  leaf : option Q;
  leaf_value : option Q;
  split_feature : option Z;
  feature : option Z;
  split_condition : option Q;
  threshold : option Q;
  left_child : option Z;
  yes : option Z;
  right_child : option Z;
  no : option Z
}.

Record Tree : Type := mkTree {
  nodes : option (list Node)      (* [None]: the tree has no [nodes] property *)
}.

Record Model : Type := mkModel {
  trees : list Tree;
  base_score : Q
}.

Record Loader : Type := mkLoader {
  model : option Model;
  isLoaded : bool
}.

(** [a || b] on indices *)
Definition or_index (a b : option Z) : option Z :=
  match a with
  | Some z => if z =? 0 then b else Some z
  | None => b
  end.

(** [a || b] on numbers *)
Definition or_number (a b : option Q) : option Q :=
  match a with
  | Some q => if Qeq_bool q 0 then b else Some q
  | None => b
  end.

(** One iteration at the node object [node]. *)
Definition loop_body (len : nat) (node : Node) (features : list JS.jsnum) : Predictor.Step :=
  match leaf node with
  | Some w => Predictor.Return (JS.Fin w)
  | None =>
      match leaf_value node with
      | Some w => Predictor.Return (JS.Fin w)
      | None =>
          let featureIdx := or_index (split_feature node) (feature node) in
          let threshold := JS.of_read (option_map JS.Fin
                                         (or_number (split_condition node) (threshold node))) in
          let featureValue := JS.of_read (Predictor.read features featureIdx) in
          let nodeIdx :=
            if JS.lt featureValue threshold
            then or_index (left_child node) (yes node)
            else or_index (right_child node) (no node) in
          match nodeIdx with
          | None => Predictor.Return (JS.Fin 0)
          | Some z =>
              if (z <? 0) || (z >=? Z.of_nat len) then Predictor.Return (JS.Fin 0)
              else Predictor.Continue (Some z)
          end
      end
  end.

Fixpoint predictTree_from (fuel : nat) (nodes : list Node) (features : list JS.jsnum)
         (nodeIdx : option Z) : Res JS.jsnum :=
  match fuel with
  | O => Diverge
  | S fuel' =>
      match Predictor.read nodes nodeIdx with
      | None => Throw "Cannot read properties of undefined (reading 'leaf')"
      | Some node =>
          match loop_body (List.length nodes) node features with
          | Predictor.Return value => Ok value
          | Predictor.Continue nodeIdx' => predictTree_from fuel' nodes features nodeIdx'
          end
      end
  end.

Definition predictTree (fuel : nat) (tree : Tree) (features : list JS.jsnum) : Res JS.jsnum :=
  match nodes tree with
  | None => Throw "Cannot read properties of undefined (reading '0')"
  | Some nodes => predictTree_from fuel nodes features (Some 0)
  end.

Fixpoint add_trees (fuel : nat) (ts : list Tree) (features : list JS.jsnum)
         (score : JS.jsnum) : Res JS.jsnum :=
  match ts with
  | [] => Ok score
  | tree :: rest =>
      treeScore <- predictTree fuel tree features ;;
      add_trees fuel rest features (JS.add score treeScore)
  end.

Definition predict (fuel : nat) (ml : Loader) (features : list JS.jsnum) : Res JS.jsnum :=
  if negb (isLoaded ml) then Throw "Model not loaded"
  else if negb (List.length features =? 14)%nat
  then Throw ("Expected 14 features, got " ++ Str.of_nat (List.length features))
  else
    match model ml with
    | None => Throw "Cannot read properties of null (reading 'base_score')"
    | Some model =>
        score <- add_trees fuel (trees model) features (JS.Fin (base_score model)) ;;
        Ok (JS.round4R (JS.sigmoid score))
    end.

End NodePredictor.

(* ================================================================== *)
(** ** The tree walk as the specification words it *)

Module TreeSpec.
Import ModelLoader.

Section Walk.
Variable tree : Tree.
Variable features : list JS.jsnum.

Definition node_count : nat := List.length (left_children tree).

Definition in_tree (i : Z) : Prop := 0 <= i < Z.of_nat node_count.

(** [features[s]], NaN when the read is out of range. *)
Definition feature (s : Z) : JS.jsnum := JS.of_read (Predictor.read features (Some s)).

(** Node [i] is a leaf: both child indices are the sentinel. *)
Definition leaf (i : Z) : Prop :=
  Predictor.read (left_children tree) (Some i) = Some (-1)
  /\ Predictor.read (right_children tree) (Some i) = Some (-1).

(** Node [i] is an internal node with children [l], [r] that tests feature
    [s] against [c]. *)
Definition split (i l r s : Z) (c : Q) : Prop :=
  Predictor.read (left_children tree) (Some i) = Some l
  /\ Predictor.read (right_children tree) (Some i) = Some r
  /\ ~ (l = -1 /\ r = -1)
  /\ Predictor.read (split_indices tree) (Some i) = Some s
  /\ Predictor.read (split_conditions tree) (Some i) = Some c.

(** [walk i w]: walking from node [i] contributes [w].  A leaf yields its
    weight; an internal node goes left iff [features[s] < c] and right
    otherwise; a child index outside the node arrays makes the tree
    contribute 0. *)
Inductive walk : Z -> Q -> Prop :=
| walk_leaf i w :
    leaf i ->
    Predictor.read (base_weights tree) (Some i) = Some w ->
    walk i w
| walk_left i l r s c w :
    split i l r s c -> JS.lt (feature s) (JS.Fin c) = true ->
    in_tree l -> walk l w -> walk i w
| walk_right i l r s c w :
    split i l r s c -> JS.lt (feature s) (JS.Fin c) = false ->
    in_tree r -> walk r w -> walk i w
| walk_left_outside i l r s c :
    split i l r s c -> JS.lt (feature s) (JS.Fin c) = true ->
    ~ in_tree l -> walk i 0
| walk_right_outside i l r s c :
    split i l r s c -> JS.lt (feature s) (JS.Fin c) = false ->
    ~ in_tree r -> walk i 0.

(** The node indices at which the loop reads the arrays, in order. *)
Fixpoint visited (fuel : nat) (nodeIdx : option Z) : list (option Z) :=
  match fuel with
  | O => []
  | S fuel' =>
      nodeIdx ::
      match Predictor.loop_body tree features nodeIdx with
      | Predictor.Return _ => []
      | Predictor.Continue nodeIdx' => visited fuel' nodeIdx'
      end
  end.

(** The five arrays describe the same nodes. *)
Definition parallel : Prop :=
  List.length (right_children tree) = node_count
  /\ List.length (split_indices tree) = node_count
  /\ List.length (split_conditions tree) = node_count
  /\ List.length (base_weights tree) = node_count.

(** The invariant as the data model words it: the child indices of every
    internal node are indices of the same tree. *)
Definition children_in_range : Prop :=
  forall i l r,
    Predictor.read (left_children tree) (Some i) = Some l ->
    Predictor.read (right_children tree) (Some i) = Some r ->
    ~ (l = -1 /\ r = -1) ->
    in_tree l /\ in_tree r.

Definition children_valid : Prop :=
  (0 < node_count)%nat /\ parallel /\ children_in_range.

(** [rooted i]: node [i] is a leaf, or an internal node whose two children
    are indices of the tree and are rooted themselves.  No derivation
    exists through a cycle of child links. *)
Inductive rooted : Z -> Prop :=
| rooted_leaf i : in_tree i -> leaf i -> rooted i
| rooted_split i l r :
    in_tree i ->
    Predictor.read (left_children tree) (Some i) = Some l ->
    Predictor.read (right_children tree) (Some i) = Some r ->
    ~ (l = -1 /\ r = -1) ->
    in_tree l -> in_tree r ->
    rooted l -> rooted r ->
    rooted i.

(** A well-formed tree: parallel arrays, and a finite tree under the root. *)
Definition well_formed : Prop := parallel /\ rooted 0.

End Walk.

(** [1 / (1 + e^(-x))] on the reals. *)
Definition logistic (x : R) : R := (1 / (1 + exp (- x)))%R.

End TreeSpec.

(** The feature dictionary: feature name to value. *)
Definition Features : Type := list (string * JS.jsnum).

Module Decision.

Record t : Type := mkDecision {
  url : string;
  action : Action;
  level : Level;
  probability : option JS.jsnum;     (* [None] is [null] *)
  confidence : JS.jsnum;
  reason : string;
  features : option Features;
  cached : bool;
  timestamp : Z;
  latency : Z;
  error : option string
}.

End Decision.

Module DecisionEngine.

Definition Decision : Type := Decision.t.

(** The two collaborators handed to the constructor. *)
Record FeatureExtractor : Type := mkExtractor {
  extractFeatures : string -> Res (option Features);
  featuresToArray : Features -> Res (list JS.jsnum)
}.

Record PredictorI : Type := mkPredictor {
  predictWithConfidence : list JS.jsnum -> Res Predictor.Prediction
}.

Record t : Type := mkEngine {
  featureExtractor : FeatureExtractor;
  predictor : PredictorI;
  cache : PredictionCache.t Decision;
  whitelist : Whitelist.t;
  thresholds : ThresholdManager.t;
  initialized : bool
}.

(** [new DecisionEngine(featureExtractor, predictor)] *)
Definition create (fe : FeatureExtractor) (pr : PredictorI) : t :=
  {| featureExtractor := fe;
     predictor := pr;
     cache := PredictionCache.create_default;
     whitelist := Whitelist.create;
     thresholds := ThresholdManager.create;
     initialized := false |}.

(** What one call of [decide] reads from its environment: the persisted
    store (only read by [init]), [performance.now()] at entry and at the
    [return], and [Date.now()] inside [cache.get], [createDecision] and
    [cache.set]. *)
Record Env : Type := mkEnv {
  stored_whitelist : Res (option (list string));
  stored_thresholds : Res (option ThresholdManager.Stored);
  perf_start : Q;
  perf_end : Q;
  now_get : Z;
  now_stamp : Z;
  now_set : Z
}.

Definition with_cache (e : t) (c : PredictionCache.t Decision) : t :=
  {| featureExtractor := featureExtractor e;
     predictor := predictor e;
     cache := c;
     whitelist := whitelist e;
     thresholds := thresholds e;
     initialized := initialized e |}.

Definition init (e : t) (env : Env) : Res t :=
  if initialized e then Ok e
  else
    w <- Whitelist.load (whitelist e) (stored_whitelist env) ;;
    th <- ThresholdManager.load (thresholds e) (stored_thresholds env) ;;
    Ok {| featureExtractor := featureExtractor e;
          predictor := predictor e;
          cache := cache e;
          whitelist := w;
          thresholds := th;
          initialized := true |}.

(** The argument object of [createDecision]; an absent property is [None]. *)
Record Params : Type := mkParams {
  p_url : string;
  p_action : Action;
  p_level : Level;
  p_probability : option JS.jsnum;
  p_confidence : JS.jsnum;
  p_reason : string;
  p_features : option Features;
  p_cached : option bool;
  p_latency : option Q;
  p_error : option string
}.

(** [Math.round(params.latency || 0)] *)
Definition round_latency (l : option Q) : Z :=
  match l with
  | Some q => Qfloor (q + (1 # 2))
  | None => 0
  end.

(** [params.error || null]: the empty string is falsy. *)
Definition error_or_null (e : option string) : option string :=
  match e with
  | Some m => if String.eqb m "" then None else Some m
  | None => None
  end.

Definition createDecision (now : Z) (params : Params) : Decision :=
  {| Decision.url := p_url params;
     Decision.action := p_action params;
     Decision.level := p_level params;
     Decision.probability := p_probability params;
     Decision.confidence := p_confidence params;
     Decision.reason := p_reason params;
     Decision.features := p_features params;
     Decision.cached := match p_cached params with Some b => b | None => false end;
     Decision.timestamp := now;
     Decision.latency := round_latency (p_latency params);
     Decision.error := error_or_null (p_error params) |}.

Definition popularDomains : list string :=
  [ "google.com"; "youtube.com"; "facebook.com"; "twitter.com"; "instagram.com";
    "linkedin.com"; "reddit.com"; "amazon.com"; "wikipedia.org"; "netflix.com";
    "microsoft.com"; "apple.com"; "github.com"; "stackoverflow.com"; "medium.com" ].

Definition isPopularDomain (url : string) : bool :=
  match Platform.URL_new url with
  | Some urlObj =>
      let hostname := Platform.hostname urlObj in
      existsb (fun domain => String.eqb hostname domain || Str.endsWith hostname ("." ++ domain))
              popularDomains
  | None => false
  end.

(** Steps 3 to 6 of [decide]: extraction, prediction, policy and the
    assembled decision. *)
Definition analyze (e : t) (env : Env) (url : string) : Res Decision :=
  features <- extractFeatures (featureExtractor e) url ;;
  match features with
  | None => Throw "Failed to extract features"
  | Some features =>
      featureArray <- featuresToArray (featureExtractor e) features ;;
      prediction <- predictWithConfidence (predictor e) featureArray ;;
      let isPopular := isPopularDomain url in
      let action :=
        ThresholdManager.getAction (thresholds e) (Predictor.probability prediction) isPopular in
      Ok (createDecision (now_stamp env)
            {| p_url := url;
               p_action := action;
               p_level := Predictor.level prediction;
               p_probability := Some (Predictor.probability prediction);
               p_confidence := Predictor.confidence prediction;
               p_reason := if isPopular then "popular_domain_check" else "ml_prediction";
               p_features := Some features;
               p_cached := Some false;
               p_latency := Some (perf_end env - perf_start env)%Q;
               p_error := None |})
  end.

(** The decision of the [catch] branch. *)
Definition failOpen (env : Env) (url : string) (message : string) : Decision :=
  createDecision (now_stamp env)
    {| p_url := url;
       p_action := ALLOW;
       p_level := UNKNOWN;
       p_probability := None;
       p_confidence := JS.Fin 0;
       p_reason := "error";
       p_features := None;
       p_cached := Some false;
       p_latency := Some (perf_end env - perf_start env)%Q;
       p_error := Some message |}.

(** The body of [decide] once the engine is initialised.  Steps 1, 2 and 7
    are calls that cannot throw (their embeddings are total), so the [try]
    is written around the steps that can; the handler sees the engine as
    step 2 left it. *)
Definition decide_initialized (e : t) (env : Env) (url : string) : Res (Decision * t) :=
  if Whitelist.isWhitelisted (whitelist e) url then
    Ok (createDecision (now_stamp env)
          {| p_url := url;
             p_action := ALLOW;
             p_level := SAFE;
             p_probability := Some (JS.Fin 0);
             p_confidence := JS.Fin 1;
             p_reason := "whitelisted";
             p_features := None;
             p_cached := Some false;
             p_latency := Some (perf_end env - perf_start env)%Q;
             p_error := None |},
        e)
  else
    let (hit, cache') := PredictionCache.get (cache e) (now_get env) url in
    let e := with_cache e cache' in
    match hit with
    | Some c =>
        Ok (createDecision (now_stamp env)
              {| p_url := Decision.url c;
                 p_action := Decision.action c;
                 p_level := Decision.level c;
                 p_probability := Decision.probability c;
                 p_confidence := Decision.confidence c;
                 p_reason := Decision.reason c;
                 p_features := Decision.features c;
                 p_cached := Some true;
                 p_latency := Some (perf_end env - perf_start env)%Q;
                 p_error := Decision.error c |},
            e)
    | None =>
        try_catch
          (decision <- analyze e env url ;;
           Ok (decision,
               with_cache e (PredictionCache.set (cache e) (now_set env) url decision)))
          (fun message => Ok (failOpen env url message, e))
    end.

Definition decide (e : t) (env : Env) (url : string) : Res (Decision * t) :=
  e <- init e env ;;
  decide_initialized e env url.

(** The ways an error is thrown in steps 3 to 5: by the extractor, by the
    [null] it returns on a URL it cannot parse, by the conversion to an
    array, or by the predictor (the threshold policy itself cannot throw). *)
Inductive throws_in_steps_3_5 (e : t) (url : string) : string -> Prop :=
| extraction_throws (message : string) :
    extractFeatures (featureExtractor e) url = Throw message ->
    throws_in_steps_3_5 e url message
| extraction_fails :
    extractFeatures (featureExtractor e) url = Ok None ->
    throws_in_steps_3_5 e url "Failed to extract features"
| conversion_throws (fs : Features) (message : string) :
    extractFeatures (featureExtractor e) url = Ok (Some fs) ->
    featuresToArray (featureExtractor e) fs = Throw message ->
    throws_in_steps_3_5 e url message
| prediction_throws (fs : Features) (arr : list JS.jsnum) (message : string) :
    extractFeatures (featureExtractor e) url = Ok (Some fs) ->
    featuresToArray (featureExtractor e) fs = Ok arr ->
    predictWithConfidence (predictor e) arr = Throw message ->
    throws_in_steps_3_5 e url message.

(** [new Predictor(modelLoader)] as the engine's predictor; [fuel] bounds
    the iterations of each tree walk. *)
Definition of_predictor (fuel : nat) (ml : ModelLoader.t) : PredictorI :=
  {| predictWithConfidence := Predictor.predictWithConfidence fuel ml |}.

End DecisionEngine.

(* ================================================================== *)
(** ** FeatureExtractor.featuresToArray (core/features/index.js) *)

Module FeatureExtractor.

(** The ten-feature order of the current extractor. *)
Definition FEATURE_NAMES : list string :=
  [ "domain_length"; "qty_dot_domain"; "qty_hyphen_domain"; "domain_entropy"; "is_ip";
    "path_length"; "qty_slash_path"; "qty_hyphen_path"; "sus_keywords_count";
    "qty_double_slash" ].

Fixpoint lookup (fs : Features) (name : string) : option JS.jsnum :=
  match fs with
  | [] => None
  | (n, v) :: rest => if String.eqb n name then Some v else lookup rest name
  end.

(** [features[name] || 0]: [undefined], [0] and NaN are falsy. *)
Definition or_zero (v : option JS.jsnum) : JS.jsnum :=
  match v with
  | None | Some JS.NaN => JS.Fin 0
  | Some (JS.Fin q) => if Qeq_bool q 0 then JS.Fin 0 else JS.Fin q
  | Some other => other
  end.

Definition featuresToArray (fs : Features) : list JS.jsnum :=
  map (fun name => or_zero (lookup fs name)) FEATURE_NAMES.

End FeatureExtractor.

(* ================================================================== *)
(** ** DecisionEngine.reset and the whitelist as the service worker uses it *)

Module EngineOps.
Import DecisionEngine.

Definition with_whitelist (e : DecisionEngine.t) (w : Whitelist.t) : DecisionEngine.t :=
  {| featureExtractor := featureExtractor e;
     predictor := predictor e;
     cache := cache e;
     whitelist := w;
     thresholds := thresholds e;
     initialized := initialized e |}.

(** [decisionEngine.whitelist.add(url)] *)
Definition addToWhitelist (e : DecisionEngine.t) (url : string) : DecisionEngine.t :=
  with_whitelist e (snd (Whitelist.add (whitelist e) url)).


End EngineOps.

(* ================================================================== *)
(** ** What [save()] writes to the persisted store

    [ThresholdManager.save] writes [this.config] under [thresholdConfig],
    [Whitelist.save] writes [Array.from(this.domains)] under [whitelist];
    both catch their own failures.  A property that is [undefined] is not
    stored. *)

Module Storage.

Definition thresholdConfig (tm : ThresholdManager.t) : ThresholdManager.Stored :=
  let c := ThresholdManager.config tm in
  {| ThresholdManager.s_blockThreshold := Some (ThresholdManager.blockThreshold c);
     ThresholdManager.s_warnThreshold := Some (ThresholdManager.warnThreshold c);
     ThresholdManager.s_popularDomainThreshold := Some (ThresholdManager.popularDomainThreshold c);
     ThresholdManager.s_profiles := Some (ThresholdManager.profiles c);
     ThresholdManager.s_profile := ThresholdManager.profile c |}.

Definition whitelist (w : Whitelist.t) : list string := Whitelist.domains w.

End Storage.

(* ================================================================== *)
(** ** Trees whose leaves all have a weight *)

(** Every node index has an entry in [base_weights]. *)
Definition weights_cover (tree : ModelLoader.Tree) : Prop :=
  (List.length (ModelLoader.left_children tree)
   <= List.length (ModelLoader.base_weights tree))%nat.

(* ================================================================== *)
(** ** Predictor.predictBatch *)

Module Batch.

(** [featuresBatch.map(features => this.predict(features))]: the vectors
    are predicted in order and the first error ends the call. *)
Fixpoint predictBatch (fuel : nat) (ml : ModelLoader.t) (featuresBatch : list (list JS.jsnum))
  : Res (list JS.jsnum) :=
  match featuresBatch with
  | [] => Ok []
  | features :: rest =>
      p <- Predictor.predict fuel ml features ;;
      ps <- predictBatch fuel ml rest ;;
      Ok (p :: ps)
  end.

End Batch.

(* ================================================================== *)
(** ** LexicalFeatures (core/features/lexical_features.js)

    Strings are taken to be ASCII: one character per code unit, and
    [toLowerCase] acts on the letters A to Z. *)

Module LexicalFeatures.

(** [(text.match(/class/g) || []).length] for a character class. *)
Fixpoint count (class : ascii -> bool) (text : string) : nat :=
  match text with
  | EmptyString => 0
  | String c rest => (if class c then 1 else 0) + count class rest
  end.

(** [\d] *)
Definition countDigits (text : string) : nat := count Platform.is_digit text.

(** [[a-zA-Z]] *)
Definition countLetters (text : string) : nat := count Platform.is_alpha text.

(** [[^a-zA-Z0-9]] *)
Definition countSpecialChars (text : string) : nat :=
  count (fun c => negb (Platform.is_alpha c || Platform.is_digit c)) text.

(** [text.includes(sub)] *)
Fixpoint includes (text sub : string) : bool :=
  String.prefix sub text ||
  match text with
  | EmptyString => false
  | String _ rest => includes rest sub
  end.

Definition countSuspiciousKeywords (text : string) (keywords : list string) : nat :=
  let textLower := Str.toLowerCase text in
  List.length (filter (fun keyword => includes textLower keyword) keywords).

Definition hasTLDInPath (path : string) : nat :=
  let pathLower := Str.toLowerCase path in
  if existsb (fun tld => includes pathLower tld) ["com"; "net"; "org"] then 1 else 0.

(** [(path.match(/\/\//g) || []).length]: the matches do not overlap. *)
Fixpoint countDoubleSlashes (path : string) : nat :=
  match path with
  | EmptyString => 0
  | String a rest =>
      match rest with
      | EmptyString => 0
      | String b rest' =>
          if Ascii.eqb a "/" && Ascii.eqb b "/"
          then S (countDoubleSlashes rest')
          else countDoubleSlashes rest
      end
  end.

Definition digitRatio (text : string) : Q :=
  if (String.length text =? 0)%nat then 0
  else inject_Z (Z.of_nat (countDigits text)) / inject_Z (Z.of_nat (String.length text)).

End LexicalFeatures.

(* ================================================================== *)
(** ** URLParser.parseDomain (core/features/url_parser.js) *)

Module URLParser.

Record DomainParts : Type := mkDomainParts {
  subdomain : string;
  domain : string;
  suffix : string;
  fullDomain : string;
  registeredDomain : string
}.

Definition commonTLDs : list string :=
  ["com"; "org"; "net"; "edu"; "gov"; "mil"; "io"; "co"].

(** [parts.slice(0, -k).join('.')] *)
Definition leading (k : nat) (parts : list string) : string :=
  Str.join "." (firstn (List.length parts - k) parts).

Definition parseDomain (hostname : string) : DomainParts :=
  let parts := Str.split "." hostname in
  let n := List.length parts in
  let lastPart := nth (n - 1) parts "" in
  let secondLast := nth (n - 2) parts "" in
  let '(domain, subdomain, suffix) :=
    if (2 <=? n)%nat then
      if (3 <=? n)%nat && existsb (String.eqb secondLast) commonTLDs
         && (String.length lastPart =? 2)%nat
      then (nth (n - 3) parts "",
            (if (3 <? n)%nat then leading 3 parts else ""),
            secondLast ++ "." ++ lastPart)
      else (secondLast,
            (if (2 <? n)%nat then leading 2 parts else ""),
            lastPart)
    else if (n =? 1)%nat then (nth 0 parts "", "", "")
    else ("", "", "") in
  {| subdomain := subdomain;
     domain := domain;
     suffix := suffix;
     fullDomain := hostname;
     registeredDomain :=
       if negb (String.eqb domain "") && negb (String.eqb suffix "")
       then domain ++ "." ++ suffix
       else hostname |}.

End URLParser.

(* ================================================================== *)
(** ** StateStore: the statistics (second document of the predictor file)

    The counters are counts: they start at zero and are only incremented. *)

Module StateStore.

Record Stats : Type := mkStats {
  totalChecks : nat;
  blocked : nat;
  warned : nat;
  allowed : nat;
  cached : nat
}.

Record Performance : Type := mkPerformance {
  avgLatency : Q;
  maxLatency : Q
}.

Record TabInfo : Type := mkTabInfo {
  tab_url : option string;
  tab_status : option Level;
  tab_decision : option Decision.t
}.

Record State : Type := mkState {
  enabled : bool;
  stats : Stats;
  currentTab : TabInfo;
  performance : Performance
}.

Definition zero_stats : Stats :=
  {| totalChecks := 0; blocked := 0; warned := 0; allowed := 0; cached := 0 |}.

Definition zero_performance : Performance := {| avgLatency := 0; maxLatency := 0 |}.

(** The state the constructor sets up. *)
Definition create : State :=
  {| enabled := true;
     stats := zero_stats;
     currentTab := {| tab_url := None; tab_status := None; tab_decision := None |};
     performance := zero_performance |}.

(** [Math.max(a, b)] on finite numbers *)
Definition Math_max (a b : Q) : Q := if Qlt_le_dec a b then b else a.

Definition recordDecision (s : State) (decision : Decision.t) : State :=
  let st := stats s in
  let total := S (totalChecks st) in
  let st' :=
    {| totalChecks := total;
       blocked := match Decision.action decision with BLOCK => S (blocked st) | _ => blocked st end;
       warned := match Decision.action decision with WARN => S (warned st) | _ => warned st end;
       allowed := match Decision.action decision with ALLOW => S (allowed st) | _ => allowed st end;
       cached := if Decision.cached decision then S (cached st) else cached st |} in
  let perf := performance s in
  let perf' :=
    if Decision.latency decision =? 0 then perf
    else
      let latency := inject_Z (Decision.latency decision) in
      {| avgLatency :=
           (avgLatency perf * inject_Z (Z.of_nat total - 1) + latency)
           / inject_Z (Z.of_nat total);
         maxLatency := Math_max (maxLatency perf) latency |} in
  {| enabled := enabled s; stats := st'; currentTab := currentTab s; performance := perf' |}.

Definition resetStats (s : State) : State :=
  {| enabled := enabled s; stats := zero_stats; currentTab := currentTab s;
     performance := zero_performance |}.

Definition toggleEnabled (s : State) : bool * State :=
  (negb (enabled s),
   {| enabled := negb (enabled s); stats := stats s; currentTab := currentTab s;
      performance := performance s |}).

(** The decisions of a session, recorded one after the other. *)
Definition record_all (s : State) (decisions : list Decision.t) : State :=
  fold_left recordDecision decisions s.

Definition action_eqb (a b : Action) : bool :=
  match a, b with
  | BLOCK, BLOCK | WARN, WARN | ALLOW, ALLOW => true
  | _, _ => false
  end.

(** The decisions of a session with a given action, and their number. *)
Definition with_action (a : Action) (decisions : list Decision.t) : nat :=
  List.length (filter (fun d => action_eqb (Decision.action d) a) decisions).

Definition served_from_cache (decisions : list Decision.t) : nat :=
  List.length (filter Decision.cached decisions).


End StateStore.

(* ================================================================== *)
(** ** Sample objects used to exercise the statements *)

(** A cache of capacity two holding [a] then [b]. *)
Definition two_entry_cache : PredictionCache.t Action :=
  PredictionCache.set
    (PredictionCache.set (PredictionCache.create 2 3600000) 0 "https://a.example/" ALLOW)
    1 "https://b.example/" WARN.

(** One split on feature 5 ([path_length]) at 20 with two leaves. *)
Definition sample_tree : ModelLoader.Tree :=
  {| ModelLoader.left_children := [1; -1; -1];
     ModelLoader.right_children := [2; -1; -1];
     ModelLoader.split_indices := [5; 0; 0];
     ModelLoader.split_conditions := [20; 0; 0]%Q;
     ModelLoader.base_weights := [0; - (3 # 2); 2]%Q |}.

Definition model_of (ts : list ModelLoader.Tree) (base : Q) : ModelLoader.Model :=
  {| ModelLoader.trees := ts; ModelLoader.base_score := base;
     ModelLoader.num_trees := List.length ts |}.

Definition sample_metadata : ModelLoader.Metadata :=
  {| ModelLoader.feature_names := FeatureExtractor.FEATURE_NAMES;
     ModelLoader.recommended_threshold := 70 # 100;
     ModelLoader.version := "1.0" |}.

Definition loader_of (ts : list ModelLoader.Tree) (base : Q) : ModelLoader.t :=
  {| ModelLoader.model := Some (model_of ts base);
     ModelLoader.metadata := Some sample_metadata;
     ModelLoader.isLoaded := true |}.

Definition sample_loader : ModelLoader.t := loader_of [sample_tree] (1 # 2).

(** A single node whose two children are the node itself. *)
Definition cyclic_tree : ModelLoader.Tree :=
  {| ModelLoader.left_children := [0];
     ModelLoader.right_children := [0];
     ModelLoader.split_indices := [0];
     ModelLoader.split_conditions := [1 # 2]%Q;
     ModelLoader.base_weights := [0]%Q |}.

Definition ten_zeros : list JS.jsnum := repeat (JS.Fin 0) 10.

Definition odd_features : list JS.jsnum :=
  [JS.NaN; JS.PosInf; JS.NegInf; JS.NaN; JS.Fin 0; JS.NaN; JS.Fin 1; JS.Fin 2; JS.PosInf; JS.NaN].


Definition cyclic_loader : ModelLoader.t := loader_of [cyclic_tree] (1 # 2).

(** An extractor that reports only the length of the URL. *)
Definition length_extractor : DecisionEngine.FeatureExtractor :=
  {| DecisionEngine.extractFeatures :=
       fun url => Ok (Some [("path_length", JS.Fin (inject_Z (Z.of_nat (String.length url))))]);
     DecisionEngine.featuresToArray := fun fs => Ok (FeatureExtractor.featuresToArray fs) |}.

(** An engine whose model has not been loaded. *)
Definition unloaded_engine : DecisionEngine.t :=
  DecisionEngine.create length_extractor (DecisionEngine.of_predictor 16 ModelLoader.create).

(** A store holding the whitelist [example.com] and no threshold
    configuration; every clock reads as given. *)
Definition sample_env : DecisionEngine.Env :=
  {| DecisionEngine.stored_whitelist := Ok (Some ["example.com"]);
     DecisionEngine.stored_thresholds := Ok None;
     DecisionEngine.perf_start := 10;
     DecisionEngine.perf_end := 12;
     DecisionEngine.now_get := 1000;
     DecisionEngine.now_stamp := 1000;
     DecisionEngine.now_set := 1000 |}.

(** A cache of capacity three and a ttl of one second, filled at the
    instants 0, 500 and 900. *)
Definition aged_cache : PredictionCache.t Action :=
  PredictionCache.set
    (PredictionCache.set
       (PredictionCache.set (PredictionCache.create 3 1000) 0 "https://old.example/" ALLOW)
       500 "https://mid.example/" WARN)
    900 "https://new.example/" BLOCK.

(** A predictor that answers every vector with the same prediction. *)
Definition constant_predictor (pr : Predictor.Prediction) : DecisionEngine.PredictorI :=
  {| DecisionEngine.predictWithConfidence := fun _ => Ok pr |}.

Definition phishing_prediction : Predictor.Prediction :=
  {| Predictor.probability := JS.Fin (93 # 100);
     Predictor.confidence := JS.Fin (93 # 100);
     Predictor.level := PHISHING;
     Predictor.threshold := 70 # 100 |}.

(** An engine that finds every URL to be phishing. *)
Definition alarmed_engine : DecisionEngine.t :=
  DecisionEngine.create length_extractor (constant_predictor phishing_prediction).

(** An engine past [init] whose extractor cannot parse any URL. *)
Definition blind_engine : DecisionEngine.t :=
  {| DecisionEngine.featureExtractor :=
       {| DecisionEngine.extractFeatures := fun _ => Ok None;
          DecisionEngine.featuresToArray := fun fs => Ok (FeatureExtractor.featuresToArray fs) |};
     DecisionEngine.predictor := constant_predictor phishing_prediction;
     DecisionEngine.cache := PredictionCache.create_default;
     DecisionEngine.whitelist := Whitelist.create;
     DecisionEngine.thresholds := ThresholdManager.create;
     DecisionEngine.initialized := true |}.

(** An empty store; the clocks read [t]. *)
Definition env_at (t : Z) : DecisionEngine.Env :=
  {| DecisionEngine.stored_whitelist := Ok None;
     DecisionEngine.stored_thresholds := Ok None;
     DecisionEngine.perf_start := 0;
     DecisionEngine.perf_end := 3;
     DecisionEngine.now_get := t;
     DecisionEngine.now_stamp := t;
     DecisionEngine.now_set := t |}.

(** An initialised engine that finds every URL to be phishing. *)
Definition watchful_engine : DecisionEngine.t :=
  {| DecisionEngine.featureExtractor := length_extractor;
     DecisionEngine.predictor := constant_predictor phishing_prediction;
     DecisionEngine.cache := PredictionCache.create_default;
     DecisionEngine.whitelist := Whitelist.create;
     DecisionEngine.thresholds := ThresholdManager.create;
     DecisionEngine.initialized := true |}.

(** A decision as the statistics see it. *)
Definition sample_decision (a : Action) (c : bool) (l : Z) : Decision.t :=
  {| Decision.url := "https://shop.example/";
     Decision.action := a;
     Decision.level := SAFE;
     Decision.probability := Some (JS.Fin 0);
     Decision.confidence := JS.Fin 1;
     Decision.reason := "ml_prediction";
     Decision.features := None;
     Decision.cached := c;
     Decision.timestamp := 0;
     Decision.latency := l;
     Decision.error := None |}.



(** A tree that is a single leaf of weight 3, and a tree without nodes. *)
Definition stump : ModelLoader.Tree :=
  {| ModelLoader.left_children := [-1];
     ModelLoader.right_children := [-1];
     ModelLoader.split_indices := [0];
     ModelLoader.split_conditions := [0]%Q;
     ModelLoader.base_weights := [3]%Q |}.

Definition hollow_tree : ModelLoader.Tree :=
  {| ModelLoader.left_children := [];
     ModelLoader.right_children := [];
     ModelLoader.split_indices := [];
     ModelLoader.split_conditions := [];
     ModelLoader.base_weights := [] |}.

Definition stump_loader : ModelLoader.t := loader_of [stump] 0.

Definition hollow_loader : ModelLoader.t := loader_of [stump; hollow_tree] 0.

Definition zero_vector : list JS.jsnum := repeat (JS.Fin 0) 10.

(** A node object that is no leaf and whose children lie outside the tree. *)
Definition lone_node : NodePredictor.Node :=
  {| NodePredictor.leaf := None;
     NodePredictor.leaf_value := None;
     NodePredictor.split_feature := Some 2;
     NodePredictor.feature := None;
     NodePredictor.split_condition := Some (1 # 2);
     NodePredictor.threshold := None;
     NodePredictor.left_child := Some 7;
     NodePredictor.yes := None;
     NodePredictor.right_child := Some 8;
     NodePredictor.no := None |}.

Definition lone_tree : NodePredictor.Tree := {| NodePredictor.nodes := Some [lone_node] |}.

(** What [new URL] makes of ["https://shop.example.co.uk/cart"] and of
    ["https://accounts.google.com/signin"]. *)
Definition shop_url : Platform.URL :=
  {| Platform.protocol := "https:";
     Platform.hostname := "shop.example.co.uk";
     Platform.port := "";
     Platform.pathname := "/cart";
     Platform.search := "";
     Platform.hash := "" |}.

Definition accounts_url : Platform.URL :=
  {| Platform.protocol := "https:";
     Platform.hostname := "accounts.google.com";
     Platform.port := "";
     Platform.pathname := "/signin";
     Platform.search := "";
     Platform.hash := "" |}.

(* ================================================================== *)
(** * Properties *)

(** ** Comparisons of finite numbers *)

Lemma ge_Fin (x y : Q) : JS.ge (JS.Fin x) (JS.Fin y) = true <-> (y <= x)%Q.
Proof.
  unfold JS.ge. destruct (Qlt_le_dec x y) as [Hlt | Hle].
  - split; [discriminate | intro H; exfalso; apply (Qlt_not_le _ _ Hlt H)].
  - split; auto.
Qed.

Lemma ge_Fin_false (x y : Q) : JS.ge (JS.Fin x) (JS.Fin y) = false <-> (x < y)%Q.
Proof.
  unfold JS.ge. destruct (Qlt_le_dec x y) as [Hlt | Hle].
  - split; auto.
  - split; [discriminate | intro H; exfalso; apply (Qlt_not_le _ _ H Hle)].
Qed.

Lemma lt_Fin (x y : Q) : JS.lt (JS.Fin x) (JS.Fin y) = true <-> (x < y)%Q.
Proof.
  unfold JS.lt. destruct (Qlt_le_dec x y) as [Hlt | Hle].
  - split; auto.
  - split; [discriminate | intro H; exfalso; apply (Qlt_not_le _ _ H Hle)].
Qed.

Lemma lt_NaN_l (y : JS.jsnum) : JS.lt JS.NaN y = false.
Proof. reflexivity. Qed.

Lemma lt_NaN_r (x : JS.jsnum) : JS.lt x JS.NaN = false.
Proof. destruct x; reflexivity. Qed.

(** ** ThresholdManager.getAction *)

Section GetAction.
Import ThresholdManager.
Variable tm : ThresholdManager.t.
Let blockT := blockThreshold (config tm).
Let warnT := warnThreshold (config tm).
Let popularT := popularDomainThreshold (config tm).

Lemma getAction_plain (p : JS.jsnum) :
  getAction tm p false =
    if JS.ge p (JS.Fin blockT) then BLOCK
    else if JS.ge p (JS.Fin warnT) then WARN else ALLOW.
Proof. reflexivity. Qed.

Lemma getAction_block_iff (p : Q) :
  getAction tm (JS.Fin p) false = BLOCK <-> (blockT <= p)%Q.
Proof.
  rewrite getAction_plain.
  destruct (JS.ge (JS.Fin p) (JS.Fin blockT)) eqn:Hb.
  - apply ge_Fin in Hb. tauto.
  - apply ge_Fin_false in Hb.
    split.
    + destruct (JS.ge (JS.Fin p) (JS.Fin warnT)); discriminate.
    + intro H. exfalso. apply (Qlt_not_le _ _ Hb H).
Qed.

Lemma getAction_warn_iff (p : Q) :
  getAction tm (JS.Fin p) false = WARN <-> (warnT <= p)%Q /\ (p < blockT)%Q.
Proof.
  rewrite getAction_plain.
  destruct (JS.ge (JS.Fin p) (JS.Fin blockT)) eqn:Hb.
  - apply ge_Fin in Hb. split; [discriminate |].
    intros [_ H]. exfalso. apply (Qlt_not_le _ _ H Hb).
  - apply ge_Fin_false in Hb.
    destruct (JS.ge (JS.Fin p) (JS.Fin warnT)) eqn:Hw.
    + apply ge_Fin in Hw. tauto.
    + apply ge_Fin_false in Hw. split; [discriminate |].
      intros [H _]. exfalso. apply (Qlt_not_le _ _ Hw H).
Qed.

Lemma getAction_allow_iff (p : Q) :
  getAction tm (JS.Fin p) false = ALLOW <-> (p < warnT)%Q /\ (p < blockT)%Q.
Proof.
  rewrite getAction_plain.
  destruct (JS.ge (JS.Fin p) (JS.Fin blockT)) eqn:Hb.
  - apply ge_Fin in Hb. split; [discriminate |].
    intros [_ H]. exfalso. apply (Qlt_not_le _ _ H Hb).
  - apply ge_Fin_false in Hb.
    destruct (JS.ge (JS.Fin p) (JS.Fin warnT)) eqn:Hw.
    + apply ge_Fin in Hw. split; [discriminate |].
      intros [H _]. exfalso. apply (Qlt_not_le _ _ H Hw).
    + apply ge_Fin_false in Hw. tauto.
Qed.

Lemma getAction_popular_below (p : Q) :
  (p < popularT)%Q -> getAction tm (JS.Fin p) true = ALLOW.
Proof.
  intro H. unfold getAction. apply lt_Fin in H.
  fold popularT. rewrite H. reflexivity.
Qed.

Lemma getAction_popular_otherwise (p : Q) :
  (popularT <= p)%Q -> getAction tm (JS.Fin p) true = getAction tm (JS.Fin p) false.
Proof.
  intro H. unfold getAction. fold popularT.
  destruct (JS.lt (JS.Fin p) (JS.Fin popularT)) eqn:Hp.
  - apply lt_Fin in Hp. exfalso. apply (Qlt_not_le _ _ Hp H).
  - reflexivity.
Qed.

End GetAction.

(** C4.  For a finite probability [p], [getAction(p, false)] is BLOCK
    exactly when [p >= blockThreshold] (the boundary included), WARN exactly
    when [warnThreshold <= p < blockThreshold], and, under the configuration
    invariant [warnThreshold <= blockThreshold], ALLOW exactly when
    [p < warnThreshold]; [getAction(p, true)] is ALLOW whenever
    [p < popularDomainThreshold], also when [p >= blockThreshold], and is the
    plain comparison otherwise. *)
Theorem getAction_threshold_ordering (tm : ThresholdManager.t) (p : Q) :
  let c := ThresholdManager.config tm in
  (ThresholdManager.getAction tm (JS.Fin p) false = BLOCK
     <-> (ThresholdManager.blockThreshold c <= p)%Q) /\
  (ThresholdManager.getAction tm (JS.Fin p) false = WARN
     <-> (ThresholdManager.warnThreshold c <= p)%Q /\ (p < ThresholdManager.blockThreshold c)%Q) /\
  ((ThresholdManager.warnThreshold c <= ThresholdManager.blockThreshold c)%Q ->
     (ThresholdManager.getAction tm (JS.Fin p) false = ALLOW
        <-> (p < ThresholdManager.warnThreshold c)%Q)) /\
  ((p < ThresholdManager.popularDomainThreshold c)%Q ->
     ThresholdManager.getAction tm (JS.Fin p) true = ALLOW) /\
  ((ThresholdManager.popularDomainThreshold c <= p)%Q ->
     ThresholdManager.getAction tm (JS.Fin p) true
     = ThresholdManager.getAction tm (JS.Fin p) false).
Proof.
  intro c. subst c.
  split; [apply getAction_block_iff |].
  split; [apply getAction_warn_iff |].
  split.
  - intro Hinv. rewrite getAction_allow_iff. split.
    + tauto.
    + intro H. split; [exact H |]. eapply Qlt_le_trans; eassumption.
  - split; [apply getAction_popular_below | apply getAction_popular_otherwise].
Qed.

(** The default configuration at [p = 0.95] on a popular domain and at the
    block boundary [p = 0.70]. *)
Lemma getAction_threshold_ordering_witness :
  ThresholdManager.getAction ThresholdManager.create (JS.Fin (70 # 100)) false = BLOCK
  /\ (ThresholdManager.getAction ThresholdManager.create (JS.Fin (40 # 100)) false = ALLOW
      <-> (40 # 100 < 50 # 100)%Q)
  /\ ThresholdManager.getAction ThresholdManager.create (JS.Fin (80 # 100)) true = ALLOW.
Proof.
  split; [| split].
  - apply (proj1 (getAction_threshold_ordering ThresholdManager.create (70 # 100))).
    simpl. apply Qle_refl.
  - apply (proj1 (proj2 (proj2 (getAction_threshold_ordering ThresholdManager.create (40 # 100))))).
    simpl. unfold Qle. simpl. lia.
  - apply (proj1 (proj2 (proj2 (proj2
             (getAction_threshold_ordering ThresholdManager.create (80 # 100)))))).
    simpl. unfold Qlt. simpl. lia.
Defined.

(** ** Whitelist *)

Lemma set_has_add (d : list string) (x : string) :
  Whitelist.set_has (Whitelist.set_add d x) x = true.
Proof.
  unfold Whitelist.set_add.
  destruct (Whitelist.set_has d x) eqn:H; [exact H |].
  unfold Whitelist.set_has. rewrite existsb_app. simpl.
  rewrite String.eqb_refl. apply orb_true_iff. right. reflexivity.
Qed.

Lemma set_has_add_other (d : list string) (x y : string) :
  Whitelist.set_has d y = true -> Whitelist.set_has (Whitelist.set_add d x) y = true.
Proof.
  intro H. unfold Whitelist.set_add.
  destruct (Whitelist.set_has d x); [exact H |].
  unfold Whitelist.set_has in *. rewrite existsb_app, H. reflexivity.
Qed.

(** [add] stores the projection [extractDomain] computes, and every URL
    with the same projection is whitelisted from then on. *)
Lemma add_whitelists_projection (w : Whitelist.t) (u u' domain : string) :
  Whitelist.extractDomain u = Some domain ->
  Whitelist.extractDomain u' = Some domain ->
  domain <> "" ->
  Whitelist.isWhitelisted (snd (Whitelist.add w u)) u' = true.
Proof.
  intros Hu Hu' Hne.
  unfold Whitelist.add, Whitelist.isWhitelisted. rewrite Hu, Hu'.
  destruct (String.eqb domain "") eqn:He.
  - apply String.eqb_eq in He. contradiction.
  - simpl. rewrite set_has_add. reflexivity.
Qed.

(** C3 (as stated, refuted).  The second half fails: [add("b.example.com")]
    stores ["example.com"], so ["https://example.com"] is whitelisted. *)
Lemma whitelist_descendant_counterexample :
  ~ (Whitelist.isWhitelisted (snd (Whitelist.add Whitelist.create "example.com"))
       "https://a.b.example.com/x" = true
     /\ Whitelist.isWhitelisted (snd (Whitelist.add Whitelist.create "b.example.com"))
          "https://example.com" = false).
Proof. intros [_ H]. vm_compute in H. discriminate H. Qed.

(** C3 (amended).  After [add("example.com")] on any whitelist,
    [isWhitelisted("https://a.b.example.com/x")] is true.  [add] stores the
    last-two-label projection of its argument, so [add("b.example.com")] on
    an empty whitelist stores ["example.com"] and
    [isWhitelisted("https://example.com")] is true as well.  Matching itself
    goes in the ancestor direction only: a set whose only entry is the
    string ["b.example.com"] does not whitelist ["https://example.com"]. *)
Theorem whitelist_suffix_matching :
  (forall w : Whitelist.t,
      Whitelist.isWhitelisted (snd (Whitelist.add w "example.com"))
        "https://a.b.example.com/x" = true)
  /\ Whitelist.domains (snd (Whitelist.add Whitelist.create "b.example.com")) = ["example.com"]
  /\ Whitelist.isWhitelisted (snd (Whitelist.add Whitelist.create "b.example.com"))
       "https://example.com" = true
  /\ Whitelist.isWhitelisted
       {| Whitelist.domains := ["b.example.com"]; Whitelist.loaded := true |}
       "https://example.com" = false.
Proof.
  split; [| split; [| split]].
  - intro w. apply add_whitelists_projection with (domain := "example.com").
    + reflexivity.
    + reflexivity.
    + discriminate.
  - reflexivity.
  - reflexivity.
  - reflexivity.
Qed.

(** ** The insertion-ordered map *)

Section MapFacts.
Context {V : Type}.
Implicit Types (m : JSMap.t V) (k : string) (v : V).

Lemma map_get_set_same m k v : JSMap.get (JSMap.set m k v) k = Some v.
Proof.
  induction m as [| [k0 v0] rest IH]; simpl.
  - rewrite String.eqb_refl. reflexivity.
  - destruct (String.eqb k0 k) eqn:E; simpl; rewrite E; [reflexivity | exact IH].
Qed.

Lemma map_get_set_other m k k' v :
  k <> k' -> JSMap.get (JSMap.set m k v) k' = JSMap.get m k'.
Proof.
  intro Hne. induction m as [| [k0 v0] rest IH]; simpl.
  - destruct (String.eqb k k') eqn:E; [apply String.eqb_eq in E; contradiction | reflexivity].
  - destruct (String.eqb k0 k) eqn:E; simpl.
    + apply String.eqb_eq in E. subst k0.
      destruct (String.eqb k k') eqn:E'; [apply String.eqb_eq in E'; contradiction | reflexivity].
    + rewrite IH. reflexivity.
Qed.

Lemma map_get_delete_same m k : JSMap.get (JSMap.delete m k) k = None.
Proof.
  induction m as [| [k0 v0] rest IH]; simpl; [reflexivity |].
  destruct (String.eqb k0 k) eqn:E; simpl; [exact IH | rewrite E; exact IH].
Qed.

Lemma map_get_delete_other m k k' :
  k <> k' -> JSMap.get (JSMap.delete m k) k' = JSMap.get m k'.
Proof.
  intro Hne. induction m as [| [k0 v0] rest IH]; simpl; [reflexivity |].
  destruct (String.eqb k0 k) eqn:E; simpl.
  - apply String.eqb_eq in E. subst k0.
    destruct (String.eqb k k') eqn:E'; [apply String.eqb_eq in E'; contradiction | exact IH].
  - rewrite IH. reflexivity.
Qed.

Lemma map_get_none_not_in m k : JSMap.get m k = None <-> ~ In k (JSMap.keys m).
Proof.
  induction m as [| [k0 v0] rest IH]; simpl.
  - tauto.
  - destruct (String.eqb k0 k) eqn:E.
    + apply String.eqb_eq in E. split; [discriminate | intro H; exfalso; apply H; left; exact E].
    + apply String.eqb_neq in E. rewrite IH. tauto.
Qed.

Lemma map_delete_absent m k : ~ In k (JSMap.keys m) -> JSMap.delete m k = m.
Proof.
  induction m as [| [k0 v0] rest IH]; simpl; [reflexivity |].
  intro H. destruct (String.eqb k0 k) eqn:E.
  - apply String.eqb_eq in E. exfalso. apply H. left. exact E.
  - rewrite IH; [reflexivity | tauto].
Qed.

Lemma map_set_absent m k v : ~ In k (JSMap.keys m) -> JSMap.set m k v = (m ++ [(k, v)])%list.
Proof.
  induction m as [| [k0 v0] rest IH]; simpl; [reflexivity |].
  intro H. destruct (String.eqb k0 k) eqn:E.
  - apply String.eqb_eq in E. exfalso. apply H. left. exact E.
  - rewrite IH; [reflexivity | tauto].
Qed.

Lemma map_keys_delete m k k' :
  In k' (JSMap.keys (JSMap.delete m k)) <-> In k' (JSMap.keys m) /\ k' <> k.
Proof.
  induction m as [| [k0 v0] rest IH]; simpl; [tauto |].
  destruct (String.eqb k0 k) eqn:E.
  - apply String.eqb_eq in E. subst k0. rewrite IH. split.
    + tauto.
    + intros [[H | H] Hne]; [congruence | tauto].
  - apply String.eqb_neq in E. simpl. rewrite IH. split.
    + intros [H | H]; [subst k'; tauto | tauto].
    + tauto.
Qed.

Lemma map_delete_head (k : string) (e : V) (rest : JSMap.t V) :
  NoDup (JSMap.keys ((k, e) :: rest)) -> JSMap.delete ((k, e) :: rest) k = rest.
Proof.
  simpl. intro H. rewrite String.eqb_refl. apply map_delete_absent.
  inversion H; assumption.
Qed.

Lemma map_keys_set m k v :
  forall k', In k' (JSMap.keys (JSMap.set m k v)) <-> In k' (JSMap.keys m) \/ k' = k.
Proof.
  intro k'. induction m as [| [k0 v0] rest IH]; simpl.
  - intuition congruence.
  - destruct (String.eqb k0 k) eqn:E; simpl.
    + apply String.eqb_eq in E. subst k0. intuition congruence.
    + rewrite IH. tauto.
Qed.

Lemma map_nodup_delete m k : NoDup (JSMap.keys m) -> NoDup (JSMap.keys (JSMap.delete m k)).
Proof.
  induction m as [| [k0 v0] rest IH]; simpl; [auto |].
  intro H. inversion H as [| x l Hnotin Hnd]; subst.
  destruct (String.eqb k0 k); [auto |].
  simpl. constructor; [| auto].
  rewrite map_keys_delete. tauto.
Qed.

Lemma map_nodup_set m k v : NoDup (JSMap.keys m) -> NoDup (JSMap.keys (JSMap.set m k v)).
Proof.
  induction m as [| [k0 v0] rest IH]; simpl.
  - intros _. constructor; [simpl; tauto | constructor].
  - intro H. inversion H as [| x l Hnotin Hnd]; subst.
    destruct (String.eqb k0 k) eqn:E; simpl.
    + constructor; assumption.
    + apply String.eqb_neq in E. constructor; [| auto].
      rewrite map_keys_set. intros [Hin | Heq]; [contradiction | congruence].
Qed.

Lemma map_has_in (m : JSMap.t V) (k : string) :
  JSMap.has m k = true <-> In k (JSMap.keys m).
Proof.
  unfold JSMap.has. pose proof (map_get_none_not_in m k) as H.
  destruct (JSMap.get m k).
  - split; [intros _ | reflexivity].
    destruct (in_dec string_dec k (JSMap.keys m)) as [Hin | Hout]; [exact Hin |].
    apply H in Hout. discriminate.
  - split; [discriminate |]. intro Hin. exfalso. apply (proj1 H); auto.
Qed.

Lemma map_length_delete (m : JSMap.t V) (k : string) :
  NoDup (JSMap.keys m) -> In k (JSMap.keys m) ->
  S (List.length (JSMap.delete m k)) = List.length m.
Proof.
  induction m as [| [k0 v0] rest IH]; simpl; [tauto |].
  intros Hnd Hin. inversion Hnd as [| x l Hnotin Hnd']; subst.
  destruct (String.eqb k0 k) eqn:E.
  - apply String.eqb_eq in E. subst k0.
    rewrite map_delete_absent; [reflexivity | exact Hnotin].
  - apply String.eqb_neq in E. simpl. f_equal. apply IH; [exact Hnd' |].
    destruct Hin as [Heq | Hin]; [contradiction | exact Hin].
Qed.

Lemma map_keys_tail m k v : In k (JSMap.keys (m ++ [(k, v)])%list).
Proof.
  unfold JSMap.keys. rewrite map_app. apply in_or_app. right. left. reflexivity.
Qed.

End MapFacts.

(** ** PredictionCache *)

Section CacheFacts.
Context {V : Type}.
Implicit Types (c : PredictionCache.t V) (u : string) (d : V).

Lemma create_distinct_keys (maxSize ttlMs : Z) :
  PredictionCache.distinct_keys (PredictionCache.create (V := V) maxSize ttlMs).
Proof. constructor. Qed.

Lemma set_distinct_keys c now u d :
  PredictionCache.distinct_keys c -> PredictionCache.distinct_keys (PredictionCache.set c now u d).
Proof.
  unfold PredictionCache.distinct_keys, PredictionCache.set. simpl. intro H.
  apply map_nodup_set.
  destruct (Z.of_nat (JSMap.size (PredictionCache.cache c)) >=? PredictionCache.maxSize c);
    [| exact H].
  destruct (JSMap.first_key (PredictionCache.cache c)); simpl; [| exact H].
  apply map_nodup_delete. exact H.
Qed.

Lemma get_distinct_keys c now u :
  PredictionCache.distinct_keys c -> PredictionCache.distinct_keys (snd (PredictionCache.get c now u)).
Proof.
  unfold PredictionCache.distinct_keys, PredictionCache.get. intro H.
  destruct (JSMap.get (PredictionCache.cache c) (PredictionCache.normalizeURL u)) as [e |];
    [| exact H].
  destruct (now - PredictionCache.timestamp e >? PredictionCache.ttl c); simpl.
  - apply map_nodup_delete. exact H.
  - apply map_nodup_set. apply map_nodup_delete. exact H.
Qed.

Lemma get_after_set c now u d :
  JSMap.get (PredictionCache.cache (PredictionCache.set c now u d))
            (PredictionCache.normalizeURL u)
  = Some {| PredictionCache.prediction := d; PredictionCache.timestamp := now |}.
Proof. unfold PredictionCache.set. simpl. apply map_get_set_same. Qed.

(** A lookup always moves one of the two counters. *)
Lemma get_counts c now u :
  let c' := snd (PredictionCache.get c now u) in
  PredictionCache.hits c' + PredictionCache.misses c'
  = PredictionCache.hits c + PredictionCache.misses c + 1.
Proof.
  unfold PredictionCache.get.
  destruct (JSMap.get (PredictionCache.cache c) (PredictionCache.normalizeURL u)) as [e |];
    simpl; [| lia].
  destruct (now - PredictionCache.timestamp e >? PredictionCache.ttl c); simpl; lia.
Qed.

(** C7.  After [set(u, d)] at time [t0], a [get(u)] at time [t1] returns [d]
    as long as no more than [ttl] milliseconds have passed, in particular
    immediately ([t1 = t0], for a non-negative [ttl]); once more than [ttl]
    milliseconds have passed it returns [null] and the entry is gone from
    the cache. *)
Theorem cache_round_trip c u d (t0 t1 : Z) :
  let c1 := PredictionCache.set c t0 u d in
  (t1 - t0 <= PredictionCache.ttl c -> fst (PredictionCache.get c1 t1 u) = Some d)
  /\ (0 <= PredictionCache.ttl c -> fst (PredictionCache.get c1 t0 u) = Some d)
  /\ (t1 - t0 > PredictionCache.ttl c ->
        fst (PredictionCache.get c1 t1 u) = None
        /\ JSMap.get (PredictionCache.cache (snd (PredictionCache.get c1 t1 u)))
                     (PredictionCache.normalizeURL u) = None
        /\ ~ In (PredictionCache.normalizeURL u)
                (JSMap.keys (PredictionCache.cache (snd (PredictionCache.get c1 t1 u))))).
Proof.
  intro c1.
  assert (Hfresh : forall t, t - t0 <= PredictionCache.ttl c ->
                             fst (PredictionCache.get c1 t u) = Some d).
  { intros t Ht. unfold PredictionCache.get. subst c1. rewrite get_after_set. simpl.
    destruct (t - t0 >? PredictionCache.ttl c) eqn:E; [| reflexivity].
    apply Z.gtb_lt in E. lia. }
  split; [apply Hfresh |].
  split; [intro Httl; apply Hfresh; lia |].
  intro Hexp. unfold PredictionCache.get. subst c1. rewrite get_after_set. simpl.
  destruct (t1 - t0 >? PredictionCache.ttl c) eqn:E.
  - simpl. split; [reflexivity |].
    split; [apply map_get_delete_same |].
    apply map_get_none_not_in. apply map_get_delete_same.
  - rewrite Z.gtb_ltb in E. apply Z.ltb_ge in E. lia.
Qed.

End CacheFacts.

(** The default cache: a value stored at time 1000 is read back at the
    same instant and has expired one hour and one millisecond later. *)
Lemma cache_round_trip_witness :
  fst (PredictionCache.get
         (PredictionCache.set PredictionCache.create_default 1000 "https://example.com/a#top" ALLOW)
         1000 "https://example.com/a#top") = Some ALLOW
  /\ fst (PredictionCache.get
         (PredictionCache.set PredictionCache.create_default 1000 "https://example.com/a#top" ALLOW)
         3601001 "https://example.com/a#top") = None.
Proof.
  pose proof (cache_round_trip PredictionCache.create_default
                "https://example.com/a#top" ALLOW 1000 1000) as [_ [Hnow _]].
  pose proof (cache_round_trip PredictionCache.create_default
                "https://example.com/a#top" ALLOW 1000 3601001) as [_ [_ Hlater]].
  split.
  - apply Hnow. simpl. lia.
  - apply Hlater. simpl. lia.
Defined.

Section CacheEviction.
Context {V : Type}.
Implicit Types (c : PredictionCache.t V) (u : string) (d : V).

(** Inserting a new key into a full cache drops the head of the map and
    appends the new entry: nothing else moves. *)
Lemma set_evicts_head c now u d (k0 : string) (e0 : PredictionCache.Entry V)
      (rest : JSMap.t (PredictionCache.Entry V)) :
  PredictionCache.distinct_keys c ->
  PredictionCache.cache c = (k0, e0) :: rest ->
  Z.of_nat (JSMap.size (PredictionCache.cache c)) = PredictionCache.maxSize c ->
  ~ In (PredictionCache.normalizeURL u) (JSMap.keys (PredictionCache.cache c)) ->
  PredictionCache.cache (PredictionCache.set c now u d)
  = (rest ++ [(PredictionCache.normalizeURL u,
               {| PredictionCache.prediction := d; PredictionCache.timestamp := now |})])%list.
Proof.
  intros Hnd Hc Hfull Hnew. unfold PredictionCache.set. simpl.
  rewrite Hfull. rewrite Z.geb_leb, Z.leb_refl.
  unfold PredictionCache.distinct_keys in Hnd. rewrite Hc in *.
  cbn [JSMap.first_key JSMap.delete_opt].
  rewrite map_delete_head by exact Hnd.
  apply map_set_absent. intro Hin. apply Hnew. simpl. right. exact Hin.
Qed.

(** A hit re-inserts the entry at the tail of the map. *)
Lemma get_hit_moves_to_tail c now u d :
  PredictionCache.distinct_keys c ->
  fst (PredictionCache.get c now u) = Some d ->
  exists e,
    PredictionCache.prediction e = d
    /\ JSMap.get (PredictionCache.cache c) (PredictionCache.normalizeURL u) = Some e
    /\ PredictionCache.cache (snd (PredictionCache.get c now u))
       = (JSMap.delete (PredictionCache.cache c) (PredictionCache.normalizeURL u)
            ++ [(PredictionCache.normalizeURL u, e)])%list.
Proof.
  intros Hnd. unfold PredictionCache.get.
  destruct (JSMap.get (PredictionCache.cache c) (PredictionCache.normalizeURL u)) as [e |] eqn:G;
    [| discriminate].
  destruct (now - PredictionCache.timestamp e >? PredictionCache.ttl c); [discriminate |].
  simpl. intro H. injection H as H. exists e. split; [exact H |]. split; [reflexivity |].
  apply map_set_absent. rewrite map_keys_delete. tauto.
Qed.

(** After a hit on [u] in a cache of at least two entries, the next [set],
    whatever it inserts, leaves [u] in the cache. *)
Lemma get_hit_protects c now u d (now' : Z) (v : string) (d' : V) :
  PredictionCache.distinct_keys c ->
  fst (PredictionCache.get c now u) = Some d ->
  (2 <= JSMap.size (PredictionCache.cache c))%nat ->
  JSMap.has (PredictionCache.cache
               (PredictionCache.set (snd (PredictionCache.get c now u)) now' v d'))
            (PredictionCache.normalizeURL u) = true.
Proof.
  intros Hnd Hhit Hsize.
  destruct (get_hit_moves_to_tail c now u d Hnd Hhit) as [e [_ [Hget Hcache]]].
  pose proof (get_distinct_keys c now u Hnd) as Hnd'.
  set (c' := snd (PredictionCache.get c now u)) in *.
  set (key := PredictionCache.normalizeURL u) in *.
  assert (Hin : In key (JSMap.keys (PredictionCache.cache c))).
  { apply (proj1 (map_has_in _ _)). unfold JSMap.has. rewrite Hget. reflexivity. }
  pose proof (map_length_delete _ key Hnd Hin) as Hlen.
  apply (proj2 (map_has_in _ _)). unfold PredictionCache.set. simpl.
  apply (proj2 (map_keys_set _ _ _ _)). left.
  destruct (Z.of_nat (JSMap.size (PredictionCache.cache c')) >=? PredictionCache.maxSize c').
  - unfold PredictionCache.distinct_keys in Hnd'. rewrite Hcache in *.
    destruct (JSMap.delete (PredictionCache.cache c) key) as [| [k1 e1] rest1] eqn:D.
    + unfold JSMap.size in Hsize. simpl in Hlen. lia.
    + change (((k1, e1) :: rest1) ++ [(key, e)])%list
        with ((k1, e1) :: (rest1 ++ [(key, e)]))%list in *.
      cbn [JSMap.first_key JSMap.delete_opt].
      apply (proj2 (map_keys_delete _ _ _)). split.
      * simpl. right. apply map_keys_tail.
      * intro Heq. simpl in Hnd'. inversion Hnd' as [| x l Hnotin Hrest]; subst.
        apply Hnotin. apply map_keys_tail.
  - rewrite Hcache. apply map_keys_tail.
Qed.

(** C8 (amended).  When the cache holds [maxSize] entries, at least one,
    inserting a new normalized URL removes exactly the head of the
    insertion-ordered map (the entry least recently inserted or read) and
    appends the new entry; a successful [get(u)] moves [u]'s entry to the
    tail, so that, when the cache holds at least two entries, [u] survives
    the [set] that follows. *)
Theorem lru_eviction c now u d :
  PredictionCache.distinct_keys c ->
  (forall k0 e0 rest,
      PredictionCache.cache c = (k0, e0) :: rest ->
      Z.of_nat (JSMap.size (PredictionCache.cache c)) = PredictionCache.maxSize c ->
      ~ In (PredictionCache.normalizeURL u) (JSMap.keys (PredictionCache.cache c)) ->
      PredictionCache.cache (PredictionCache.set c now u d)
      = (rest ++ [(PredictionCache.normalizeURL u,
                   {| PredictionCache.prediction := d; PredictionCache.timestamp := now |})])%list)
  /\ (fst (PredictionCache.get c now u) = Some d ->
      (exists e,
          PredictionCache.prediction e = d
          /\ PredictionCache.cache (snd (PredictionCache.get c now u))
             = (JSMap.delete (PredictionCache.cache c) (PredictionCache.normalizeURL u)
                  ++ [(PredictionCache.normalizeURL u, e)])%list)
      /\ ((2 <= JSMap.size (PredictionCache.cache c))%nat ->
          forall (now' : Z) (v : string) (d' : V),
            JSMap.has (PredictionCache.cache
                         (PredictionCache.set (snd (PredictionCache.get c now u)) now' v d'))
                      (PredictionCache.normalizeURL u) = true)).
Proof.
  intro Hnd. split.
  - intros k0 e0 rest Hc Hfull Hnew. apply set_evicts_head with (k0 := k0) (e0 := e0); assumption.
  - intro Hhit. split.
    + destruct (get_hit_moves_to_tail c now u d Hnd Hhit) as [e [Hp [_ Hc]]].
      exists e. split; assumption.
    + intros Hsize now' v d'. apply get_hit_protects with (d := d); assumption.
Qed.

End CacheEviction.

(** Reading [a] and then inserting [c] into the full cache evicts [b]. *)
Lemma lru_eviction_witness :
  JSMap.keys (PredictionCache.cache
                (PredictionCache.set (snd (PredictionCache.get two_entry_cache 2 "https://a.example/"))
                                     3 "https://c.example/" BLOCK))
  = ["https://a.example/"; "https://c.example/"]
  /\ JSMap.has (PredictionCache.cache
                  (PredictionCache.set (snd (PredictionCache.get two_entry_cache 2 "https://a.example/"))
                                       3 "https://c.example/" BLOCK))
               (PredictionCache.normalizeURL "https://a.example/") = true.
Proof.
  split; [reflexivity |].
  assert (Hnd : PredictionCache.distinct_keys two_entry_cache).
  { unfold two_entry_cache. apply set_distinct_keys, set_distinct_keys, create_distinct_keys. }
  destruct (lru_eviction two_entry_cache 2 "https://a.example/" ALLOW Hnd) as [_ H].
  destruct (H eq_refl) as [_ Hprot].
  apply Hprot. simpl. lia.
Defined.

(** C8 (as stated, refuted).  In a cache of capacity one, [get(u)] hits and
    the very next insertion still evicts [u]. *)
Lemma lru_single_entry_counterexample :
  let c1 := PredictionCache.set (PredictionCache.create 1 3600000) 0 "https://a.example/" ALLOW in
  let r := PredictionCache.get c1 1 "https://a.example/" in
  let c3 := PredictionCache.set (snd r) 2 "https://b.example/" WARN in
  PredictionCache.distinct_keys c1
  /\ Z.of_nat (JSMap.size (PredictionCache.cache c1)) = PredictionCache.maxSize c1
  /\ fst r = Some ALLOW
  /\ JSMap.has (PredictionCache.cache c3) (PredictionCache.normalizeURL "https://a.example/") = false
  /\ JSMap.keys (PredictionCache.cache c3) = ["https://b.example/"].
Proof.
  cbv zeta. split; [| split; [| split; [| split]]]; try reflexivity.
  apply set_distinct_keys, create_distinct_keys.
Qed.

(** ** DecisionEngine *)

Section EngineFacts.
Import DecisionEngine.
Implicit Types (e : DecisionEngine.t) (env : Env) (u : string).

Lemma whitelist_load_ok (w : Whitelist.t) (stored : Res (option (list string))) :
  forall message, Whitelist.load w stored <> Throw message.
Proof. intro message. unfold Whitelist.load. destruct stored; simpl; discriminate. Qed.

Lemma thresholds_load_ok (tm : ThresholdManager.t) (stored : Res (option ThresholdManager.Stored)) :
  forall message, ThresholdManager.load tm stored <> Throw message.
Proof.
  intro message. unfold ThresholdManager.load.
  destruct stored as [[st |] | m |]; simpl; discriminate.
Qed.

Lemma init_never_throws e env : forall message, init e env <> Throw message.
Proof.
  intro message. unfold init. destruct (initialized e); [discriminate |].
  pose proof (whitelist_load_ok (whitelist e) (stored_whitelist env)) as Hw.
  destruct (Whitelist.load (whitelist e) (stored_whitelist env)) as [w | m |]; simpl.
  - pose proof (thresholds_load_ok (thresholds e) (stored_thresholds env)) as Ht.
    destruct (ThresholdManager.load (thresholds e) (stored_thresholds env)) as [th | m |];
      simpl; [discriminate | | discriminate].
    exfalso. apply (Ht m). reflexivity.
  - exfalso. apply (Hw m). reflexivity.
  - discriminate.
Qed.

(** [init] leaves the cache and the two collaborators as they are. *)
Lemma init_frame e env e1 :
  init e env = Ok e1 ->
  cache e1 = cache e /\ featureExtractor e1 = featureExtractor e /\ predictor e1 = predictor e.
Proof.
  unfold init. destruct (initialized e).
  - intro H. injection H as H. subst e1. auto.
  - destruct (Whitelist.load (whitelist e) (stored_whitelist env)) as [w | m |];
      simpl; try discriminate.
    destruct (ThresholdManager.load (thresholds e) (stored_thresholds env)) as [th | m |];
      simpl; try discriminate.
    intro H. injection H as H. subst e1. simpl. auto.
Qed.

Lemma decide_initialized_never_throws e env u :
  forall message, decide_initialized e env u <> Throw message.
Proof.
  intro message. unfold decide_initialized.
  destruct (Whitelist.isWhitelisted (whitelist e) u); [discriminate |].
  destruct (PredictionCache.get (cache e) (now_get env) u) as [hit cache'].
  destruct hit as [c |]; [discriminate |].
  destruct (analyze (with_cache e cache') env u) as [d | m |]; simpl; discriminate.
Qed.

Lemma decide_never_throws e env u : forall message, decide e env u <> Throw message.
Proof.
  intro message. unfold decide.
  pose proof (init_never_throws e env) as Hi.
  destruct (init e env) as [e1 | m |]; simpl.
  - apply decide_initialized_never_throws.
  - exfalso. apply (Hi m). reflexivity.
  - discriminate.
Qed.

(** [analyze] throws exactly in the listed ways; the cache plays no part. *)
Lemma analyze_throws e env u message :
  throws_in_steps_3_5 e u message -> analyze e env u = Throw message.
Proof.
  intro H. unfold analyze. destruct H as [m H | H | fs m H1 H2 | fs arr m H1 H2 H3].
  - rewrite H. reflexivity.
  - rewrite H. reflexivity.
  - rewrite H1. simpl. rewrite H2. reflexivity.
  - rewrite H1. simpl. rewrite H2. simpl. rewrite H3. reflexivity.
Qed.

Lemma analyze_throws_inv e env u message :
  analyze e env u = Throw message -> throws_in_steps_3_5 e u message.
Proof.
  unfold analyze.
  destruct (extractFeatures (featureExtractor e) u) as [[fs |] | m |] eqn:E1; simpl.
  - destruct (featuresToArray (featureExtractor e) fs) as [arr | m |] eqn:E2; simpl.
    + destruct (predictWithConfidence (predictor e) arr) as [pr | m |] eqn:E3; simpl.
      * discriminate.
      * intro H. injection H as H. subst m. eapply prediction_throws; eassumption.
      * discriminate.
    + intro H. injection H as H. subst m. eapply conversion_throws; eassumption.
    + discriminate.
  - intro H. injection H as H. subst message. apply extraction_fails. exact E1.
  - intro H. injection H as H. subst m. apply extraction_throws. exact E1.
  - discriminate.
Qed.

Lemma throws_in_steps_with_cache e c u message :
  throws_in_steps_3_5 e u message -> throws_in_steps_3_5 (with_cache e c) u message.
Proof.
  intro H. destruct H as [m H | H | fs m H1 H2 | fs arr m H1 H2 H3].
  - apply extraction_throws. exact H.
  - apply extraction_fails. exact H.
  - eapply conversion_throws; eassumption.
  - eapply prediction_throws; eassumption.
Qed.

Lemma failOpen_fields env u message :
  let d := failOpen env u message in
  Decision.action d = ALLOW /\ Decision.level d = UNKNOWN /\ Decision.reason d = "error"
  /\ Decision.error d = error_or_null (Some message)
  /\ Decision.probability d = None /\ Decision.cached d = false.
Proof. simpl. repeat split. Qed.

Lemma error_or_null_nonempty (message : string) :
  message <> "" -> error_or_null (Some message) = Some message.
Proof.
  intro H. unfold error_or_null. destruct (String.eqb message "") eqn:E; [| reflexivity].
  apply String.eqb_eq in E. contradiction.
Qed.

Lemma init_returns e env :
  stored_whitelist env <> Diverge -> stored_thresholds env <> Diverge ->
  exists e1, init e env = Ok e1.
Proof.
  intros Hw Ht. unfold init. destruct (initialized e); [eexists; reflexivity |].
  unfold Whitelist.load, ThresholdManager.load.
  destruct (stored_whitelist env) as [ow | m |]; simpl; [| | contradiction].
  - destruct (stored_thresholds env) as [[st |] | m' |]; simpl;
      try (eexists; reflexivity); contradiction.
  - destruct (stored_thresholds env) as [[st |] | m' |]; simpl;
      try (eexists; reflexivity); contradiction.
Qed.

Lemma analyze_returns_or_throws e env u :
  (forall x, extractFeatures (featureExtractor e) x <> Diverge) ->
  (forall fs, featuresToArray (featureExtractor e) fs <> Diverge) ->
  (forall arr, predictWithConfidence (predictor e) arr <> Diverge) ->
  analyze e env u <> Diverge.
Proof.
  intros He Ha Hp. unfold analyze.
  pose proof (He u) as He'.
  destruct (extractFeatures (featureExtractor e) u) as [[fs |] | m |]; simpl;
    try discriminate; [| contradiction].
  pose proof (Ha fs) as Ha'.
  destruct (featuresToArray (featureExtractor e) fs) as [arr | m |]; simpl;
    try discriminate; [| contradiction].
  pose proof (Hp arr) as Hp'.
  destruct (predictWithConfidence (predictor e) arr) as [pr | m |]; simpl;
    try discriminate. contradiction.
Qed.

Lemma decide_returns e env u :
  stored_whitelist env <> Diverge -> stored_thresholds env <> Diverge ->
  (forall x, extractFeatures (featureExtractor e) x <> Diverge) ->
  (forall fs, featuresToArray (featureExtractor e) fs <> Diverge) ->
  (forall arr, predictWithConfidence (predictor e) arr <> Diverge) ->
  exists d e2, decide e env u = Ok (d, e2).
Proof.
  intros Hw Ht He Ha Hp.
  destruct (init_returns e env Hw Ht) as [e1 Hinit].
  destruct (init_frame e env e1 Hinit) as [_ [Hfe Hpr]].
  unfold decide. rewrite Hinit. simpl. unfold decide_initialized.
  destruct (Whitelist.isWhitelisted (whitelist e1) u); [eexists; eexists; reflexivity |].
  destruct (PredictionCache.get (cache e1) (now_get env) u) as [hit cache'].
  destruct hit as [c |]; [eexists; eexists; reflexivity |].
  assert (Hnd : analyze (with_cache e1 cache') env u <> Diverge).
  { apply analyze_returns_or_throws; simpl; rewrite ?Hfe, ?Hpr; assumption. }
  destruct (analyze (with_cache e1 cache') env u) as [d | m |]; simpl.
  - eexists. eexists. reflexivity.
  - eexists. eexists. reflexivity.
  - contradiction.
Qed.

(** C1.  [decide(u)] never ends in a thrown error.  When step 1 does not
    apply (not whitelisted), step 2 misses, and an error with message [m] is
    thrown in steps 3 to 5, it returns the fail-open decision: action ALLOW
    (so not BLOCK), level UNKNOWN, reason ["error"], and [m] in the [error]
    field ([m || null]: a non-empty message is carried as it is).  When the
    store answers and the two collaborators return or throw, [decide]
    returns a decision. *)
Theorem decide_fails_open e env u :
  (forall message, decide e env u <> Throw message)
  /\ (stored_whitelist env <> Diverge -> stored_thresholds env <> Diverge ->
      (forall x, extractFeatures (featureExtractor e) x <> Diverge) ->
      (forall fs, featuresToArray (featureExtractor e) fs <> Diverge) ->
      (forall arr, predictWithConfidence (predictor e) arr <> Diverge) ->
      exists d e2, decide e env u = Ok (d, e2))
  /\ (forall e1 message,
         init e env = Ok e1 ->
         Whitelist.isWhitelisted (whitelist e1) u = false ->
         fst (PredictionCache.get (cache e1) (now_get env) u) = None ->
         throws_in_steps_3_5 e1 u message ->
         exists d e2,
           decide e env u = Ok (d, e2)
           /\ Decision.action d = ALLOW
           /\ Decision.action d <> BLOCK
           /\ Decision.level d = UNKNOWN
           /\ Decision.reason d = "error"
           /\ Decision.error d = error_or_null (Some message)
           /\ (message <> "" -> Decision.error d = Some message)).
Proof.
  split; [apply decide_never_throws |].
  split; [apply decide_returns |].
  intros e1 message Hinit Hwl Hmiss Hthrow.
  unfold decide. rewrite Hinit. simpl.
  unfold decide_initialized. rewrite Hwl.
  destruct (PredictionCache.get (cache e1) (now_get env) u) as [hit cache'] eqn:G.
  simpl in Hmiss. subst hit.
  rewrite (analyze_throws _ env u message (throws_in_steps_with_cache e1 cache' u message Hthrow)).
  simpl. eexists. eexists. split; [reflexivity |].
  destruct (failOpen_fields env u message) as [Ha [Hl [Hr [He _]]]].
  repeat split; try assumption.
  - rewrite Ha. discriminate.
  - intro Hne. rewrite He. apply error_or_null_nonempty. exact Hne.
Qed.

(** C10.  When the URL is whitelisted at step 1, [decide] returns the
    whitelist decision and the engine it leaves behind is the initialised
    engine itself: the cache (entries, order, hit and miss counters) is the
    one the call started with, so nothing was looked up and nothing stored. *)
Theorem whitelisted_bypasses_cache e env u e1 :
  init e env = Ok e1 ->
  Whitelist.isWhitelisted (whitelist e1) u = true ->
  exists d,
    decide e env u = Ok (d, e1)
    /\ cache e1 = cache e
    /\ Decision.action d = ALLOW
    /\ Decision.level d = SAFE
    /\ Decision.reason d = "whitelisted"
    /\ Decision.probability d = Some (JS.Fin 0)
    /\ Decision.confidence d = JS.Fin 1
    /\ Decision.cached d = false.
Proof.
  intros Hinit Hwl. unfold decide. rewrite Hinit. simpl.
  unfold decide_initialized. rewrite Hwl.
  eexists. split; [reflexivity |].
  split; [apply (init_frame e env e1 Hinit) |].
  simpl. repeat split.
Qed.

End EngineFacts.

(** The unloaded engine on a URL that is not whitelisted: the predictor
    throws ["Model not loaded"] and the decision is the fail-open one. *)
Lemma decide_fails_open_witness :
  exists d e2,
    DecisionEngine.decide unloaded_engine sample_env "https://login.example.org/verify" = Ok (d, e2)
    /\ Decision.action d = ALLOW
    /\ Decision.action d <> BLOCK
    /\ Decision.level d = UNKNOWN
    /\ Decision.reason d = "error"
    /\ Decision.error d = DecisionEngine.error_or_null (Some "Model not loaded")
    /\ ("Model not loaded" <> "" -> Decision.error d = Some "Model not loaded").
Proof.
  destruct (decide_fails_open unloaded_engine sample_env "https://login.example.org/verify")
    as [_ [_ H]].
  eapply H.
  - reflexivity.
  - reflexivity.
  - reflexivity.
  - eapply DecisionEngine.prediction_throws; reflexivity.
Defined.

(** The same engine on a URL under the stored whitelist entry. *)
Lemma whitelisted_bypasses_cache_witness :
  exists e1 d,
    DecisionEngine.init unloaded_engine sample_env = Ok e1
    /\ DecisionEngine.decide unloaded_engine sample_env "https://a.b.example.com/x" = Ok (d, e1)
    /\ DecisionEngine.cache e1 = DecisionEngine.cache unloaded_engine
    /\ Decision.action d = ALLOW
    /\ Decision.reason d = "whitelisted".
Proof.
  eexists.
  destruct (whitelisted_bypasses_cache unloaded_engine sample_env "https://a.b.example.com/x" _
              eq_refl eq_refl) as [d [Hd [Hc [Ha [_ [Hr _]]]]]].
  exists d. split; [reflexivity |]. repeat split; assumption.
Defined.

(** ** Predictor.predict: the input contract *)

Section PredictFacts.
Import ModelLoader Predictor.
Implicit Types (ml : ModelLoader.t) (features : list JS.jsnum).

(** What a normal return of [predict] went through. *)
Lemma predict_ok_inv fuel ml features p :
  predict fuel ml features = Ok p ->
  exists md m score,
    isLoaded ml = true /\ metadata ml = Some md /\ model ml = Some m
    /\ List.length features = List.length (feature_names md)
    /\ add_trees fuel (trees m) features (JS.Fin (base_score m)) = Ok score
    /\ p = JS.round4R (JS.sigmoid score).
Proof.
  unfold predict. destruct (isLoaded ml); simpl; [| discriminate].
  destruct (metadata ml) as [md |]; [| discriminate].
  destruct (List.length features =? List.length (feature_names md))%nat eqn:L; simpl;
    [| discriminate].
  destruct (model ml) as [m |]; [| discriminate].
  destruct (add_trees fuel (trees m) features (JS.Fin (base_score m))) as [score | msg |] eqn:A;
    simpl; try discriminate.
  intro H. injection H as H. exists md, m, score.
  apply Nat.eqb_eq in L. repeat split; auto.
Qed.

(** The older predictor throws on every length other than 14. *)
Lemma node_predict_rejects (fuel : nat) (ll : NodePredictor.Loader) features :
  List.length features <> 14%nat ->
  NodePredictor.predict fuel ll features
  = if NodePredictor.isLoaded ll
    then Throw ("Expected 14 features, got " ++ Str.of_nat (List.length features))
    else Throw "Model not loaded".
Proof.
  intro Hlen. unfold NodePredictor.predict.
  destruct (NodePredictor.isLoaded ll); simpl; [| reflexivity].
  destruct (List.length features =? 14)%nat eqn:L; [| reflexivity].
  apply Nat.eqb_eq in L. contradiction.
Qed.

(** C9.  With metadata loaded, [predict] throws whenever the length of the
    feature vector differs from the number of feature names, whatever the
    trees and before any of them is walked (for every fuel, zero included);
    on a loaded model the error is the ["Expected N features, got M"] one.
    A call that returns has walked the trees on the vector it was given, of
    exactly the declared length: nothing is padded or cut.  The older
    predictor, whose declared count is the constant 14, throws in the same
    way on every other length. *)
Theorem predict_rejects_wrong_length fuel ml features :
  (forall md,
      metadata ml = Some md ->
      List.length features <> List.length (feature_names md) ->
      (exists message, predict fuel ml features = Throw message)
      /\ (isLoaded ml = true ->
          predict fuel ml features
          = Throw (length_message (List.length (feature_names md)) (List.length features))))
  /\ (forall p,
         predict fuel ml features = Ok p ->
         exists md m score,
           metadata ml = Some md /\ model ml = Some m
           /\ List.length features = List.length (feature_names md)
           /\ add_trees fuel (trees m) features (JS.Fin (base_score m)) = Ok score
           /\ p = JS.round4R (JS.sigmoid score))
  /\ (forall ll : NodePredictor.Loader,
         List.length features <> 14%nat ->
         exists message, NodePredictor.predict fuel ll features = Throw message).
Proof.
  split; [| split].
  - intros md Hmd Hlen.
    assert (Hloaded : isLoaded ml = true ->
              predict fuel ml features
              = Throw (length_message (List.length (feature_names md)) (List.length features))).
    { intro Hl. unfold predict. rewrite Hl, Hmd. simpl.
      destruct (List.length features =? List.length (feature_names md))%nat eqn:L.
      - apply Nat.eqb_eq in L. contradiction.
      - reflexivity. }
    split; [| exact Hloaded].
    destruct (isLoaded ml) eqn:Hl.
    + eexists. apply Hloaded. reflexivity.
    + exists "Model not loaded". unfold predict. rewrite Hl. reflexivity.
  - intros p Hp. destruct (predict_ok_inv fuel ml features p Hp)
      as [md [m [score [_ [Hmd [Hm [Hlen [Hadd Hpeq]]]]]]]].
    exists md, m, score. auto.
  - intros ll Hlen. rewrite (node_predict_rejects fuel ll features Hlen).
    destruct (NodePredictor.isLoaded ll); eexists; reflexivity.
Qed.

End PredictFacts.

(** Two features instead of ten. *)
Lemma predict_rejects_wrong_length_witness :
  Predictor.predict 0 sample_loader [JS.Fin 1; JS.Fin 2] = Throw "Expected 10 features, got 2".
Proof.
  destruct (predict_rejects_wrong_length 0 sample_loader [JS.Fin 1; JS.Fin 2]) as [H _].
  destruct (H _ eq_refl) as [_ Hmsg].
  - simpl. discriminate.
  - apply Hmsg. reflexivity.
Defined.

(** ** Predictor.predictWithConfidence *)

Section ConfidenceFacts.
Import ModelLoader Predictor.










End ConfidenceFacts.

(** ** The tree walk *)

Section WalkFacts.
Import ModelLoader Predictor TreeSpec.
Variable tree : Tree.
Variable features : list JS.jsnum.

Lemma out_of_bounds_in_tree (z : Z) :
  out_of_bounds (Some z) (List.length (left_children tree)) = false <-> in_tree tree z.
Proof.
  unfold out_of_bounds, in_tree, node_count. rewrite orb_false_iff.
  rewrite Z.ltb_ge, Z.geb_leb, Z.leb_gt. tauto.
Qed.

Lemma out_of_bounds_outside (z : Z) :
  ~ in_tree tree z -> out_of_bounds (Some z) (List.length (left_children tree)) = true.
Proof.
  intro H. destruct (out_of_bounds (Some z) (List.length (left_children tree))) eqn:E;
    [reflexivity |].
  apply out_of_bounds_in_tree in E. contradiction.
Qed.

Lemma sentinel_pair (l r : Z) :
  ~ (l = -1 /\ r = -1) -> is_sentinel (Some l) && is_sentinel (Some r) = false.
Proof.
  intro H. simpl. destruct (l =? -1) eqn:El; [| reflexivity].
  destruct (r =? -1) eqn:Er; [| reflexivity].
  apply Z.eqb_eq in El, Er. tauto.
Qed.

Lemma loop_body_leaf (i : Z) (w : Q) :
  leaf tree i -> read (base_weights tree) (Some i) = Some w ->
  loop_body tree features (Some i) = Return (JS.Fin w).
Proof.
  intros [Hl Hr] Hw. unfold loop_body. rewrite Hl, Hr, Hw. reflexivity.
Qed.

Lemma loop_body_split (i l r s : Z) (c : Q) :
  split tree i l r s c ->
  loop_body tree features (Some i)
  = let next := if JS.lt (feature features s) (JS.Fin c) then Some l else Some r in
    if out_of_bounds next (List.length (left_children tree))
    then Return (JS.Fin 0) else Continue next.
Proof.
  intros [Hl [Hr [Hns [Hs Hc]]]]. unfold loop_body.
  rewrite Hl, Hr, Hs, Hc, (sentinel_pair l r Hns). reflexivity.
Qed.

(** One iteration of the loop: the fuel is not exhausted, and the iteration
    is the one the lemma [E] computes. *)
Ltac one_iteration E :=
  let fuel := fresh "fuel" in
  let Hf := fresh "Hf" in
  intros fuel Hf; destruct fuel as [| fuel]; [lia |];
  simpl; rewrite E; cbv zeta.

(** The loop computes the walk: with enough fuel it returns the walk's value. *)
Lemma walk_terminates (i : Z) (w : Q) :
  walk tree features i w ->
  exists n, forall fuel, (n <= fuel)%nat ->
    predictTree_from fuel tree features (Some i) = Ok (JS.Fin w).
Proof.
  induction 1 as [i w Hleaf Hw
                 | i l r s c w Hsp Hlt Hin Hwalk [n IH]
                 | i l r s c w Hsp Hlt Hin Hwalk [n IH]
                 | i l r s c Hsp Hlt Hout
                 | i l r s c Hsp Hlt Hout].
  - exists 1%nat. one_iteration (loop_body_leaf i w Hleaf Hw). reflexivity.
  - exists (S n). one_iteration (loop_body_split i l r s c Hsp). rewrite Hlt.
    rewrite (proj2 (out_of_bounds_in_tree l) Hin). apply IH. lia.
  - exists (S n). one_iteration (loop_body_split i l r s c Hsp). rewrite Hlt.
    rewrite (proj2 (out_of_bounds_in_tree r) Hin). apply IH. lia.
  - exists 1%nat. one_iteration (loop_body_split i l r s c Hsp). rewrite Hlt.
    rewrite (out_of_bounds_outside l Hout). reflexivity.
  - exists 1%nat. one_iteration (loop_body_split i l r s c Hsp). rewrite Hlt.
    rewrite (out_of_bounds_outside r Hout). reflexivity.
Qed.

(** In a tree with parallel arrays every node in range has all five entries. *)
Lemma read_in_range {A : Type} (arr : list A) (i : Z) :
  0 <= i < Z.of_nat (List.length arr) -> exists a, read arr (Some i) = Some a.
Proof.
  intros [H0 H1]. unfold read. destruct (i <? 0) eqn:E; [apply Z.ltb_lt in E; lia |].
  destruct (nth_error arr (Z.to_nat i)) as [a |] eqn:N; [exists a; reflexivity |].
  apply nth_error_None in N. lia.
Qed.

(** Under a rooted node every feature vector has a walk. *)
Lemma rooted_walk (i : Z) :
  parallel tree -> rooted tree i -> exists w, walk tree features i w.
Proof.
  intros [Pr [Ps [Pc Pw]]]. induction 1 as [i Hin Hleaf | i l r Hin Hl Hr Hns Hinl Hinr _ [wl IHl] _ [wr IHr]].
  - destruct (read_in_range (base_weights tree) i) as [w Hw].
    { rewrite Pw. exact Hin. }
    exists w. apply walk_leaf; assumption.
  - destruct (read_in_range (split_indices tree) i) as [s Hs].
    { rewrite Ps. exact Hin. }
    destruct (read_in_range (split_conditions tree) i) as [c Hc].
    { rewrite Pc. exact Hin. }
    assert (Hsp : split tree i l r s c) by (unfold split; auto).
    destruct (JS.lt (feature features s) (JS.Fin c)) eqn:Hlt.
    + exists wl. eapply walk_left; eassumption.
    + exists wr. eapply walk_right; eassumption.
Qed.

(** Under a rooted node the loop only ever reads at indices of the tree. *)
Lemma rooted_visited (i : Z) :
  parallel tree -> rooted tree i ->
  forall fuel,
    Forall (fun idx => exists z, idx = Some z /\ in_tree tree z)
           (visited tree features fuel (Some i)).
Proof.
  intros [Pr [Ps [Pc Pw]]]. induction 1 as [i Hin Hleaf | i l r Hin Hl Hr Hns Hinl Hinr _ IHl _ IHr];
    intros [| fuel]; simpl; try constructor; eauto.
  - destruct (read_in_range (base_weights tree) i) as [w Hw].
    { rewrite Pw. exact Hin. }
    rewrite (loop_body_leaf i w Hleaf Hw). constructor.
  - destruct (read_in_range (split_indices tree) i) as [s Hs].
    { rewrite Ps. exact Hin. }
    destruct (read_in_range (split_conditions tree) i) as [c Hc].
    { rewrite Pc. exact Hin. }
    assert (Hsp : split tree i l r s c) by (unfold split; auto).
    rewrite (loop_body_split i l r s c Hsp). cbv zeta.
    destruct (JS.lt (feature features s) (JS.Fin c)).
    + rewrite (proj2 (out_of_bounds_in_tree l) Hinl). apply IHl.
    + rewrite (proj2 (out_of_bounds_in_tree r) Hinr). apply IHr.
Qed.

(** A NaN (or missing) feature value sends the walk to the right child. *)
Lemma nan_goes_right (i l r s : Z) (c : Q) :
  split tree i l r s c -> feature features s = JS.NaN -> in_tree tree r ->
  loop_body tree features (Some i) = Continue (Some r).
Proof.
  intros Hsp Hnan Hin. rewrite (loop_body_split i l r s c Hsp). cbv zeta.
  rewrite Hnan, lt_NaN_l. rewrite (proj2 (out_of_bounds_in_tree r) Hin). reflexivity.
Qed.


End WalkFacts.

(** ** Predictor.predict: value, range and termination *)

Section PredictValue.
Import ModelLoader Predictor TreeSpec.

Lemma add_trees_walks (features : list JS.jsnum) (ts : list Tree) (ws : list Q) :
  Forall2 (fun t w => walk t features 0 w) ts ws ->
  exists n, forall fuel, (n <= fuel)%nat ->
    forall s, add_trees fuel ts features (JS.Fin s) = Ok (JS.Fin (fold_left Qplus ws s)).
Proof.
  induction 1 as [| t w ts ws Hw _ [n IH]].
  - exists 0%nat. intros fuel _ s. reflexivity.
  - destruct (walk_terminates t features 0 w Hw) as [n1 H1].
    exists (Nat.max n1 n). intros fuel Hf s. simpl.
    unfold predictTree. rewrite H1 by lia. simpl. apply IH. lia.
Qed.

Lemma logistic_range (x : R) : (0 < logistic x < 1)%R.
Proof.
  unfold logistic. pose proof (exp_pos (- x)) as He.
  assert (H1 : (0 < 1 + exp (- x))%R) by lra.
  split.
  - apply Rdiv_lt_0_compat; lra.
  - apply (Rmult_lt_reg_r (1 + exp (- x))); [exact H1 |].
    unfold Rdiv. rewrite Rmult_assoc, Rinv_l by lra. lra.
Qed.

(** Rounding a real in (0, 1) to four decimals stays within [0, 1]. *)
Lemma round4R_range (r : R) :
  (0 < r < 1)%R ->
  0 <= Zfloor (r * 10000 + / 2) <= 10000.
Proof.
  intros [H0 H1]. split.
  - apply Zfloor_lub. simpl. lra.
  - pose proof (Zfloor_bound (r * 10000 + / 2)) as [Hb _].
    assert (Hlt : (IZR (Zfloor (r * 10000 + / 2)) < IZR 10001)%R) by lra.
    apply lt_IZR in Hlt. lia.
Qed.

Lemma grid_unit_interval (k : Z) : 0 <= k <= 10000 -> (0 <= k # 10000 <= 1)%Q.
Proof. intros [H0 H1]. unfold Qle. simpl. lia. Qed.

Lemma predict_of_walks fuel ml md m features score :
  isLoaded ml = true -> metadata ml = Some md -> model ml = Some m ->
  List.length features = List.length (feature_names md) ->
  add_trees fuel (trees m) features (JS.Fin (base_score m)) = Ok (JS.Fin score) ->
  predict fuel ml features
  = Ok (JS.Fin (Zfloor (logistic (Q2R score) * 10000 + / 2) # 10000)).
Proof.
  intros Hl Hmd Hm Hlen Hadd. unfold predict.
  rewrite Hl, Hmd, Hm. simpl. rewrite Hlen, Nat.eqb_refl. simpl.
  rewrite Hadd. reflexivity.
Qed.

(** With enough fuel [predict] returns the rounded sigmoid of the summed
    walks. *)
Lemma predict_of_all_walks ml md m (features : list JS.jsnum) (ws : list Q) :
  isLoaded ml = true -> metadata ml = Some md -> model ml = Some m ->
  List.length features = List.length (feature_names md) ->
  Forall2 (fun t w => walk t features 0 w) (trees m) ws ->
  exists n, forall fuel, (n <= fuel)%nat ->
    exists k : Z,
      predict fuel ml features = Ok (JS.Fin (k # 10000))
      /\ k = Zfloor (logistic (Q2R (fold_left Qplus ws (base_score m))) * 10000 + / 2)
      /\ (0 <= k # 10000 <= 1)%Q.
Proof.
  intros Hl Hmd Hm Hlen Hws.
  destruct (add_trees_walks features (trees m) ws Hws) as [n Hn].
  exists n. intros fuel Hf. eexists. split; [| split; [reflexivity |]].
  - apply (predict_of_walks fuel ml md m features _ Hl Hmd Hm Hlen). apply Hn. exact Hf.
  - apply grid_unit_interval. apply round4R_range. apply logistic_range.
Qed.


(** C6 (amended).  On a loaded model all of whose trees are well formed
    (parallel arrays, and under the root a finite tree whose internal nodes
    have children in range) and a feature vector of the declared length,
    whatever its values (NaN and the infinities included): [predict]
    returns, given enough fuel, a finite number in [0, 1]; every index the
    walk reads at is an index of the tree; and a NaN feature value sends the
    walk to the right child. *)
Theorem predict_terminates_on_well_formed ml md m (features : list JS.jsnum) :
  isLoaded ml = true -> metadata ml = Some md -> model ml = Some m ->
  List.length features = List.length (feature_names md) ->
  Forall well_formed (trees m) ->
  (exists n, forall fuel, (n <= fuel)%nat ->
      exists q : Q, predict fuel ml features = Ok (JS.Fin q) /\ (0 <= q <= 1)%Q)
  /\ (forall tree fuel,
         In tree (trees m) ->
         Forall (fun idx => exists z, idx = Some z /\ in_tree tree z)
                (visited tree features fuel (Some 0)))
  /\ (forall tree i l r s c,
         In tree (trees m) ->
         split tree i l r s c -> feature features s = JS.NaN -> in_tree tree r ->
         loop_body tree features (Some i) = Continue (Some r)).
Proof.
  intros Hl Hmd Hm Hlen Hwf. split; [| split].
  - assert (Hws : exists ws, Forall2 (fun t w => walk t features 0 w) (trees m) ws).
    { clear Hm. induction Hwf as [| t ts [Hp Hr] _ [ws IH]].
      - exists []. constructor.
      - destruct (rooted_walk t features 0 Hp Hr) as [w Hw].
        exists (w :: ws). constructor; assumption. }
    destruct Hws as [ws Hws].
    destruct (predict_of_all_walks ml md m features ws Hl Hmd Hm Hlen Hws) as [n Hn].
    exists n. intros fuel Hf. destruct (Hn fuel Hf) as [k [Hp [_ Hr]]].
    exists (k # 10000). split; assumption.
  - intros tree fuel Hin. rewrite Forall_forall in Hwf.
    destruct (Hwf tree Hin) as [Hp Hr]. apply rooted_visited; assumption.
  - intros tree i l r s c _ Hsp Hnan Hin. eapply nan_goes_right; eassumption.
Qed.

End PredictValue.

(** ** The statements on the sample model *)

Section Samples.
Import ModelLoader Predictor TreeSpec.


Lemma sample_tree_well_formed : well_formed sample_tree.
Proof.
  split; [repeat split |].
  apply rooted_split with (l := 1) (r := 2); try reflexivity.
  - unfold in_tree, node_count. simpl. lia.
  - intros [H _]. discriminate.
  - unfold in_tree, node_count. simpl. lia.
  - unfold in_tree, node_count. simpl. lia.
  - apply rooted_leaf; [unfold in_tree, node_count; simpl; lia | split; reflexivity].
  - apply rooted_leaf; [unfold in_tree, node_count; simpl; lia | split; reflexivity].
Qed.

End Samples.


(** The sample model on a vector of NaN and infinite values. *)
Lemma predict_terminates_on_well_formed_witness :
  exists n, forall fuel, (n <= fuel)%nat ->
    exists q : Q,
      Predictor.predict fuel sample_loader odd_features = Ok (JS.Fin q) /\ (0 <= q <= 1)%Q.
Proof.
  exact (proj1 (predict_terminates_on_well_formed sample_loader sample_metadata
                  (model_of [sample_tree] (1 # 2)) odd_features eq_refl eq_refl eq_refl eq_refl
                  (Forall_cons _ sample_tree_well_formed (Forall_nil _)))).
Defined.

(** ** Where the statements of the specification fail *)





(** C6 (as stated, refuted).  The one-node tree whose children are the node
    itself has every child index in range, and its walk never ends: for
    every fuel [predict] is still running. *)
Lemma cyclic_tree_counterexample :
  TreeSpec.children_valid cyclic_tree
  /\ List.length ten_zeros = List.length (ModelLoader.feature_names sample_metadata)
  /\ forall fuel, Predictor.predict fuel cyclic_loader ten_zeros = Diverge.
Proof.
  split; [| split; [reflexivity |]].
  - split; [unfold TreeSpec.node_count; simpl; lia |].
    split; [repeat split |].
    intros i l r Hl Hr _. unfold Predictor.read in Hl, Hr. simpl in Hl, Hr.
    destruct (i <? 0); [discriminate |].
    destruct (Z.to_nat i) as [| n]; simpl in Hl, Hr.
    + injection Hl as Hl. injection Hr as Hr. subst l r.
      unfold TreeSpec.in_tree, TreeSpec.node_count. simpl. lia.
    + destruct n; discriminate.
  - intro fuel.
    assert (Hloop : Predictor.predictTree_from fuel cyclic_tree ten_zeros (Some 0) = Diverge).
    { induction fuel as [| fuel IH]; [reflexivity |]. simpl. exact IH. }
    unfold Predictor.predict, cyclic_loader. simpl.
    unfold Predictor.predictTree. rewrite Hloop. reflexivity.
Qed.


(* ================================================================== *)
(** * Further properties of the embedded code *)

(** ** PredictionCache: cleanup, capacity, overwriting *)

Section MapShape.
Context {V : Type}.
Implicit Types (m : JSMap.t V) (k : string) (v : V).

Lemma map_delete_filter m k :
  JSMap.delete m k = filter (fun kv => negb (String.eqb (fst kv) k)) m.
Proof.
  induction m as [| [k0 v0] rest IH]; simpl; [reflexivity |].
  destruct (String.eqb k0 k); simpl; rewrite IH; reflexivity.
Qed.

Lemma filter_twice {A : Type} (f g : A -> bool) (l : list A) :
  filter f (filter g l) = filter (fun x => g x && f x) l.
Proof.
  induction l as [| a l IH]; simpl; [reflexivity |].
  destruct (g a); simpl; [destruct (f a) |]; rewrite IH; reflexivity.
Qed.

Lemma map_fold_delete_filter (ks : list string) m :
  fold_left JSMap.delete ks m
  = filter (fun kv => negb (existsb (String.eqb (fst kv)) ks)) m.
Proof.
  revert m. induction ks as [| k ks IH]; intro m; simpl.
  - symmetry. apply forallb_filter_id. apply forallb_forall. reflexivity.
  - rewrite IH, map_delete_filter, filter_twice. apply filter_ext.
    intros [k0 v0]. simpl. rewrite negb_orb. reflexivity.
Qed.

Lemma map_nodup_functional m k v v' :
  NoDup (JSMap.keys m) -> In (k, v) m -> In (k, v') m -> v = v'.
Proof.
  induction m as [| [k0 v0] rest IH]; simpl; [tauto |].
  intros Hnd H1 H2. inversion Hnd as [| x l Hnotin Hnd']; subst.
  assert (Hkey : forall w, In (k0, w) rest -> False).
  { intros w Hw. apply Hnotin. unfold JSMap.keys. apply in_map_iff.
    exists (k0, w). split; [reflexivity | exact Hw]. }
  destruct H1 as [E1 | H1]; destruct H2 as [E2 | H2].
  - congruence.
  - injection E1 as -> ->. exfalso. apply (Hkey v'). exact H2.
  - injection E2 as -> ->. exfalso. apply (Hkey v). exact H1.
  - apply IH; assumption.
Qed.

Lemma map_length_delete_le m k : (List.length (JSMap.delete m k) <= List.length m)%nat.
Proof.
  induction m as [| [k0 v0] rest IH]; simpl; [lia |].
  destruct (String.eqb k0 k); simpl; lia.
Qed.

Lemma map_length_set_le m k v : (List.length (JSMap.set m k v) <= S (List.length m))%nat.
Proof.
  induction m as [| [k0 v0] rest IH]; simpl; [lia |].
  destruct (String.eqb k0 k); simpl; lia.
Qed.

Lemma map_keys_set_present m k v :
  In k (JSMap.keys m) -> JSMap.keys (JSMap.set m k v) = JSMap.keys m.
Proof.
  induction m as [| [k0 v0] rest IH]; simpl; [tauto |].
  intro H. destruct (String.eqb k0 k) eqn:E; simpl; [reflexivity |].
  apply String.eqb_neq in E. f_equal. apply IH. destruct H; [contradiction | assumption].
Qed.

End MapShape.

Section CacheMore.
Context {V : Type}.
Implicit Types (c : PredictionCache.t V) (u : string) (d : V).

(** X1.  [cleanup] removes exactly the expired entries: what stays is the map
    without them, in the same order; the number returned is the number
    removed; the counters are not touched. *)
Theorem cleanup_removes_expired c (now : Z) :
  PredictionCache.distinct_keys c ->
  let expired := fun kv : string * PredictionCache.Entry V =>
                   now - PredictionCache.timestamp (snd kv) >? PredictionCache.ttl c in
  PredictionCache.cache (snd (PredictionCache.cleanup c now))
  = filter (fun kv => negb (expired kv)) (PredictionCache.cache c)
  /\ fst (PredictionCache.cleanup c now) = List.length (filter expired (PredictionCache.cache c))
  /\ (fst (PredictionCache.cleanup c now)
      + JSMap.size (PredictionCache.cache (snd (PredictionCache.cleanup c now)))
      = JSMap.size (PredictionCache.cache c))%nat
  /\ PredictionCache.hits (snd (PredictionCache.cleanup c now)) = PredictionCache.hits c
  /\ PredictionCache.misses (snd (PredictionCache.cleanup c now)) = PredictionCache.misses c.
Proof.
  intros Hnd expired. unfold PredictionCache.cleanup. simpl.
  fold expired.
  assert (Hmap : fold_left JSMap.delete (map fst (filter expired (PredictionCache.cache c)))
                   (PredictionCache.cache c)
                 = filter (fun kv => negb (expired kv)) (PredictionCache.cache c)).
  { rewrite map_fold_delete_filter. apply filter_ext_in. intros [k e] Hin. f_equal.
    destruct (expired (k, e)) eqn:Ex.
    - apply existsb_exists. exists k. split; [| apply String.eqb_refl].
      apply in_map_iff. exists (k, e). split; [reflexivity |].
      apply filter_In. split; assumption.
    - destruct (existsb (String.eqb (fst (k, e)))
                  (map fst (filter expired (PredictionCache.cache c)))) eqn:Ee; [| reflexivity].
      apply existsb_exists in Ee. destruct Ee as [k' [Hin' Heq]].
      simpl in Heq. apply String.eqb_eq in Heq. subst k'.
      apply in_map_iff in Hin'. destruct Hin' as [[k' e'] [Hk He']]. simpl in Hk. subst k'.
      apply filter_In in He'. destruct He' as [Hin' Hexp'].
      rewrite (map_nodup_functional _ k e e' Hnd Hin Hin') in Ex. congruence. }
  rewrite Hmap. rewrite length_map.
  split; [reflexivity |]. split; [reflexivity |]. split; [| split; reflexivity].
  unfold JSMap.size. clear Hmap Hnd.
  induction (PredictionCache.cache c) as [| kv rest IH]; simpl; [reflexivity |].
  destruct (expired kv); simpl; lia.
Qed.

(** X2.  The capacity is an invariant: from a cache within a capacity of at
    least one, [get] and [set] lead to a cache within capacity; [get] never
    adds an entry. *)
Theorem cache_stays_within_capacity c (now : Z) u d :
  1 <= PredictionCache.maxSize c ->
  Z.of_nat (JSMap.size (PredictionCache.cache c)) <= PredictionCache.maxSize c ->
  Z.of_nat (JSMap.size (PredictionCache.cache (PredictionCache.set c now u d)))
    <= PredictionCache.maxSize (PredictionCache.set c now u d)
  /\ Z.of_nat (JSMap.size (PredictionCache.cache (snd (PredictionCache.get c now u))))
     <= PredictionCache.maxSize (snd (PredictionCache.get c now u))
  /\ (JSMap.size (PredictionCache.cache (snd (PredictionCache.get c now u)))
      <= JSMap.size (PredictionCache.cache c))%nat.
Proof.
  intros Hmax Hsize. unfold JSMap.size in *.
  assert (Hget : (List.length (PredictionCache.cache (snd (PredictionCache.get c now u)))
                  <= List.length (PredictionCache.cache c))%nat).
  { unfold PredictionCache.get.
    destruct (JSMap.get (PredictionCache.cache c) (PredictionCache.normalizeURL u)) as [e |] eqn:G;
      simpl; [| lia].
    destruct (now - PredictionCache.timestamp e >? PredictionCache.ttl c); simpl.
    - apply map_length_delete_le.
    - assert (Hin : In (PredictionCache.normalizeURL u) (JSMap.keys (PredictionCache.cache c))).
      { apply (proj1 (map_has_in _ _)). unfold JSMap.has. rewrite G. reflexivity. }
      rewrite map_set_absent by (rewrite map_keys_delete; tauto).
      rewrite length_app. simpl.
      clear - Hin. induction (PredictionCache.cache c) as [| [k0 v0] rest IH]; simpl in *; [tauto |].
      destruct (String.eqb k0 (PredictionCache.normalizeURL u)) eqn:E.
      + pose proof (map_length_delete_le rest (PredictionCache.normalizeURL u)). lia.
      + apply String.eqb_neq in E. simpl.
        assert (In (PredictionCache.normalizeURL u) (JSMap.keys rest))
          by (destruct Hin; [contradiction | assumption]).
        specialize (IH H). lia. }
  split; [| split; [| exact Hget]].
  - unfold PredictionCache.set. simpl. unfold JSMap.size.
    pose proof (map_length_set_le
                  (if Z.of_nat (List.length (PredictionCache.cache c)) >=? PredictionCache.maxSize c
                   then JSMap.delete_opt (PredictionCache.cache c)
                          (JSMap.first_key (PredictionCache.cache c))
                   else PredictionCache.cache c)
                  (PredictionCache.normalizeURL u)
                  {| PredictionCache.prediction := d; PredictionCache.timestamp := now |}) as Hset.
    unfold JSMap.size in Hset.
    destruct (Z.of_nat (List.length (PredictionCache.cache c)) >=? PredictionCache.maxSize c) eqn:E.
    + destruct (PredictionCache.cache c) as [| [k0 e0] rest] eqn:C.
      * simpl in Hsize, E. rewrite Z.geb_leb in E. apply Z.leb_le in E. lia.
      * cbn [JSMap.first_key JSMap.delete_opt JSMap.delete] in Hset |- *.
        rewrite String.eqb_refl in Hset |- *.
        pose proof (map_length_delete_le rest k0). simpl in Hsize. lia.
    + rewrite Z.geb_leb in E. apply Z.leb_gt in E. lia.
  - assert (Hm : PredictionCache.maxSize (snd (PredictionCache.get c now u))
                 = PredictionCache.maxSize c).
    { unfold PredictionCache.get.
      destruct (JSMap.get (PredictionCache.cache c) (PredictionCache.normalizeURL u)) as [e |];
        [destruct (now - PredictionCache.timestamp e >? PredictionCache.ttl c) |]; reflexivity. }
    rewrite Hm. lia.
Qed.

(** X3.  Overwriting.  Below capacity, [set] on a URL already cached replaces
    the value where it stands: the order of the keys, and with it the
    eviction order, is unchanged.  At capacity, [set] on a URL already
    cached that is not the head still evicts the head, so the cache loses
    an entry. *)
Theorem set_on_cached_url c (now : Z) u d :
  PredictionCache.distinct_keys c ->
  In (PredictionCache.normalizeURL u) (JSMap.keys (PredictionCache.cache c)) ->
  (Z.of_nat (JSMap.size (PredictionCache.cache c)) < PredictionCache.maxSize c ->
   JSMap.keys (PredictionCache.cache (PredictionCache.set c now u d))
   = JSMap.keys (PredictionCache.cache c))
  /\ (forall k0 e0 rest,
         PredictionCache.cache c = (k0, e0) :: rest ->
         PredictionCache.maxSize c <= Z.of_nat (JSMap.size (PredictionCache.cache c)) ->
         k0 <> PredictionCache.normalizeURL u ->
         JSMap.keys (PredictionCache.cache (PredictionCache.set c now u d)) = JSMap.keys rest)
  /\ JSMap.get (PredictionCache.cache (PredictionCache.set c now u d))
               (PredictionCache.normalizeURL u)
     = Some {| PredictionCache.prediction := d; PredictionCache.timestamp := now |}.
Proof.
  intros Hnd Hin. split; [| split].
  - intro Hlt. unfold PredictionCache.set. simpl.
    destruct (Z.of_nat (JSMap.size (PredictionCache.cache c)) >=? PredictionCache.maxSize c) eqn:E.
    + rewrite Z.geb_leb in E. apply Z.leb_le in E. lia.
    + apply map_keys_set_present. exact Hin.
  - intros k0 e0 rest Hc Hfull Hne. unfold PredictionCache.set. simpl.
    destruct (Z.of_nat (JSMap.size (PredictionCache.cache c)) >=? PredictionCache.maxSize c) eqn:E.
    + unfold PredictionCache.distinct_keys in Hnd. rewrite Hc in *.
      cbn [JSMap.first_key JSMap.delete_opt].
      rewrite map_delete_head by exact Hnd.
      apply map_keys_set_present. simpl in Hin. destruct Hin; [contradiction | assumption].
    + rewrite Z.geb_leb in E. apply Z.leb_gt in E. lia.
  - apply get_after_set.
Qed.

End CacheMore.

(** ** Strings: [split] and [join] *)

Section SplitJoin.
Variable sep : ascii.
Let sepstr : string := String sep EmptyString.

(** The string has no occurrence of the separator. *)
Let free (p : string) : Prop :=
  Str.forallb (fun x => negb (Ascii.eqb x sep)) p = true.

Lemma split_not_nil (s : string) : Str.split sep s <> [].
Proof.
  destruct s as [| a r]; simpl; [discriminate |].
  destruct (Ascii.eqb a sep); [discriminate |].
  destruct (Str.split sep r); discriminate.
Qed.

Lemma join_cons_char (a : ascii) (h : string) (t : list string) :
  Str.join sepstr (String a h :: t) = String a (Str.join sepstr (h :: t)).
Proof. destruct t; reflexivity. Qed.

(** [s.split(sep).join(sep)] is [s]. *)
Lemma join_split (s : string) : Str.join sepstr (Str.split sep s) = s.
Proof.
  induction s as [| a r IH]; simpl; [reflexivity |].
  destruct (Ascii.eqb a sep) eqn:E.
  - apply Ascii.eqb_eq in E. subst a.
    pose proof (split_not_nil r) as Hne.
    destruct (Str.split sep r) as [| h t]; [contradiction |].
    change (Str.join sepstr (EmptyString :: h :: t))
      with (String sep (Str.join sepstr (h :: t))).
    rewrite IH. reflexivity.
  - pose proof (split_not_nil r) as Hne.
    destruct (Str.split sep r) as [| h t]; [contradiction |].
    rewrite join_cons_char, IH. reflexivity.
Qed.

Lemma split_parts_free (s : string) : Forall free (Str.split sep s).
Proof.
  induction s as [| a r IH]; simpl.
  - constructor; [reflexivity | constructor].
  - destruct (Ascii.eqb a sep) eqn:E.
    + constructor; [reflexivity | exact IH].
    + pose proof (split_not_nil r) as Hne.
      destruct (Str.split sep r) as [| h t]; [contradiction |].
      inversion IH as [| x l Hh Ht]; subst.
      constructor; [| exact Ht].
      unfold free. simpl. rewrite E. exact Hh.
Qed.

Lemma split_free_app (p rest : string) :
  free p -> Str.split sep (p ++ String sep rest) = p :: Str.split sep rest.
Proof.
  unfold free. induction p as [| a r IH]; simpl; intro H.
  - rewrite Ascii.eqb_refl. reflexivity.
  - apply andb_true_iff in H. destruct H as [Ha Hr].
    apply negb_true_iff in Ha. rewrite Ha, (IH Hr). reflexivity.
Qed.

Lemma split_free (p : string) : free p -> Str.split sep p = [p].
Proof.
  unfold free. induction p as [| a r IH]; simpl; intro H; [reflexivity |].
  apply andb_true_iff in H. destruct H as [Ha Hr].
  apply negb_true_iff in Ha. rewrite Ha, (IH Hr). reflexivity.
Qed.

(** Joining separator-free parts and splitting again gives the parts. *)
Lemma split_join (ps : list string) :
  Forall free ps -> ps <> [] -> Str.split sep (Str.join sepstr ps) = ps.
Proof.
  induction ps as [| p rest IH]; intros Hf Hne; [contradiction |].
  inversion Hf as [| x l Hp Hrest]; subst.
  destruct rest as [| q rest'].
  - simpl. apply split_free. exact Hp.
  - change (Str.join sepstr (p :: q :: rest'))
      with (p ++ String sep (Str.join sepstr (q :: rest'))).
    rewrite (split_free_app p _ Hp). f_equal. apply IH; [exact Hrest | discriminate].
Qed.

End SplitJoin.

(** ** Whitelist: what is tested, adding and removing, loading *)

Section WhitelistMore.
Import Whitelist.

Lemma skipn_last_two {A : Type} (l : list A) :
  (2 <= List.length l)%nat ->
  exists a b, Str.slice_last 2 l = [a; b].
Proof.
  unfold Str.slice_last. intro H.
  assert (Hlen : List.length (skipn (List.length l - 2) l) = 2%nat)
    by (rewrite length_skipn; lia).
  destruct (skipn (List.length l - 2) l) as [| a [| b [| c t]]]; simpl in Hlen; try lia.
  exists a, b. reflexivity.
Qed.

Lemma Forall_skipn {A : Type} (P : A -> Prop) (n : nat) (l : list A) :
  Forall P l -> Forall P (skipn n l).
Proof.
  revert l. induction n as [| n IH]; intros l H; simpl; [exact H |].
  destruct l; [constructor |]. inversion H; subst. apply IH. assumption.
Qed.

(** [extractDomain] returns a name of at most two labels. *)
Lemma extractDomain_labels (u domain : string) :
  extractDomain u = Some domain ->
  (exists a b, Str.split "." domain = [a; b]) \/ Str.split "." domain = [domain].
Proof.
  unfold extractDomain.
  destruct (Platform.URL_new _) as [urlObj |]; [| discriminate].
  pose proof (split_parts_free "." (Platform.hostname urlObj)) as Hfree.
  pose proof (split_not_nil "." (Platform.hostname urlObj)) as Hne.
  pose proof (join_split "." (Platform.hostname urlObj)) as Hjoin.
  destruct (2 <=? List.length (Str.split "." (Platform.hostname urlObj)))%nat eqn:L.
  - apply Nat.leb_le in L. intro H. injection H as H. subst domain. left.
    destruct (skipn_last_two _ L) as [a [b Hab]]. exists a, b.
    rewrite Hab. apply split_join; [| discriminate].
    rewrite <- Hab. apply Forall_skipn. exact Hfree.
  - apply Nat.leb_gt in L. intro H. injection H as H. subst domain. right.
    destruct (Str.split "." (Platform.hostname urlObj)) as [| p [| q t]] eqn:S;
      [contradiction | | simpl in L; lia].
    simpl in Hjoin. subst p. reflexivity.
Qed.

(** X4.  [isWhitelisted(url)] tests two names and no other: the extracted
    domain and, when that domain has two labels, its last label.  It is
    false on a URL with no extractable domain. *)
Theorem isWhitelisted_tests_two_names (w : Whitelist.t) (u : string) :
  isWhitelisted w u = true
  <-> exists domain,
        extractDomain u = Some domain /\ domain <> ""
        /\ (set_has (domains w) domain = true
            \/ exists label tld,
                 Str.split "." domain = [label; tld] /\ set_has (domains w) tld = true).
Proof.
  unfold isWhitelisted.
  destruct (extractDomain u) as [domain |] eqn:E.
  - destruct (String.eqb domain "") eqn:Ee.
    + apply String.eqb_eq in Ee. split; [discriminate |].
      intros [d [Hd [Hne _]]]. injection Hd as Hd. congruence.
    + apply String.eqb_neq in Ee.
      destruct (set_has (domains w) domain) eqn:Hh.
      * split; [| reflexivity]. intros _. exists domain. auto.
      * destruct (extractDomain_labels u domain E) as [[a [b Hab]] | Hone].
        -- rewrite Hab. simpl. rewrite orb_false_r. split.
           ++ intro H. exists domain. split; [reflexivity |]. split; [exact Ee |].
              right. exists a, b. split; [exact Hab | exact H].
           ++ intros [d [Hd [_ [H | [l [t [Hs H]]]]]]]; injection Hd as Hd; subst d.
              ** congruence.
              ** rewrite Hab in Hs. injection Hs as _ Ht. subst t. exact H.
        -- rewrite Hone. simpl. split; [discriminate |].
           intros [d [Hd [_ [H | [l [t [Hs H]]]]]]]; injection Hd as Hd; subst d.
           ++ congruence.
           ++ rewrite Hone in Hs. discriminate.
  - split; [discriminate |]. intros [d [Hd _]]. discriminate.
Qed.

Lemma set_has_delete (d : list string) (x y : string) :
  set_has (set_delete d x) y = set_has d y && negb (String.eqb x y).
Proof.
  unfold set_has, set_delete. induction d as [| z d IH]; simpl; [reflexivity |].
  destruct (String.eqb x z) eqn:Exz; simpl; rewrite IH.
  - apply String.eqb_eq in Exz. subst z.
    destruct (String.eqb y x) eqn:Eyx; simpl; [| reflexivity].
    apply String.eqb_eq in Eyx. subst y. rewrite String.eqb_refl. simpl.
    apply andb_false_r.
  - destruct (String.eqb y z) eqn:Eyz; simpl; [| reflexivity].
    apply String.eqb_eq in Eyz. subst z. rewrite Exz. reflexivity.
Qed.

Lemma set_has_add_iff (d : list string) (x y : string) :
  set_has (set_add d x) y = set_has d y || String.eqb y x.
Proof.
  unfold set_add. destruct (set_has d x) eqn:H.
  - destruct (String.eqb y x) eqn:E; [| rewrite orb_false_r; reflexivity].
    apply String.eqb_eq in E. subst y. rewrite H. reflexivity.
  - unfold set_has. rewrite existsb_app. simpl. rewrite orb_false_r. reflexivity.
Qed.

(** X5.  Adding and removing.  With [d] the domain extracted from [u]: after
    [add(u)] the set holds [d]; adding again changes nothing; [remove(u)]
    then reports [true] and takes [d], and only [d], out of the set.  When
    no domain can be extracted, [add] and [remove] return [false] and leave
    the whitelist as it is. *)
Theorem whitelist_add_remove (w : Whitelist.t) (u : string) :
  (forall d,
      extractDomain u = Some d -> d <> "" ->
      let w1 := snd (add w u) in
      fst (add w u) = true
      /\ set_has (domains w1) d = true
      /\ snd (add w1 u) = w1
      /\ fst (remove w1 u) = true
      /\ (forall x, set_has (domains (snd (remove w1 u))) x
                    = set_has (domains w) x && negb (String.eqb d x)))
  /\ (extractDomain u = None ->
      add w u = (false, w) /\ remove w u = (false, w) /\ isWhitelisted w u = false).
Proof.
  split.
  - intros d Hd Hne w1. subst w1.
    assert (Hneb : String.eqb d "" = false) by (apply String.eqb_neq; exact Hne).
    unfold add, remove. rewrite Hd, Hneb. simpl.
    split; [reflexivity |].
    split; [apply set_has_add |].
    split.
    + unfold set_add at 1. rewrite set_has_add. reflexivity.
    + split; [apply set_has_add |].
      intro x. rewrite set_has_delete, set_has_add_iff.
      rewrite (String.eqb_sym d x).
      destruct (String.eqb x d); simpl.
      * rewrite !andb_false_r. reflexivity.
      * rewrite orb_false_r. reflexivity.
  - intro Hnone. unfold add, remove, isWhitelisted. rewrite Hnone. auto.
Qed.

Lemma set_add_nodup (d : list string) (x : string) : NoDup d -> NoDup (set_add d x).
Proof.
  intro H. unfold set_add. destruct (set_has d x) eqn:E; [exact H |].
  apply NoDup_app; [exact H | repeat constructor; simpl; tauto |].
  intros y Hy [Hx | []]. subst y.
  assert (set_has d x = true) by (apply existsb_exists; exists x; split;
                                   [exact Hy | apply String.eqb_refl]).
  congruence.
Qed.

Lemma set_of_array_spec (arr acc : list string) :
  NoDup acc ->
  NoDup (fold_left set_add arr acc)
  /\ forall x, set_has (fold_left set_add arr acc) x = set_has acc x || set_has arr x.
Proof.
  revert acc. induction arr as [| a arr IH]; intros acc Hnd; simpl.
  - split; [exact Hnd |]. intro x. rewrite orb_false_r. reflexivity.
  - destruct (IH (set_add acc a) (set_add_nodup acc a Hnd)) as [H1 H2].
    split; [exact H1 |]. intro x. rewrite H2, set_has_add_iff.
    unfold set_has at 3. simpl. fold (set_has arr x).
    rewrite <- orb_assoc. reflexivity.
Qed.

(** X6.  Loading never throws.  A stored array replaces the set by its distinct
    elements; a store without a whitelist leaves the set as it is; a failing
    read empties the set, whatever it held. *)
Theorem whitelist_load_outcomes (w : Whitelist.t) :
  (forall arr,
      exists w', load w (Ok (Some arr)) = Ok w'
                 /\ loaded w' = true
                 /\ NoDup (domains w')
                 /\ forall x, set_has (domains w') x = set_has arr x)
  /\ load w (Ok None) = Ok {| domains := domains w; loaded := true |}
  /\ (forall message,
         load w (Throw message) = Ok {| domains := []; loaded := true |}).
Proof.
  split; [| split; [reflexivity | reflexivity]].
  intro arr. eexists. split; [reflexivity |]. simpl.
  destruct (set_of_array_spec arr [] (NoDup_nil _)) as [H1 H2].
  split; [reflexivity |]. split; [exact H1 |].
  intro x. unfold set_of_array. rewrite H2. reflexivity.
Qed.

End WhitelistMore.

(** ** The engine: computed, cached and failed decisions *)

Section EngineMore.
Import DecisionEngine.
Implicit Types (e : DecisionEngine.t) (env : Env) (u : string).

Lemma init_sets_flag e env e1 : init e env = Ok e1 -> initialized e1 = true.
Proof.
  unfold init. destruct (initialized e) eqn:I.
  - intro H. injection H as H. subst e1. exact I.
  - destruct (Whitelist.load (whitelist e) (stored_whitelist env)) as [w | m |];
      simpl; try discriminate.
    destruct (ThresholdManager.load (thresholds e) (stored_thresholds env)) as [th | m |];
      simpl; try discriminate.
    intro H. injection H as H. subst e1. reflexivity.
Qed.

Lemma init_again e env : initialized e = true -> init e env = Ok e.
Proof. intro H. unfold init. rewrite H. reflexivity. Qed.

Lemma analyze_ok_fields e env u d :
  analyze e env u = Ok d ->
  Decision.url d = u /\ Decision.cached d = false /\ Decision.error d = None
  /\ (Decision.reason d = "ml_prediction" \/ Decision.reason d = "popular_domain_check").
Proof.
  unfold analyze.
  destruct (extractFeatures (featureExtractor e) u) as [[fs |] | m |]; simpl; try discriminate.
  destruct (featuresToArray (featureExtractor e) fs) as [arr | m |]; simpl; try discriminate.
  destruct (predictWithConfidence (predictor e) arr) as [pr | m |]; simpl; try discriminate.
  intro H. injection H as H. subst d. simpl.
  repeat split. destruct (isPopularDomain u); auto.
Qed.

(** The four ways [decide] returns. *)
Lemma decide_inv e env u d e2 :
  decide e env u = Ok (d, e2) ->
  exists e1,
    init e env = Ok e1
    /\ ((Whitelist.isWhitelisted (whitelist e1) u = true
         /\ Decision.reason d = "whitelisted" /\ Decision.cached d = false /\ e2 = e1)
        \/ (Whitelist.isWhitelisted (whitelist e1) u = false
            /\ (exists c, fst (PredictionCache.get (cache e1) (now_get env) u) = Some c)
            /\ Decision.cached d = true
            /\ e2 = with_cache e1 (snd (PredictionCache.get (cache e1) (now_get env) u)))
        \/ (Whitelist.isWhitelisted (whitelist e1) u = false
            /\ fst (PredictionCache.get (cache e1) (now_get env) u) = None
            /\ analyze (with_cache e1 (snd (PredictionCache.get (cache e1) (now_get env) u)))
                       env u = Ok d
            /\ e2 = with_cache e1
                      (PredictionCache.set
                         (snd (PredictionCache.get (cache e1) (now_get env) u))
                         (now_set env) u d))
        \/ (Whitelist.isWhitelisted (whitelist e1) u = false
            /\ fst (PredictionCache.get (cache e1) (now_get env) u) = None
            /\ (exists message, d = failOpen env u message)
            /\ e2 = with_cache e1 (snd (PredictionCache.get (cache e1) (now_get env) u)))).
Proof.
  unfold decide. destruct (init e env) as [e1 | m |]; simpl; try discriminate.
  intro H. exists e1. split; [reflexivity |].
  unfold decide_initialized in H.
  destruct (Whitelist.isWhitelisted (whitelist e1) u) eqn:W.
  - injection H as Hd He. subst d e2. left. simpl. auto.
  - right.
    destruct (PredictionCache.get (cache e1) (now_get env) u) as [hit cache'] eqn:G.
    destruct hit as [c |].
    + injection H as Hd He. subst d e2. left. simpl. split; [reflexivity |].
      split; [exists c; reflexivity | auto].
    + right.
      destruct (analyze (with_cache e1 cache') env u) as [dec | m |] eqn:A; simpl in H.
      * injection H as Hd He. subst dec e2. left. simpl. auto.
      * injection H as Hd He. subst d e2. right. simpl.
        split; [reflexivity |]. split; [reflexivity |]. split; [exists m; reflexivity | reflexivity].
      * discriminate.
Qed.

Lemma get_miss_absent {V : Type} (c : PredictionCache.t V) (now : Z) u :
  fst (PredictionCache.get c now u) = None ->
  JSMap.get (PredictionCache.cache (snd (PredictionCache.get c now u)))
            (PredictionCache.normalizeURL u) = None
  /\ (forall k, In k (JSMap.keys (PredictionCache.cache (snd (PredictionCache.get c now u)))) ->
                In k (JSMap.keys (PredictionCache.cache c)))
  /\ PredictionCache.misses (snd (PredictionCache.get c now u)) = PredictionCache.misses c + 1
  /\ PredictionCache.hits (snd (PredictionCache.get c now u)) = PredictionCache.hits c.
Proof.
  unfold PredictionCache.get.
  destruct (JSMap.get (PredictionCache.cache c) (PredictionCache.normalizeURL u)) as [en |] eqn:G.
  - destruct (now - PredictionCache.timestamp en >? PredictionCache.ttl c); simpl;
      [| discriminate].
    intros _. split; [apply map_get_delete_same |].
    split; [| auto]. intros k Hk. apply map_keys_delete in Hk. tauto.
  - simpl. intros _. auto.
Qed.

Lemma get_absent_misses {V : Type} (c : PredictionCache.t V) (now : Z) u :
  JSMap.get (PredictionCache.cache c) (PredictionCache.normalizeURL u) = None ->
  fst (PredictionCache.get c now u) = None.
Proof. intro H. unfold PredictionCache.get. rewrite H. reflexivity. Qed.

(** X7.  A decision that was computed (not whitelisted, not served from the
    cache, not the fail-open one) is stored: while its entry has not
    expired, the next call for a URL with the same normalised form and not
    whitelisted returns it with [cached = true] and a fresh timestamp,
    counts a hit, and carries the URL of the first call. *)
Theorem computed_decision_is_cached e env u d e2 :
  decide e env u = Ok (d, e2) ->
  Decision.cached d = false ->
  Decision.reason d <> "whitelisted" ->
  Decision.reason d <> "error" ->
  forall env' u',
    PredictionCache.normalizeURL u' = PredictionCache.normalizeURL u ->
    Whitelist.isWhitelisted (whitelist e2) u' = false ->
    now_get env' - now_set env <= PredictionCache.ttl (cache e2) ->
    exists d' e3,
      decide e2 env' u' = Ok (d', e3)
      /\ Decision.cached d' = true
      /\ Decision.url d' = u
      /\ Decision.action d' = Decision.action d
      /\ Decision.level d' = Decision.level d
      /\ Decision.probability d' = Decision.probability d
      /\ Decision.confidence d' = Decision.confidence d
      /\ Decision.reason d' = Decision.reason d
      /\ Decision.features d' = Decision.features d
      /\ Decision.error d' = None
      /\ Decision.timestamp d' = now_stamp env'
      /\ PredictionCache.hits (cache e3) = PredictionCache.hits (cache e2) + 1
      /\ PredictionCache.misses (cache e3) = PredictionCache.misses (cache e2).
Proof.
  intros Hdec Hc Hw He env' u' Hnorm Hwl Httl.
  destruct (decide_inv e env u d e2 Hdec) as [e1 [Hinit Hcases]].
  destruct Hcases as [[_ [Hr _]] | [[_ [_ [Hc' _]]] | [[W [Hmiss [Han He2]]] | [_ [_ [[m Hd] _]]]]]].
  - contradiction.
  - congruence.
  - destruct (analyze_ok_fields _ env u d Han) as [Hurl [_ [Herr _]]].
    pose proof (init_sets_flag e env e1 Hinit) as Hflag.
    subst e2. unfold decide. rewrite init_again by exact Hflag. simpl.
    unfold decide_initialized. rewrite Hwl. simpl.
    unfold PredictionCache.get at 1. rewrite Hnorm, get_after_set. simpl.
    simpl in Httl.
    destruct (now_get env' - now_set env
              >? PredictionCache.ttl (snd (PredictionCache.get (cache e1) (now_get env) u)))
      eqn:E.
    + rewrite Z.gtb_ltb in E. apply Z.ltb_lt in E. lia.
    + eexists. eexists. split; [reflexivity |]. simpl.
      rewrite Herr. simpl. repeat split; auto.
  - subst d. simpl in He. congruence.
Qed.

(** X8.  The fail-open decision is not stored: after it the cache has no entry
    for the URL and no key it did not have before, the lookup is counted as
    a miss, and a later call for the same URL is never served from the
    cache. *)
Theorem failed_decision_is_not_cached e env u d e2 :
  decide e env u = Ok (d, e2) ->
  Decision.cached d = false ->
  Decision.reason d = "error" ->
  JSMap.get (PredictionCache.cache (cache e2)) (PredictionCache.normalizeURL u) = None
  /\ (forall k, In k (JSMap.keys (PredictionCache.cache (cache e2))) ->
                In k (JSMap.keys (PredictionCache.cache (cache e))))
  /\ PredictionCache.misses (cache e2) = PredictionCache.misses (cache e) + 1
  /\ PredictionCache.hits (cache e2) = PredictionCache.hits (cache e)
  /\ (forall env' d' e3, decide e2 env' u = Ok (d', e3) -> Decision.cached d' = false).
Proof.
  intros Hdec Hc Hr.
  destruct (decide_inv e env u d e2 Hdec) as [e1 [Hinit Hcases]].
  destruct (init_frame e env e1 Hinit) as [Hcache _].
  destruct Hcases as [[_ [Hr' _]] | [[_ [_ [Hc' _]]] | [[_ [_ [Han _]]] | [W [Hmiss [_ He2]]]]]].
  - congruence.
  - congruence.
  - destruct (analyze_ok_fields _ env u d Han) as [_ [_ [_ [H | H]]]]; congruence.
  - destruct (get_miss_absent (cache e1) (now_get env) u Hmiss) as [Habs [Hkeys [Hm Hh]]].
    subst e2. simpl. rewrite <- Hcache.
    split; [exact Habs |]. split; [exact Hkeys |]. split; [exact Hm |]. split; [exact Hh |].
    intros env' d' e3 Hdec'.
    destruct (decide_inv _ env' u d' e3 Hdec') as [e1' [Hinit' Hcases']].
    rewrite init_again in Hinit' by (simpl; eapply init_sets_flag; exact Hinit).
    injection Hinit' as Hinit'. subst e1'.
    destruct Hcases' as [[_ [_ [H _]]] | [[_ [[c Hhit] _]] | [[_ [_ [Han' _]]] | [_ [_ [[m Hd] _]]]]]].
    + exact H.
    + simpl in Hhit. rewrite (get_absent_misses _ (now_get env') u Habs) in Hhit. discriminate.
    + apply (analyze_ok_fields _ env' u d' Han').
    + subst d'. reflexivity.
Qed.

(** X9.  Once [whitelist.add(u)] has run on an initialised engine, [decide]
    allows every URL with the same extracted domain as [u], whatever the
    cache holds and whatever the model would say, and leaves the cache and
    its counters as they are. *)
Theorem whitelist_add_overrides e env u u' domain :
  initialized e = true ->
  Whitelist.extractDomain u = Some domain ->
  domain <> "" ->
  Whitelist.extractDomain u' = Some domain ->
  exists d,
    decide (EngineOps.addToWhitelist e u) env u' = Ok (d, EngineOps.addToWhitelist e u)
    /\ Decision.action d = ALLOW
    /\ Decision.level d = SAFE
    /\ Decision.reason d = "whitelisted"
    /\ Decision.cached d = false
    /\ cache (EngineOps.addToWhitelist e u) = cache e.
Proof.
  intros Hflag Hd Hne Hd'.
  assert (Hneb : String.eqb domain "" = false) by (apply String.eqb_neq; exact Hne).
  unfold decide. rewrite init_again by exact Hflag. simpl.
  unfold decide_initialized.
  assert (W : Whitelist.isWhitelisted (whitelist (EngineOps.addToWhitelist e u)) u' = true).
  { simpl. unfold Whitelist.isWhitelisted, Whitelist.add. rewrite Hd, Hd', Hneb. simpl.
    rewrite set_has_add. reflexivity. }
  rewrite W. eexists. split; [reflexivity |]. simpl. repeat split.
Qed.

End EngineMore.

(** ** The policy: popular domains, and levels against actions *)

Section PolicyMore.
Import ThresholdManager.


Lemma lt_ge_Fin (p : JS.jsnum) (t : Q) :
  JS.lt p (JS.Fin t) = true -> JS.ge p (JS.Fin t) = false.
Proof.
  destruct p as [| | q |]; simpl; try reflexivity; try discriminate.
  destruct (Qlt_le_dec q t); [reflexivity | discriminate].
Qed.

Lemma ge_Fin_mono (p : JS.jsnum) (t t' : Q) :
  (t <= t')%Q -> JS.ge p (JS.Fin t') = true -> JS.ge p (JS.Fin t) = true.
Proof.
  intro H. destruct p as [| | q |]; simpl; try reflexivity; try discriminate.
  destruct (Qlt_le_dec q t') as [H1 | H1]; [discriminate |]. intros _.
  destruct (Qlt_le_dec q t) as [H2 | H2]; [| reflexivity].
  exfalso. apply (Qlt_not_le _ _ H2). apply (Qle_trans _ _ _ H H1).
Qed.

Lemma not_lt_ge_Fin (p : JS.jsnum) (t : Q) :
  p <> JS.NaN -> JS.lt p (JS.Fin t) = false -> JS.ge p (JS.Fin t) = true.
Proof.
  destruct p as [| | q |]; simpl; try reflexivity; try discriminate; try congruence.
  intros _. destruct (Qlt_le_dec q t); [discriminate | reflexivity].
Qed.

Lemma getAction_popular (tm : ThresholdManager.t) (p : JS.jsnum) :
  (blockThreshold (config tm) <= popularDomainThreshold (config tm))%Q ->
  getAction tm p true
  = if JS.ge p (JS.Fin (popularDomainThreshold (config tm))) then BLOCK else ALLOW.
Proof.
  intro Hle. unfold getAction. simpl.
  destruct (JS.lt p (JS.Fin (popularDomainThreshold (config tm)))) eqn:L.
  - rewrite (lt_ge_Fin _ _ L). reflexivity.
  - destruct (JS.ge p (JS.Fin (popularDomainThreshold (config tm)))) eqn:G.
    + rewrite (ge_Fin_mono p _ _ Hle G). reflexivity.
    + assert (Hnan : p = JS.NaN).
      { destruct p as [| | q |]; try reflexivity; simpl in L, G; try discriminate.
        destruct (Qlt_le_dec q (popularDomainThreshold (config tm))); discriminate. }
      subst p. reflexivity.
Qed.

(** X10.  When the block threshold does not exceed the popular-domain threshold
    (as in the defaults, 0.70 against 0.90), a popular domain is never
    warned about: it is blocked exactly when the probability reaches the
    popular-domain threshold and allowed otherwise, NaN included; the warn
    threshold plays no part. *)
Theorem popular_domain_never_warned (tm : ThresholdManager.t) (p : JS.jsnum) :
  (blockThreshold (config tm) <= popularDomainThreshold (config tm))%Q ->
  getAction tm p true <> WARN
  /\ (getAction tm p true = BLOCK
      <-> JS.ge p (JS.Fin (popularDomainThreshold (config tm))) = true)
  /\ (getAction tm p true = ALLOW
      <-> JS.ge p (JS.Fin (popularDomainThreshold (config tm))) = false).
Proof.
  intro Hle. rewrite (getAction_popular tm p Hle).
  destruct (JS.ge p (JS.Fin (popularDomainThreshold (config tm)))).
  - split; [discriminate |]. split; split; intro; congruence.
  - split; [discriminate |]. split; split; intro; congruence.
Qed.


End PolicyMore.

(** ** Predictor: what a tree walk and a prediction can return *)

Section PredictShape.
Import ModelLoader Predictor TreeSpec.

Lemma loop_body_return (tree : Tree) (features : list JS.jsnum) (nodeIdx : option Z)
      (v : JS.jsnum) :
  loop_body tree features nodeIdx = Return v ->
  (v = JS.Fin 0 \/ v = JS.NaN \/ exists w, In w (base_weights tree) /\ v = JS.Fin w)
  /\ (weights_cover tree -> v <> JS.NaN).
Proof.
  unfold loop_body.
  destruct (is_sentinel (read (left_children tree) nodeIdx)
            && is_sentinel (read (right_children tree) nodeIdx)) eqn:S.
  - intro H. injection H as H. subst v.
    destruct (read (base_weights tree) nodeIdx) as [w |] eqn:W; simpl.
    + split; [| discriminate]. right. right. exists w. split; [| reflexivity].
      unfold read in W. destruct nodeIdx as [z |]; [| discriminate].
      destruct (z <? 0); [discriminate |]. eapply nth_error_In. exact W.
    + split; [auto |]. intros Hc _.
      apply andb_true_iff in S. destruct S as [S _].
      unfold read in S, W. destruct nodeIdx as [z |]; [| discriminate].
      destruct (z <? 0); [discriminate |].
      apply nth_error_None in W.
      destruct (nth_error (left_children tree) (Z.to_nat z)) eqn:L; [| discriminate].
      assert (Hlt : (Z.to_nat z < List.length (left_children tree))%nat).
      { apply nth_error_Some. congruence. }
      unfold weights_cover in Hc. lia.
  - destruct (out_of_bounds _ _); [| discriminate].
    intro H. injection H as H. subst v. split; [auto | discriminate].
Qed.

Lemma predictTree_from_value (tree : Tree) (features : list JS.jsnum) (fuel : nat) :
  forall nodeIdx,
    (forall message, predictTree_from fuel tree features nodeIdx <> Throw message)
    /\ (forall v,
           predictTree_from fuel tree features nodeIdx = Ok v ->
           (v = JS.Fin 0 \/ v = JS.NaN \/ exists w, In w (base_weights tree) /\ v = JS.Fin w)
           /\ (weights_cover tree -> v <> JS.NaN)).
Proof.
  induction fuel as [| fuel IH]; intro nodeIdx; simpl.
  - split; [discriminate | discriminate].
  - destruct (loop_body tree features nodeIdx) as [value | nodeIdx'] eqn:B.
    + split; [discriminate |]. intros v H. injection H as H. subst v.
      apply (loop_body_return tree features nodeIdx value B).
    + apply IH.
Qed.

(** X12.  A tree walk never throws, and what it returns is 0, the weight of a
    node, or NaN for a leaf without a weight; NaN is excluded when the
    weights cover the nodes. *)
Theorem predictTree_outcomes (tree : Tree) (features : list JS.jsnum) (fuel : nat) :
  (forall message, predictTree fuel tree features <> Throw message)
  /\ (forall v,
         predictTree fuel tree features = Ok v ->
         (v = JS.Fin 0 \/ v = JS.NaN \/ exists w, In w (base_weights tree) /\ v = JS.Fin w)
         /\ ((List.length (left_children tree) <= List.length (base_weights tree))%nat ->
             v <> JS.NaN)).
Proof. apply predictTree_from_value. Qed.




Lemma undefined_index_loops (tree : Tree) (features : list JS.jsnum) (fuel : nat) :
  predictTree_from fuel tree features None = Diverge.
Proof.
  induction fuel as [| fuel IH]; simpl; [reflexivity |].
  unfold loop_body. simpl. destruct (read features (read (split_indices tree) None));
    simpl; exact IH.
Qed.

(** X14.  A tree without nodes (empty child arrays) is never left: the walk
    reads [undefined] child indices, which pass the bounds check, and
    [predict] on a model holding such a tree does not return, whatever the
    feature values. *)
Theorem empty_tree_never_returns (fuel : nat) (ml : ModelLoader.t) (md : Metadata) (m : Model)
        (tree : Tree) (features : list JS.jsnum) :
  left_children tree = [] -> right_children tree = [] ->
  isLoaded ml = true -> metadata ml = Some md -> model ml = Some m ->
  List.length features = List.length (feature_names md) ->
  In tree (trees m) ->
  predictTree fuel tree features = Diverge
  /\ predict fuel ml features = Diverge.
Proof.
  intros Hl Hr Hload Hmd Hm Hlen Hin.
  assert (Ht : predictTree fuel tree features = Diverge).
  { unfold predictTree. destruct fuel as [| fuel]; [reflexivity |]. simpl.
    unfold loop_body. rewrite Hl, Hr. simpl.
    destruct (JS.lt _ _); simpl; apply undefined_index_loops. }
  split; [exact Ht |].
  unfold predict. rewrite Hload, Hmd, Hm. simpl. rewrite Hlen, Nat.eqb_refl. simpl.
  assert (Hadd : forall score, add_trees fuel (trees m) features score = Diverge).
  { clear Hm. induction (trees m) as [| t ts IH]; [contradiction |].
    intro score. simpl. destruct Hin as [Heq | Hin].
    - subst t. rewrite Ht. reflexivity.
    - pose proof (proj1 (predictTree_from_value t features fuel (Some 0))) as Hnt.
      unfold predictTree. destruct (predictTree_from fuel t features (Some 0)) as [v | msg |];
        simpl; [apply IH; exact Hin | exfalso; apply (Hnt msg); reflexivity | reflexivity]. }
  rewrite Hadd. reflexivity.
Qed.

End PredictShape.

(** ** Predictor.predictBatch *)

Section BatchFacts.
Import ModelLoader Predictor Batch.

(** X15.  A batch is all or nothing: when [predictBatch] returns, it returns one
    prediction per vector, in order, each the one [predict] gives; when
    some vector has a length the loaded model does not accept, it returns
    nothing at all, not even the predictions of the vectors before it. *)
Theorem predictBatch_all_or_nothing (fuel : nat) (ml : ModelLoader.t)
        (featuresBatch : list (list JS.jsnum)) :
  (forall ps,
      predictBatch fuel ml featuresBatch = Ok ps ->
      Forall2 (fun features p => predict fuel ml features = Ok p) featuresBatch ps)
  /\ (forall md features,
         metadata ml = Some md ->
         In features featuresBatch ->
         List.length features <> List.length (feature_names md) ->
         forall ps, predictBatch fuel ml featuresBatch <> Ok ps).
Proof.
  split.
  - induction featuresBatch as [| f rest IH]; intros ps; simpl.
    + intro H. injection H as H. subst ps. constructor.
    + destruct (predict fuel ml f) as [p | m |] eqn:P; simpl; try discriminate.
      destruct (predictBatch fuel ml rest) as [ps' | m |]; simpl; try discriminate.
      intro H. injection H as H. subst ps. constructor; [exact P | apply IH; reflexivity].
  - intros md features Hmd Hin Hlen.
    assert (Hbad : forall p, predict fuel ml features <> Ok p).
    { intros p Hp. destruct (predict_ok_inv fuel ml features p Hp)
        as [md' [m [score [_ [Hmd' [_ [Hl _]]]]]]].
      rewrite Hmd in Hmd'. injection Hmd' as Hmd'. subst md'. contradiction. }
    induction featuresBatch as [| f rest IH]; [contradiction |].
    intros ps. simpl. destruct Hin as [Heq | Hin].
    + subst f. destruct (predict fuel ml features) as [p | m |] eqn:P; simpl; try discriminate.
      exfalso. apply (Hbad p). reflexivity.
    + destruct (predict fuel ml f) as [p | m |]; simpl; try discriminate.
      specialize (IH Hin).
      destruct (predictBatch fuel ml rest) as [ps' | m |]; simpl; try discriminate.
      exfalso. apply (IH ps'). reflexivity.
Qed.

End BatchFacts.

(** ** FeatureExtractor.featuresToArray and the predictor's input contract *)

Section FeatureArray.
Import ModelLoader Predictor FeatureExtractor.

Lemma or_zero_not_NaN (v : option JS.jsnum) : or_zero v <> JS.NaN.
Proof.
  destruct v as [[| | q |] |]; simpl; try discriminate.
  destruct (Qeq_bool q 0); discriminate.
Qed.

Lemma add_trees_never_throws (fuel : nat) (features : list JS.jsnum) (ts : list Tree) :
  forall score message, add_trees fuel ts features score <> Throw message.
Proof.
  induction ts as [| t ts IH]; intros score message; simpl; [discriminate |].
  pose proof (proj1 (predictTree_from_value t features fuel (Some 0))) as Hnt.
  unfold predictTree.
  destruct (predictTree_from fuel t features (Some 0)) as [v | msg |]; simpl.
  - apply IH.
  - exfalso. apply (Hnt msg). reflexivity.
  - discriminate.
Qed.

(** X16.  The array handed to the predictor always has ten entries, none of them
    NaN, a missing or falsy feature being replaced by 0; on a loaded model
    whose metadata lists ten feature names [predict] therefore throws
    nothing on it: neither the length error nor any other. *)
Theorem featuresToArray_fits_predict (fs : Features) :
  List.length (featuresToArray fs) = 10%nat
  /\ Forall (fun v => v <> JS.NaN) (featuresToArray fs)
  /\ (forall name, lookup fs name = None -> or_zero (lookup fs name) = JS.Fin 0)
  /\ (forall fuel ml md m,
         isLoaded ml = true -> metadata ml = Some md -> model ml = Some m ->
         List.length (feature_names md) = 10%nat ->
         forall message, predict fuel ml (featuresToArray fs) <> Throw message).
Proof.
  split; [reflexivity |]. split.
  - unfold featuresToArray. apply Forall_forall. intros v Hv.
    apply in_map_iff in Hv. destruct Hv as [name [Hn _]]. subst v. apply or_zero_not_NaN.
  - split; [intros name H; rewrite H; reflexivity |].
    intros fuel ml md m Hl Hmd Hm Hlen message. unfold predict.
    rewrite Hl, Hmd, Hm, Hlen. simpl.
    pose proof (add_trees_never_throws fuel (featuresToArray fs) (trees m)
                  (JS.Fin (base_score m)) message) as Hnt.
    destruct (add_trees fuel (trees m) (featuresToArray fs) (JS.Fin (base_score m)))
      as [score | msg |]; simpl; try discriminate.
    intro H. injection H as H. subst msg. apply Hnt. reflexivity.
Qed.

End FeatureArray.

(** ** LexicalFeatures *)

Section Lexical.
Import LexicalFeatures.

Lemma alpha_not_digit (c : ascii) : Platform.is_alpha c = true -> Platform.is_digit c = false.
Proof.
  unfold Platform.is_alpha, Platform.is_digit.
  set (n := nat_of_ascii c).
  destruct (Nat.leb_spec 65 n), (Nat.leb_spec n 90), (Nat.leb_spec 97 n), (Nat.leb_spec n 122),
    (Nat.leb_spec 48 n), (Nat.leb_spec n 57); simpl; try reflexivity; try discriminate; lia.
Qed.

Lemma count_le_length (class : ascii -> bool) (text : string) :
  (count class text <= String.length text)%nat.
Proof. induction text as [| c r IH]; simpl; [lia |]. destruct (class c); lia. Qed.

(** X17.  Every character is a letter, a digit or a special character, and only
    one of them: the three counts add up to the length.  The digit ratio
    lies between 0 and 1. *)
Theorem character_counts_partition (text : string) :
  (countLetters text + countDigits text + countSpecialChars text = String.length text)%nat
  /\ (0 <= digitRatio text <= 1)%Q.
Proof.
  split.
  - unfold countLetters, countDigits, countSpecialChars.
    induction text as [| c r IH]; simpl; [reflexivity |].
    destruct (Platform.is_alpha c) eqn:A.
    + rewrite (alpha_not_digit c A). simpl. lia.
    + destruct (Platform.is_digit c); simpl; lia.
  - unfold digitRatio.
    destruct (String.length text =? 0)%nat eqn:E.
    + split; [apply Qle_refl | discriminate].
    + apply Nat.eqb_neq in E.
      pose proof (count_le_length Platform.is_digit text) as Hle.
      fold (countDigits text) in Hle.
      assert (Hpos : (0 < inject_Z (Z.of_nat (String.length text)))%Q).
      { unfold Qlt. simpl. lia. }
      split.
      * apply Qle_shift_div_l; [exact Hpos |]. rewrite Qmult_0_l.
        change 0%Q with (inject_Z 0). rewrite <- Zle_Qle. lia.
      * apply Qle_shift_div_r; [exact Hpos |]. rewrite Qmult_1_l.
        rewrite <- Zle_Qle. lia.
Qed.

Lemma lower_ascii_idempotent (c : ascii) :
  Str.lower_ascii (Str.lower_ascii c) = Str.lower_ascii c.
Proof. destruct c as [[] [] [] [] [] [] [] []]; reflexivity. Qed.

Lemma toLowerCase_idempotent (text : string) :
  Str.toLowerCase (Str.toLowerCase text) = Str.toLowerCase text.
Proof.
  induction text as [| c r IH]; simpl; [reflexivity |].
  rewrite lower_ascii_idempotent, IH. reflexivity.
Qed.

Lemma prefix_of_lower (keyword text : string) :
  String.prefix keyword (Str.toLowerCase text) = true -> Str.toLowerCase keyword = keyword.
Proof.
  revert text. induction keyword as [| a k IH]; intros text; simpl; [reflexivity |].
  destruct text as [| b t]; simpl; [discriminate |].
  destruct (ascii_dec a (Str.lower_ascii b)) as [Heq | Hne]; [| discriminate].
  intro H. subst a. rewrite lower_ascii_idempotent, (IH t H). reflexivity.
Qed.

Lemma includes_of_lower (keyword text : string) :
  includes (Str.toLowerCase text) keyword = true -> Str.toLowerCase keyword = keyword.
Proof.
  induction text as [| b t IH]; simpl.
  - rewrite orb_false_r. intro H. apply (prefix_of_lower keyword EmptyString). exact H.
  - intro H. apply orb_true_iff in H. destruct H as [H | H].
    + apply (prefix_of_lower keyword (String b t)). exact H.
    + apply IH. exact H.
Qed.

Lemma includes_empty (text : string) : includes text EmptyString = true.
Proof. destruct text; reflexivity. Qed.

(** X18.  The keyword count is at most the number of keywords and does not
    depend on the case of the text; a keyword that is not written in lower
    case is never found, and the empty keyword always is. *)
Theorem keyword_count_properties (text : string) (keywords : list string) :
  (countSuspiciousKeywords text keywords <= List.length keywords)%nat
  /\ countSuspiciousKeywords (Str.toLowerCase text) keywords
     = countSuspiciousKeywords text keywords
  /\ countSuspiciousKeywords text keywords
     = countSuspiciousKeywords text
         (filter (fun keyword => String.eqb (Str.toLowerCase keyword) keyword) keywords)
  /\ countSuspiciousKeywords text (EmptyString :: keywords)
     = S (countSuspiciousKeywords text keywords).
Proof.
  unfold countSuspiciousKeywords. split; [apply filter_length_le |].
  split; [rewrite toLowerCase_idempotent; reflexivity |].
  split.
  - induction keywords as [| k ks IH]; simpl; [reflexivity |].
    destruct (includes (Str.toLowerCase text) k) eqn:I.
    + rewrite (includes_of_lower k text I), String.eqb_refl. simpl.
      rewrite I. simpl. rewrite IH. reflexivity.
    + destruct (String.eqb (Str.toLowerCase k) k); simpl; [rewrite I |]; exact IH.
  - simpl. rewrite includes_empty. reflexivity.
Qed.

Lemma double_slash_step (path : string) :
  ((2 * countDoubleSlashes path <= count (fun c => Ascii.eqb c "/") path)%nat
   /\ (countDoubleSlashes path = 0%nat <-> includes path "//" = false))
  /\ forall a,
       (2 * countDoubleSlashes (String a path)
        <= count (fun c => Ascii.eqb c "/") (String a path))%nat
       /\ (countDoubleSlashes (String a path) = 0%nat
           <-> includes (String a path) "//" = false).
Proof.
  induction path as [| b r [[IH1 IH2] IH3]].
  - split; [split; [simpl; lia | simpl; tauto] |].
    intro a. split; [simpl; lia |].
    cbn [countDoubleSlashes includes String.prefix].
    destruct (ascii_dec "/" a); simpl; tauto.
  - split; [apply IH3 |].
    intro a. destruct (IH3 b) as [IHb1 IHb2].
    change (countDoubleSlashes (String a (String b r)))
      with (if Ascii.eqb a "/" && Ascii.eqb b "/"
            then S (countDoubleSlashes r) else countDoubleSlashes (String b r)).
    change (includes (String a (String b r)) "//")
      with (String.prefix "//" (String a (String b r)) || includes (String b r) "//").
    change (count (fun c => Ascii.eqb c "/") (String a (String b r)))
      with ((if Ascii.eqb a "/" then 1 else 0)
            + count (fun c => Ascii.eqb c "/") (String b r))%nat.
    assert (Hpre : String.prefix "//" (String a (String b r))
                   = Ascii.eqb a "/" && Ascii.eqb b "/").
    { cbn [String.prefix]. destruct (ascii_dec "/" a) as [Ha | Ha].
      - subst a. rewrite Ascii.eqb_refl. cbn [andb].
        destruct (ascii_dec "/" b) as [Hb | Hb].
        + subst b. rewrite Ascii.eqb_refl. destruct r; reflexivity.
        + symmetry. apply Ascii.eqb_neq. congruence.
      - assert (E : Ascii.eqb a "/" = false) by (apply Ascii.eqb_neq; congruence).
        rewrite E. reflexivity. }
    rewrite Hpre.
    destruct (Ascii.eqb a "/" && Ascii.eqb b "/") eqn:E.
    + apply andb_true_iff in E. destruct E as [Ea Eb]. rewrite Ea.
      split.
      * change (count (fun c => Ascii.eqb c "/") (String b r))
          with ((if Ascii.eqb b "/" then 1 else 0) + count (fun c => Ascii.eqb c "/") r)%nat.
        rewrite Eb. lia.
      * simpl. split; [lia | discriminate].
    + split; [destruct (Ascii.eqb a "/"); lia |].
      simpl orb. exact IHb2.
Qed.

(** X19.  The double slashes counted do not overlap: twice the count is at most
    the number of slashes; and the count is zero exactly when the path has
    no two consecutive slashes. *)
Theorem countDoubleSlashes_properties (path : string) :
  (2 * countDoubleSlashes path <= count (fun c => Ascii.eqb c "/") path)%nat
  /\ (2 * countDoubleSlashes path <= String.length path)%nat
  /\ (countDoubleSlashes path = 0%nat <-> includes path "//" = false).
Proof.
  destruct (double_slash_step path) as [[H1 H2] _].
  split; [exact H1 |]. split; [| exact H2].
  pose proof (count_le_length (fun c => Ascii.eqb c "/") path). lia.
Qed.

End Lexical.

(** ** URLParser.parseDomain *)

Section ParseDomain.
Import URLParser.

Lemma string_app_assoc (a b c : string) : (a ++ b) ++ c = a ++ b ++ c.
Proof. induction a as [| x a IH]; simpl; [reflexivity | rewrite IH; reflexivity]. Qed.

Lemma join_app (sep : string) (a b : list string) :
  a <> [] -> b <> [] ->
  Str.join sep (a ++ b)%list = Str.join sep a ++ sep ++ Str.join sep b.
Proof.
  intros Ha Hb. induction a as [| x a IH]; [contradiction |].
  destruct a as [| y a'].
  - destruct b as [| z b']; [contradiction | reflexivity].
  - change (Str.join sep ((x :: y :: a') ++ b)%list)
      with (x ++ sep ++ Str.join sep ((y :: a') ++ b)%list).
    rewrite IH by discriminate.
    change (Str.join sep (x :: y :: a')) with (x ++ sep ++ Str.join sep (y :: a')).
    rewrite !string_app_assoc. reflexivity.
Qed.

Lemma nth_skipn_plus {A : Type} (k i : nat) (l : list A) (d : A) :
  nth i (skipn k l) d = nth (k + i) l d.
Proof.
  revert l. induction k as [| k IH]; intro l; simpl; [reflexivity |].
  destruct l as [| x l]; simpl; [destruct i; reflexivity | apply IH].
Qed.

Lemma last_two_nth (l : list string) :
  (2 <= List.length l)%nat ->
  skipn (List.length l - 2) l
  = [nth (List.length l - 2) l ""; nth (List.length l - 1) l ""].
Proof.
  intro H.
  assert (Hlen : List.length (skipn (List.length l - 2) l) = 2%nat)
    by (rewrite length_skipn; lia).
  pose proof (nth_skipn_plus (List.length l - 2) 0 l "") as H0.
  pose proof (nth_skipn_plus (List.length l - 2) 1 l "") as H1.
  replace (List.length l - 2 + 0)%nat with (List.length l - 2)%nat in H0 by lia.
  replace (List.length l - 2 + 1)%nat with (List.length l - 1)%nat in H1 by lia.
  destruct (skipn (List.length l - 2) l) as [| a [| b [| c t]]]; simpl in Hlen; try lia.
  simpl in H0, H1. rewrite H0, H1. reflexivity.
Qed.

Lemma last_three_nth (l : list string) :
  (3 <= List.length l)%nat ->
  skipn (List.length l - 3) l
  = [nth (List.length l - 3) l ""; nth (List.length l - 2) l ""; nth (List.length l - 1) l ""].
Proof.
  intro H.
  assert (Hlen : List.length (skipn (List.length l - 3) l) = 3%nat)
    by (rewrite length_skipn; lia).
  pose proof (nth_skipn_plus (List.length l - 3) 0 l "") as H0.
  pose proof (nth_skipn_plus (List.length l - 3) 1 l "") as H1.
  pose proof (nth_skipn_plus (List.length l - 3) 2 l "") as H2.
  replace (List.length l - 3 + 0)%nat with (List.length l - 3)%nat in H0 by lia.
  replace (List.length l - 3 + 1)%nat with (List.length l - 2)%nat in H1 by lia.
  replace (List.length l - 3 + 2)%nat with (List.length l - 1)%nat in H2 by lia.
  destruct (skipn (List.length l - 3) l) as [| a [| b [| c [| e t]]]]; simpl in Hlen; try lia.
  simpl in H0, H1, H2. rewrite H0, H1, H2. reflexivity.
Qed.

(** The hostname as the labels before the last [k] and the last [k]. *)
Lemma join_last (k : nat) (l : list string) :
  (k < List.length l)%nat -> (0 < k)%nat ->
  Str.join "." l
  = leading k l ++ "." ++ Str.join "." (skipn (List.length l - k) l).
Proof.
  intros Hk H0. unfold leading.
  rewrite <- (firstn_skipn (List.length l - k) l) at 1.
  apply join_app.
  - intro E. apply (f_equal (@List.length string)) in E.
    rewrite length_firstn in E. simpl in E. lia.
  - intro E. apply (f_equal (@List.length string)) in E.
    rewrite length_skipn in E. simpl in E. lia.
Qed.

Lemma join_all (l : list string) : Str.join "." (skipn 0 l) = Str.join "." l.
Proof. reflexivity. Qed.

(** X20.  [parseDomain] takes the hostname apart without losing anything: the
    registered domain is the hostname itself or what follows the subdomain
    and a dot, and it is [domain.suffix] whenever both are non-empty. *)
Theorem parseDomain_decomposes (hostname : string) :
  let d := parseDomain hostname in
  fullDomain d = hostname
  /\ (registeredDomain d = hostname
      \/ hostname = subdomain d ++ "." ++ registeredDomain d)
  /\ (domain d <> "" -> suffix d <> "" -> registeredDomain d = domain d ++ "." ++ suffix d)
  /\ (domain d = "" \/ suffix d = "" -> registeredDomain d = hostname).
Proof.
  unfold parseDomain.
  pose proof (join_split "." hostname) as Hjoin.
  set (parts := Str.split "." hostname) in *.
  set (n := List.length parts).
  destruct (2 <=? n)%nat eqn:L2.
  - apply Nat.leb_le in L2.
    destruct ((3 <=? n)%nat && existsb (String.eqb (nth (n - 2) parts "")) commonTLDs
              && (String.length (nth (n - 1) parts "") =? 2)%nat) eqn:T.
    + apply andb_true_iff in T. destruct T as [T _].
      apply andb_true_iff in T. destruct T as [L3 _]. apply Nat.leb_le in L3.
      cbn [subdomain domain suffix fullDomain registeredDomain].
      split; [reflexivity |].
      destruct (String.eqb (nth (n - 3) parts "") "") eqn:Ed.
      * cbn [negb andb]. split; [left; reflexivity |].
        apply String.eqb_eq in Ed. split; [intros H; contradiction | reflexivity].
      * assert (Es : String.eqb (nth (n - 2) parts "" ++ "." ++ nth (n - 1) parts "") "" = false).
        { apply String.eqb_neq. destruct (nth (n - 2) parts ""); discriminate. }
        rewrite Es. cbn [negb andb].
        split; [| split; [reflexivity |]].
        -- destruct (3 <? n)%nat eqn:L4.
           ++ apply Nat.ltb_lt in L4. right.
              rewrite <- Hjoin at 1. change (String "." EmptyString) with ".".
              rewrite (join_last 3 parts) by (unfold n in *; lia).
              unfold n in *. rewrite (last_three_nth parts L3). reflexivity.
           ++ apply Nat.ltb_ge in L4. left.
              rewrite <- Hjoin. change (String "." EmptyString) with ".".
              assert (E3 : (n - 3 = 0)%nat) by lia.
              pose proof (last_three_nth parts L3) as H3. unfold n in *.
              rewrite E3 in *. simpl skipn in H3.
              exact (eq_sym (f_equal (Str.join ".") H3)).
        -- apply String.eqb_neq in Ed. apply String.eqb_neq in Es.
           intros [H | H]; contradiction.
    + cbn [subdomain domain suffix fullDomain registeredDomain].
      split; [reflexivity |].
      destruct (String.eqb (nth (n - 2) parts "") "") eqn:Ed.
      * cbn [negb andb]. split; [left; reflexivity |].
        apply String.eqb_eq in Ed. split; [intros H; contradiction | reflexivity].
      * destruct (String.eqb (nth (n - 1) parts "") "") eqn:Es.
        -- cbn [negb andb]. split; [left; reflexivity |].
           apply String.eqb_eq in Es. split; [intros _ H; contradiction | reflexivity].
        -- cbn [negb andb].
           split; [| split; [reflexivity |]].
           ++ destruct (2 <? n)%nat eqn:L3.
              ** apply Nat.ltb_lt in L3. right.
                 rewrite <- Hjoin at 1. change (String "." EmptyString) with ".".
                 rewrite (join_last 2 parts) by (unfold n in *; lia).
                 unfold n in *. rewrite (last_two_nth parts L2). reflexivity.
              ** apply Nat.ltb_ge in L3. left.
                 rewrite <- Hjoin. change (String "." EmptyString) with ".".
                 assert (E2 : (n - 2 = 0)%nat) by lia.
                 pose proof (last_two_nth parts L2) as H2. unfold n in *.
                 rewrite E2 in *. simpl skipn in H2.
                 exact (eq_sym (f_equal (Str.join ".") H2)).
           ++ apply String.eqb_neq in Ed. apply String.eqb_neq in Es.
              intros [H | H]; contradiction.
  - destruct (n =? 1)%nat;
      cbn [subdomain domain suffix fullDomain registeredDomain];
      rewrite andb_false_r; (split; [reflexivity |]);
      (split; [left; reflexivity |]); (split; [intros _ H; contradiction | reflexivity]).
Qed.

(** X21.  The whitelist and the URL parser disagree on hosts under a two-level
    suffix.  For a URL that names its scheme, the domain the whitelist
    extracts is the parser's [domain.suffix] in the ordinary case, but
    under a suffix such as [co.uk] it is the suffix alone. *)
Theorem whitelist_domain_against_parser (u : string) (urlObj : Platform.URL) :
  Str.startsWith u "http://" = true \/ Str.startsWith u "https://" = true ->
  Platform.URL_new u = Some urlObj ->
  let hostname := Platform.hostname urlObj in
  let parts := Str.split "." hostname in
  let n := List.length parts in
  let d := parseDomain hostname in
  let two_level :=
    (3 <=? n)%nat && existsb (String.eqb (nth (n - 2) parts "")) commonTLDs
    && (String.length (nth (n - 1) parts "") =? 2)%nat in
  ((2 <= n)%nat -> two_level = true -> Whitelist.extractDomain u = Some (suffix d))
  /\ ((2 <= n)%nat -> two_level = false ->
      Whitelist.extractDomain u = Some (domain d ++ "." ++ suffix d))
  /\ ((n < 2)%nat -> Whitelist.extractDomain u = Some hostname /\ domain d = hostname).
Proof.
  intros Hscheme Hurl hostname parts n d two_level.
  assert (Hext : Whitelist.extractDomain u
                 = if (2 <=? n)%nat then Some (Str.join "." (Str.slice_last 2 parts))
                   else Some hostname).
  { unfold Whitelist.extractDomain.
    assert (E : negb (Str.startsWith u "http://") && negb (Str.startsWith u "https://") = false).
    { destruct Hscheme as [H | H]; rewrite H; simpl; [reflexivity | apply andb_false_r]. }
    rewrite E, Hurl. reflexivity. }
  rewrite Hext. subst d. unfold parseDomain. fold hostname. fold parts. fold n. fold two_level.
  split; [| split].
  - intros L2 T. rewrite T. apply Nat.leb_le in L2. rewrite L2.
    cbn [suffix]. unfold Str.slice_last.
    apply Nat.leb_le in L2. unfold n in *. rewrite (last_two_nth parts L2). reflexivity.
  - intros L2 T. rewrite T. apply Nat.leb_le in L2. rewrite L2.
    cbn [suffix domain]. unfold Str.slice_last.
    apply Nat.leb_le in L2. unfold n in *. rewrite (last_two_nth parts L2). reflexivity.
  - intro L1. assert (L2 : (2 <=? n)%nat = false) by (apply Nat.leb_gt; exact L1).
    rewrite L2. split; [reflexivity |].
    pose proof (split_not_nil "." hostname) as Hne.
    pose proof (join_split "." hostname) as Hjoin. fold parts in Hne, Hjoin.
    subst n. destruct parts as [| p [| q t]]; [contradiction | | simpl in L1; lia].
    simpl in Hjoin. simpl. exact Hjoin.
Qed.

End ParseDomain.


(** ** StateStore: the statistics *)

Section Statistics.
Import StateStore.

Lemma record_all_counts (ds : list Decision.t) :
  forall s,
    let s' := record_all s ds in
    totalChecks (stats s') = (totalChecks (stats s) + List.length ds)%nat
    /\ blocked (stats s') = (blocked (stats s) + with_action BLOCK ds)%nat
    /\ warned (stats s') = (warned (stats s) + with_action WARN ds)%nat
    /\ allowed (stats s') = (allowed (stats s) + with_action ALLOW ds)%nat
    /\ cached (stats s') = (cached (stats s) + served_from_cache ds)%nat
    /\ enabled s' = enabled s.
Proof.
  unfold record_all, with_action, served_from_cache.
  induction ds as [| d ds IH]; intro s; simpl.
  - repeat split; lia.
  - destruct (IH (recordDecision s d)) as [H1 [H2 [H3 [H4 [H5 H6]]]]].
    rewrite H1, H2, H3, H4, H5, H6. simpl.
    destruct (Decision.action d), (Decision.cached d); simpl; repeat split; lia.
Qed.

Lemma actions_partition (ds : list Decision.t) :
  (with_action BLOCK ds + with_action WARN ds + with_action ALLOW ds = List.length ds)%nat
  /\ (served_from_cache ds <= List.length ds)%nat.
Proof.
  unfold with_action, served_from_cache. split; [| apply filter_length_le].
  induction ds as [| d ds IH]; simpl; [reflexivity |].
  destruct (Decision.action d); simpl; lia.
Qed.

(** X22.  After [resetStats], recording a session's decisions makes every
    counter the number of decisions of its kind: the checks add up to
    blocked + warned + allowed, and the cached ones are among them. *)
Theorem statistics_count_decisions (s0 : State) (ds : list Decision.t) :
  let st := stats (record_all (resetStats s0) ds) in
  totalChecks st = List.length ds
  /\ blocked st = with_action BLOCK ds
  /\ warned st = with_action WARN ds
  /\ allowed st = with_action ALLOW ds
  /\ cached st = served_from_cache ds
  /\ (blocked st + warned st + allowed st = totalChecks st)%nat
  /\ (cached st <= totalChecks st)%nat
  /\ enabled (record_all (resetStats s0) ds) = enabled s0.
Proof.
  destruct (record_all_counts ds (resetStats s0)) as [H1 [H2 [H3 [H4 [H5 H6]]]]].
  destruct (actions_partition ds) as [Hp Hc].
  simpl in *. rewrite H1, H2, H3, H4, H5, H6. repeat split; lia.
Qed.




(** X24.  A decision whose latency rounds to zero is counted as a check but
    leaves the latency figures alone, so from then on [avgLatency] times
    the number of checks exceeds the sum of the latencies whenever the
    average so far is positive. *)
Theorem zero_latency_skews_average (s : State) (d : Decision.t) :
  Decision.latency d = 0 ->
  let s' := recordDecision s d in
  performance s' = performance s
  /\ totalChecks (stats s') = S (totalChecks (stats s))
  /\ ((0 < avgLatency (performance s))%Q ->
      (avgLatency (performance s) * inject_Z (Z.of_nat (totalChecks (stats s)))
       < avgLatency (performance s') * inject_Z (Z.of_nat (totalChecks (stats s'))))%Q).
Proof.
  intros Hz s'. unfold s', recordDecision. cbn [performance stats totalChecks].
  rewrite Hz. simpl Z.eqb. cbn iota.
  split; [reflexivity |]. split; [reflexivity |].
  intro Hpos. rewrite !(Qmult_comm (avgLatency (performance s))).
  apply Qmult_lt_compat_r; [exact Hpos |].
  rewrite <- Zlt_Qlt. lia.
Qed.

End Statistics.

(** ** The older predictor: the walk over node objects *)

Section NodeWalk.
Import NodePredictor.

Lemma node_loop_continue (len : nat) (node : Node) (features : list JS.jsnum) (i : option Z) :
  loop_body len node features = Predictor.Continue i ->
  exists z, i = Some z /\ 0 <= z < Z.of_nat len.
Proof.
  unfold loop_body.
  destruct (leaf node); [discriminate |].
  destruct (leaf_value node); [discriminate |].
  destruct (if JS.lt _ _ then _ else _) as [z |]; [| discriminate].
  destruct ((z <? 0) || (z >=? Z.of_nat len)) eqn:B; [discriminate |].
  intro H. injection H as H. subst i. exists z. split; [reflexivity |].
  apply orb_false_iff in B. destruct B as [B1 B2].
  apply Z.ltb_ge in B1. rewrite Z.geb_leb in B2. apply Z.leb_gt in B2. lia.
Qed.

Lemma node_walk_inside (nodes : list Node) (features : list JS.jsnum) (fuel : nat) :
  forall z, 0 <= z < Z.of_nat (List.length nodes) ->
            forall message, predictTree_from fuel nodes features (Some z) <> Throw message.
Proof.
  induction fuel as [| fuel IH]; intros z Hz message; simpl; [discriminate |].
  assert (Hz0 : (z <? 0) = false) by (apply Z.ltb_ge; lia).
  rewrite Hz0.
  destruct (nth_error nodes (Z.to_nat z)) as [node |] eqn:N.
  - destruct (loop_body (List.length nodes) node features) as [v | i] eqn:B; [discriminate |].
    destruct (node_loop_continue _ _ _ _ B) as [z' [Hi Hz']]. subst i. apply IH. exact Hz'.
  - apply nth_error_None in N. lia.
Qed.

(** X25.  The walk over node objects checks every index before it uses it: on a
    tree with at least one node it never throws, whatever the child links
    say; only a tree without nodes makes it throw, at the first read. *)
Theorem node_walk_never_escapes (tree : Tree) (features : list JS.jsnum) (fuel : nat) :
  (forall ns, nodes tree = Some ns -> ns <> [] ->
              forall message, predictTree fuel tree features <> Throw message)
  /\ (nodes tree = Some [] ->
      predictTree (S fuel) tree features
      = Throw "Cannot read properties of undefined (reading 'leaf')").
Proof.
  split.
  - intros ns Hn Hne message. unfold predictTree. rewrite Hn.
    apply node_walk_inside. destruct ns; [contradiction | simpl; lia].
  - intro Hn. unfold predictTree. rewrite Hn. reflexivity.
Qed.

End NodeWalk.

(** ** Popular domains and [reset] *)

Section PopularDomains.
Import DecisionEngine.

Lemma substring_all (s : string) : String.substring 0 (String.length s) s = s.
Proof. induction s as [| c r IH]; simpl; [reflexivity | rewrite IH; reflexivity]. Qed.

Lemma substring_after (pre p : string) :
  String.substring (String.length pre) (String.length p) (pre ++ p) = p.
Proof. induction pre as [| c r IH]; simpl; [apply substring_all | exact IH]. Qed.

Lemma substring_split (s : string) :
  forall k, (k <= String.length s)%nat ->
            s = String.substring 0 k s ++ String.substring k (String.length s - k) s.
Proof.
  induction s as [| c r IH]; intros k Hk.
  - simpl in Hk. assert (k = 0%nat) by lia. subst k. reflexivity.
  - destruct k as [| k].
    + change (String.substring 0 0 (String c r)) with EmptyString.
      rewrite Nat.sub_0_r, substring_all. reflexivity.
    + simpl in Hk. simpl. f_equal. apply IH. lia.
Qed.

Lemma string_length_app (a b : string) :
  String.length (a ++ b) = (String.length a + String.length b)%nat.
Proof. induction a as [| c r IH]; simpl; [reflexivity | rewrite IH; reflexivity]. Qed.

(** [s.endsWith(p)] holds exactly when [s] is some text followed by [p]. *)
Lemma endsWith_iff (s p : string) :
  Str.endsWith s p = true <-> exists pre, s = pre ++ p.
Proof.
  unfold Str.endsWith. split.
  - intro H. apply andb_true_iff in H. destruct H as [Hle Heq].
    apply Nat.leb_le in Hle. apply String.eqb_eq in Heq.
    exists (String.substring 0 (String.length s - String.length p) s).
    pose proof (substring_split s (String.length s - String.length p)) as Hs.
    replace (String.length s - (String.length s - String.length p))%nat
      with (String.length p) in Hs by lia.
    rewrite Heq in Hs. apply Hs. lia.
  - intros [pre Hs]. subst s. rewrite string_length_app.
    apply andb_true_iff. split; [apply Nat.leb_le; lia |].
    replace (String.length pre + String.length p - String.length p)%nat
      with (String.length pre) by lia.
    rewrite substring_after. apply String.eqb_refl.
Qed.

Lemma popular_of_host (u : string) (urlObj : Platform.URL) (domain : string) :
  Platform.URL_new u = Some urlObj ->
  In domain popularDomains ->
  (Platform.hostname urlObj = domain
   \/ exists sub, Platform.hostname urlObj = sub ++ "." ++ domain) ->
  isPopularDomain u = true.
Proof.
  intros Hu Hin H. unfold isPopularDomain. rewrite Hu.
  apply existsb_exists. exists domain. split; [exact Hin |]. apply orb_true_iff.
  destruct H as [H | H].
  - left. apply String.eqb_eq. exact H.
  - right. apply endsWith_iff. exact H.
Qed.

(** X26.  A URL is on a popular domain exactly when its host is one of the
    fifteen listed names or ends with a dot followed by one of them: the
    match is at a label boundary, and a URL that cannot be parsed is not
    popular. *)
Theorem isPopularDomain_iff (u : string) :
  isPopularDomain u = true
  <-> exists urlObj domain,
        Platform.URL_new u = Some urlObj
        /\ In domain popularDomains
        /\ (Platform.hostname urlObj = domain
            \/ exists sub, Platform.hostname urlObj = sub ++ "." ++ domain).
Proof.
  unfold isPopularDomain. destruct (Platform.URL_new u) as [urlObj |].
  - rewrite existsb_exists. split.
    + intros [domain [Hin H]]. exists urlObj, domain.
      split; [reflexivity |]. split; [exact Hin |].
      apply orb_true_iff in H. destruct H as [H | H].
      * left. apply String.eqb_eq. exact H.
      * right. apply endsWith_iff. exact H.
    + intros [urlObj' [domain [Hu [Hin H]]]]. injection Hu as Hu. subst urlObj'.
      exists domain. split; [exact Hin |]. apply orb_true_iff.
      destruct H as [H | H].
      * left. apply String.eqb_eq. exact H.
      * right. apply endsWith_iff. exact H.
  - split; [discriminate |]. intros [urlObj [domain [H _]]]. discriminate.
Qed.

(** X27.  What the engine computes for a host on a popular domain, when the
    block threshold does not exceed the popular-domain threshold: the
    reason is ["popular_domain_check"], the action is never WARN, and it is
    BLOCK only if the probability reaches the popular-domain threshold,
    even where the predictor's level is PHISHING. *)
Theorem popular_host_decision (e : DecisionEngine.t) (env : Env) (u : string)
        (d : Decision.t) (urlObj : Platform.URL) (domain : string) :
  analyze e env u = Ok d ->
  Platform.URL_new u = Some urlObj ->
  In domain popularDomains ->
  (Platform.hostname urlObj = domain
   \/ exists sub, Platform.hostname urlObj = sub ++ "." ++ domain) ->
  (ThresholdManager.blockThreshold (ThresholdManager.config (thresholds e))
   <= ThresholdManager.popularDomainThreshold (ThresholdManager.config (thresholds e)))%Q ->
  Decision.reason d = "popular_domain_check"
  /\ Decision.action d <> WARN
  /\ exists p,
       Decision.probability d = Some p
       /\ (Decision.action d = BLOCK
           <-> JS.ge p (JS.Fin (ThresholdManager.popularDomainThreshold
                                  (ThresholdManager.config (thresholds e)))) = true).
Proof.
  intros Han Hu Hin Hhost Hle.
  assert (Hpop : isPopularDomain u = true).
  { apply (popular_of_host u urlObj domain Hu Hin Hhost). }
  unfold analyze in Han.
  destruct (extractFeatures (featureExtractor e) u) as [[fs |] | m |]; simpl in Han;
    try discriminate.
  destruct (featuresToArray (featureExtractor e) fs) as [arr | m |]; simpl in Han;
    try discriminate.
  destruct (predictWithConfidence (predictor e) arr) as [pr | m |]; simpl in Han;
    try discriminate.
  injection Han as Han. subst d. rewrite Hpop. simpl.
  rewrite (getAction_popular (thresholds e) (Predictor.probability pr) Hle).
  split; [reflexivity |].
  split.
  - destruct (JS.ge (Predictor.probability pr) _); discriminate.
  - exists (Predictor.probability pr). split; [reflexivity |].
    destruct (JS.ge (Predictor.probability pr) _); split; intro; congruence.
Qed.


End PopularDomains.

(** ** Persistence: what was saved is what a restart loads *)

Section Restart.

Lemma set_of_array_nodup_app (arr acc : list string) :
  NoDup (acc ++ arr)%list -> fold_left Whitelist.set_add arr acc = (acc ++ arr)%list.
Proof.
  revert acc. induction arr as [| a arr IH]; intros acc H; simpl.
  - rewrite app_nil_r. reflexivity.
  - assert (Ha : Whitelist.set_has acc a = false).
    { destruct (Whitelist.set_has acc a) eqn:E; [| reflexivity].
      apply existsb_exists in E. destruct E as [x [Hx Heq]].
      apply String.eqb_eq in Heq. subst x.
      apply NoDup_remove_2 in H. exfalso. apply H. apply in_or_app. left. exact Hx. }
    unfold Whitelist.set_add at 2. rewrite Ha.
    rewrite IH; rewrite <- app_assoc; [reflexivity | exact H].
Qed.

Lemma set_delete_nodup (d : list string) (x : string) :
  NoDup d -> NoDup (Whitelist.set_delete d x).
Proof. intro H. unfold Whitelist.set_delete. apply NoDup_filter. exact H. Qed.

(** X29.  The whitelist survives a restart.  The set never holds a domain
    twice ([add] and [remove] keep it so), and a fresh whitelist that loads
    what [save] wrote holds the same domains in the same order, so that it
    answers [isWhitelisted] as the old one did. *)
Theorem whitelist_survives_restart (w : Whitelist.t) :
  NoDup (Whitelist.domains w) ->
  (forall u, NoDup (Whitelist.domains (snd (Whitelist.add w u)))
             /\ NoDup (Whitelist.domains (snd (Whitelist.remove w u))))
  /\ Whitelist.load Whitelist.create (Ok (Some (Storage.whitelist w)))
     = Ok {| Whitelist.domains := Whitelist.domains w; Whitelist.loaded := true |}
  /\ (forall w', Whitelist.load Whitelist.create (Ok (Some (Storage.whitelist w))) = Ok w' ->
                 forall u, Whitelist.isWhitelisted w' u = Whitelist.isWhitelisted w u).
Proof.
  intro Hnd.
  assert (Hload : Whitelist.load Whitelist.create (Ok (Some (Storage.whitelist w)))
                  = Ok {| Whitelist.domains := Whitelist.domains w; Whitelist.loaded := true |}).
  { unfold Whitelist.load, Storage.whitelist, Whitelist.set_of_array. simpl.
    rewrite (set_of_array_nodup_app (Whitelist.domains w) [] Hnd). reflexivity. }
  split; [| split; [exact Hload |]].
  - intro u. unfold Whitelist.add, Whitelist.remove.
    destruct (Whitelist.extractDomain u) as [d |]; [| split; exact Hnd].
    destruct (String.eqb d ""); [split; exact Hnd |]. simpl. split.
    + apply set_add_nodup. exact Hnd.
    + apply set_delete_nodup. exact Hnd.
  - intros w' Hw' u. rewrite Hload in Hw'. injection Hw' as Hw'. subst w'. reflexivity.
Qed.

(** X30.  The thresholds survive a restart.  A fresh manager that loads
    what [save] wrote has the configuration that was saved; after
    [setCustom] it is the very manager that was saved, profile ["custom"]
    included, and so takes the same action on every probability. *)
Theorem thresholds_survive_restart (tm : ThresholdManager.t) :
  ThresholdManager.load ThresholdManager.create (Ok (Some (Storage.thresholdConfig tm)))
  = Ok {| ThresholdManager.config := ThresholdManager.config tm;
          ThresholdManager.currentProfile :=
            ThresholdManager.profile_or_balanced
              (ThresholdManager.profile (ThresholdManager.config tm)) |}
  /\ (forall b w : Q,
         ThresholdManager.load ThresholdManager.create
           (Ok (Some (Storage.thresholdConfig (ThresholdManager.setCustom tm b w))))
         = Ok (ThresholdManager.setCustom tm b w))
  /\ (forall tm' p popular,
         ThresholdManager.load ThresholdManager.create (Ok (Some (Storage.thresholdConfig tm)))
         = Ok tm' ->
         ThresholdManager.getAction tm' p popular = ThresholdManager.getAction tm p popular).
Proof.
  assert (Hload : forall t,
             ThresholdManager.load ThresholdManager.create (Ok (Some (Storage.thresholdConfig t)))
             = Ok {| ThresholdManager.config := ThresholdManager.config t;
                     ThresholdManager.currentProfile :=
                       ThresholdManager.profile_or_balanced
                         (ThresholdManager.profile (ThresholdManager.config t)) |}).
  { intro t. unfold ThresholdManager.load, Storage.thresholdConfig, ThresholdManager.merge.
    simpl. destruct (ThresholdManager.config t) as [bT wT pT ps pr]. simpl.
    destruct pr; reflexivity. }
  split; [apply Hload |]. split.
  - intros b w. rewrite Hload. reflexivity.
  - intros tm' p popular H. rewrite Hload in H. injection H as H. subst tm'. reflexivity.
Qed.

End Restart.

(** ** The further properties on sample objects *)

(** At the instant 1200 only the entry stored at 0 has outlived the ttl of
    one second. *)
Lemma cleanup_removes_expired_witness :
  JSMap.keys (PredictionCache.cache (snd (PredictionCache.cleanup aged_cache 1200)))
  = ["https://mid.example/"; "https://new.example/"]
  /\ fst (PredictionCache.cleanup aged_cache 1200) = 1%nat.
Proof.
  assert (Hnd : PredictionCache.distinct_keys aged_cache).
  { unfold aged_cache.
    apply set_distinct_keys, set_distinct_keys, set_distinct_keys, create_distinct_keys. }
  pose proof (cleanup_removes_expired aged_cache 1200 Hnd) as H. cbv zeta in H.
  destruct H as [Hc [Hn _]]. split.
  - rewrite Hc. reflexivity.
  - rewrite Hn. reflexivity.
Defined.

Lemma cache_stays_within_capacity_witness :
  Z.of_nat (JSMap.size (PredictionCache.cache
                          (PredictionCache.set aged_cache 1000 "https://fourth.example/" ALLOW)))
  <= 3.
Proof.
  assert (H1 : 1 <= PredictionCache.maxSize aged_cache) by (simpl; lia).
  assert (H2 : Z.of_nat (JSMap.size (PredictionCache.cache aged_cache))
               <= PredictionCache.maxSize aged_cache) by (simpl; lia).
  exact (proj1 (cache_stays_within_capacity aged_cache 1000 "https://fourth.example/" ALLOW
                  H1 H2)).
Defined.

(** The full cache, overwritten at its newest entry, loses its oldest. *)
Lemma set_on_cached_url_witness :
  JSMap.keys (PredictionCache.cache
                (PredictionCache.set aged_cache 1000 "https://new.example/" ALLOW))
  = ["https://mid.example/"; "https://new.example/"].
Proof.
  assert (Hnd : PredictionCache.distinct_keys aged_cache).
  { unfold aged_cache.
    apply set_distinct_keys, set_distinct_keys, set_distinct_keys, create_distinct_keys. }
  assert (Hin : In (PredictionCache.normalizeURL "https://new.example/")
                   (JSMap.keys (PredictionCache.cache aged_cache))).
  { simpl. auto. }
  destruct (set_on_cached_url aged_cache 1000 "https://new.example/" ALLOW Hnd Hin)
    as [_ [H _]].
  apply (H "https://old.example/"
           {| PredictionCache.prediction := ALLOW; PredictionCache.timestamp := 0 |}
           [("https://mid.example/",
             {| PredictionCache.prediction := WARN; PredictionCache.timestamp := 500 |});
            ("https://new.example/",
             {| PredictionCache.prediction := BLOCK; PredictionCache.timestamp := 900 |})]).
  - reflexivity.
  - simpl. lia.
  - discriminate.
Defined.

Lemma whitelist_add_remove_witness :
  fst (Whitelist.add Whitelist.create "https://mail.example.com/inbox") = true
  /\ Whitelist.set_has
       (Whitelist.domains (snd (Whitelist.add Whitelist.create "https://mail.example.com/inbox")))
       "example.com" = true
  /\ fst (Whitelist.remove
            (snd (Whitelist.add Whitelist.create "https://mail.example.com/inbox"))
            "https://mail.example.com/inbox") = true.
Proof.
  destruct (whitelist_add_remove Whitelist.create "https://mail.example.com/inbox") as [H _].
  assert (Hne : "example.com" <> "") by discriminate.
  pose proof (H "example.com" eq_refl Hne) as H'. cbv zeta in H'.
  destruct H' as [H1 [H2 [_ [H4 _]]]].
  split; [exact H1 |]. split; [exact H2 | exact H4].
Defined.

(** The alarmed engine computes a BLOCK for a page; a second later the
    same page under another fragment is served from the cache, under the
    URL of the first visit. *)
Lemma computed_decision_is_cached_witness :
  exists d e2,
    DecisionEngine.decide alarmed_engine (env_at 1000) "https://shop.example/a#top" = Ok (d, e2)
    /\ Decision.action d = BLOCK
    /\ exists d' e3,
         DecisionEngine.decide e2 (env_at 2000) "https://shop.example/a#bottom" = Ok (d', e3)
         /\ Decision.cached d' = true
         /\ Decision.url d' = "https://shop.example/a#top"
         /\ Decision.action d' = BLOCK.
Proof.
  assert (D : exists d e2,
             DecisionEngine.decide alarmed_engine (env_at 1000) "https://shop.example/a#top"
             = Ok (d, e2)
             /\ Decision.action d = BLOCK
             /\ Decision.cached d = false
             /\ Decision.reason d = "ml_prediction"
             /\ Whitelist.isWhitelisted (DecisionEngine.whitelist e2)
                                        "https://shop.example/a#bottom" = false
             /\ PredictionCache.ttl (DecisionEngine.cache e2) = 3600000).
  { eexists. eexists. split; [reflexivity |]. repeat split. }
  destruct D as [d [e2 [D [Ha [Hc [Hr [Hw Ht]]]]]]].
  exists d, e2. split; [exact D |]. split; [exact Ha |].
  assert (Hr1 : Decision.reason d <> "whitelisted") by (rewrite Hr; discriminate).
  assert (Hr2 : Decision.reason d <> "error") by (rewrite Hr; discriminate).
  assert (Httl : DecisionEngine.now_get (env_at 2000) - DecisionEngine.now_set (env_at 1000)
                 <= PredictionCache.ttl (DecisionEngine.cache e2)).
  { rewrite Ht. simpl. lia. }
  destruct (computed_decision_is_cached alarmed_engine (env_at 1000)
              "https://shop.example/a#top" d e2 D Hc Hr1 Hr2
              (env_at 2000) "https://shop.example/a#bottom" eq_refl Hw Httl)
    as [d' [e3 [D' [Hc' [Hu' [Ha' _]]]]]].
  exists d', e3. split; [exact D' |]. split; [exact Hc' |]. split; [exact Hu' |].
  rewrite Ha'. exact Ha.
Defined.

(** The blind engine cannot extract features: the decision is the
    fail-open one and nothing is stored. *)
Lemma failed_decision_is_not_cached_witness :
  exists d e2,
    DecisionEngine.decide blind_engine (env_at 1000) "https://shop.example/a" = Ok (d, e2)
    /\ Decision.reason d = "error"
    /\ JSMap.get (PredictionCache.cache (DecisionEngine.cache e2))
                 (PredictionCache.normalizeURL "https://shop.example/a") = None
    /\ PredictionCache.misses (DecisionEngine.cache e2) = 1.
Proof.
  assert (D : exists d e2,
             DecisionEngine.decide blind_engine (env_at 1000) "https://shop.example/a" = Ok (d, e2)
             /\ Decision.cached d = false
             /\ Decision.reason d = "error").
  { eexists. eexists. split; [reflexivity |]. split; reflexivity. }
  destruct D as [d [e2 [D [Hc Hr]]]].
  exists d, e2. split; [exact D |]. split; [exact Hr |].
  destruct (failed_decision_is_not_cached blind_engine (env_at 1000) "https://shop.example/a"
              d e2 D Hc Hr) as [Hg [_ [Hm _]]].
  split; [exact Hg | exact Hm].
Defined.

(** After the mail page has been whitelisted, the login page of a sibling
    host is allowed although the predictor calls everything phishing. *)
Lemma whitelist_add_overrides_witness :
  exists d,
    DecisionEngine.decide
      (EngineOps.addToWhitelist watchful_engine "https://mail.example.com/inbox")
      (env_at 1000) "https://evil.example.com/login"
    = Ok (d, EngineOps.addToWhitelist watchful_engine "https://mail.example.com/inbox")
    /\ Decision.action d = ALLOW
    /\ Decision.reason d = "whitelisted".
Proof.
  assert (Hne : "example.com" <> "") by discriminate.
  destruct (whitelist_add_overrides watchful_engine (env_at 1000)
              "https://mail.example.com/inbox" "https://evil.example.com/login" "example.com"
              eq_refl eq_refl Hne eq_refl) as [d [D [Ha [_ [Hr _]]]]].
  exists d. split; [exact D |]. split; [exact Ha | exact Hr].
Defined.

(** Under the defaults a popular domain at probability 0.80 is above the
    block threshold and still not warned about. *)
Lemma popular_domain_never_warned_witness :
  ThresholdManager.getAction ThresholdManager.create (JS.Fin (80 # 100)) true <> WARN
  /\ ThresholdManager.getAction ThresholdManager.create (JS.Fin (80 # 100)) true = ALLOW.
Proof.
  assert (Hle : (ThresholdManager.blockThreshold (ThresholdManager.config ThresholdManager.create)
                 <= ThresholdManager.popularDomainThreshold
                      (ThresholdManager.config ThresholdManager.create))%Q).
  { unfold Qle. simpl. lia. }
  destruct (popular_domain_never_warned ThresholdManager.create (JS.Fin (80 # 100)) Hle)
    as [H1 [_ H3]].
  split; [exact H1 |]. apply H3. reflexivity.
Defined.




Lemma predictTree_outcomes_witness :
  (JS.Fin 3 = JS.Fin 0 \/ JS.Fin 3 = JS.NaN
   \/ exists w, In w (ModelLoader.base_weights stump) /\ JS.Fin 3 = JS.Fin w)
  /\ JS.Fin 3 <> JS.NaN.
Proof.
  destruct (predictTree_outcomes stump zero_vector 2) as [_ H].
  destruct (H (JS.Fin 3) eq_refl) as [H1 H2].
  split; [exact H1 |]. apply H2. simpl. lia.
Defined.


Lemma empty_tree_never_returns_witness :
  Predictor.predict 5 hollow_loader zero_vector = Diverge.
Proof.
  exact (proj2 (empty_tree_never_returns 5 hollow_loader sample_metadata
                  (model_of [stump; hollow_tree] 0) hollow_tree zero_vector
                  eq_refl eq_refl eq_refl eq_refl eq_refl eq_refl
                  (or_intror (or_introl eq_refl)))).
Defined.

Lemma predictBatch_all_or_nothing_witness :
  ~ exists ps, Batch.predictBatch 2 stump_loader [zero_vector; [JS.Fin 1]] = Ok ps.
Proof.
  intros [ps H].
  assert (Hlen : List.length [JS.Fin 1]
                 <> List.length (ModelLoader.feature_names sample_metadata))
    by (simpl; discriminate).
  exact (proj2 (predictBatch_all_or_nothing 2 stump_loader [zero_vector; [JS.Fin 1]])
           sample_metadata [JS.Fin 1] eq_refl (or_intror (or_introl eq_refl)) Hlen ps H).
Defined.

Lemma featuresToArray_fits_predict_witness :
  ~ exists message,
      Predictor.predict 2 stump_loader
        (FeatureExtractor.featuresToArray [("path_length", JS.Fin 12)]) = Throw message.
Proof.
  intros [message H].
  destruct (featuresToArray_fits_predict [("path_length", JS.Fin 12)]) as [_ [_ [_ Hp]]].
  exact (Hp 2%nat stump_loader sample_metadata (model_of [stump] 0)
            eq_refl eq_refl eq_refl eq_refl message H).
Defined.

Lemma parseDomain_decomposes_witness :
  URLParser.registeredDomain (URLParser.parseDomain "shop.example.co.uk")
  = URLParser.domain (URLParser.parseDomain "shop.example.co.uk") ++ "."
    ++ URLParser.suffix (URLParser.parseDomain "shop.example.co.uk").
Proof.
  pose proof (parseDomain_decomposes "shop.example.co.uk") as H. cbv zeta in H.
  destruct H as [_ [_ [H _]]].
  apply H; simpl; discriminate.
Defined.

(** For a shop under [co.uk] the whitelist extracts the suffix, the parser
    the registered domain. *)
Lemma whitelist_domain_against_parser_witness :
  Whitelist.extractDomain "https://shop.example.co.uk/cart" = Some "co.uk"
  /\ URLParser.registeredDomain (URLParser.parseDomain "shop.example.co.uk") = "example.co.uk".
Proof.
  pose proof (whitelist_domain_against_parser "https://shop.example.co.uk/cart" shop_url
                (or_intror eq_refl) eq_refl) as H.
  cbv zeta in H. destruct H as [H _].
  split; [| reflexivity].
  assert (L : (2 <= List.length (Str.split "." (Platform.hostname shop_url)))%nat)
    by (simpl; lia).
  rewrite (H L eq_refl). reflexivity.
Defined.


Lemma zero_latency_skews_average_witness :
  let s := StateStore.recordDecision StateStore.create (sample_decision BLOCK false 9) in
  let s' := StateStore.recordDecision s (sample_decision ALLOW true 0) in
  (StateStore.avgLatency (StateStore.performance s)
   * inject_Z (Z.of_nat (StateStore.totalChecks (StateStore.stats s)))
   < StateStore.avgLatency (StateStore.performance s')
     * inject_Z (Z.of_nat (StateStore.totalChecks (StateStore.stats s'))))%Q.
Proof.
  intros s s'.
  pose proof (zero_latency_skews_average s (sample_decision ALLOW true 0) eq_refl) as H.
  cbv zeta in H. destruct H as [_ [_ H]].
  apply H. vm_compute. reflexivity.
Defined.

Lemma node_walk_never_escapes_witness :
  ~ exists message, NodePredictor.predictTree 4 lone_tree zero_vector = Throw message.
Proof.
  intros [message H].
  destruct (node_walk_never_escapes lone_tree zero_vector 4) as [Hin _].
  assert (Hne : [lone_node] <> []) by discriminate.
  exact (Hin [lone_node] eq_refl Hne message H).
Defined.

(** A sign-in page on a subdomain of a listed name, found phishing at
    0.93: the reason is the popular-domain check and no warning is shown. *)
Lemma popular_host_decision_witness :
  exists d,
    DecisionEngine.analyze watchful_engine (env_at 1000) "https://accounts.google.com/signin"
    = Ok d
    /\ Decision.reason d = "popular_domain_check"
    /\ Decision.action d <> WARN.
Proof.
  assert (D : exists d,
             DecisionEngine.analyze watchful_engine (env_at 1000)
                                    "https://accounts.google.com/signin" = Ok d).
  { eexists. reflexivity. }
  destruct D as [d D]. exists d. split; [exact D |].
  assert (Hin : In "google.com" DecisionEngine.popularDomains) by (simpl; auto).
  assert (Hhost : Platform.hostname accounts_url = "google.com"
                  \/ exists sub, Platform.hostname accounts_url = sub ++ "." ++ "google.com").
  { right. exists "accounts". reflexivity. }
  assert (Hle : (ThresholdManager.blockThreshold
                   (ThresholdManager.config (DecisionEngine.thresholds watchful_engine))
                 <= ThresholdManager.popularDomainThreshold
                      (ThresholdManager.config (DecisionEngine.thresholds watchful_engine)))%Q).
  { unfold Qle. simpl. lia. }
  destruct (popular_host_decision watchful_engine (env_at 1000)
              "https://accounts.google.com/signin" d accounts_url "google.com"
              D eq_refl Hin Hhost Hle) as [Hr [Ha _]].
  split; [exact Hr | exact Ha].
Defined.


Lemma whitelist_survives_restart_witness :
  Whitelist.load Whitelist.create
    (Ok (Some (Storage.whitelist
                 (snd (Whitelist.add Whitelist.create "https://mail.example.com/inbox")))))
  = Ok {| Whitelist.domains := ["example.com"]; Whitelist.loaded := true |}.
Proof.
  assert (Hnd : NoDup (Whitelist.domains
                         (snd (Whitelist.add Whitelist.create "https://mail.example.com/inbox")))).
  { simpl. constructor; [simpl; tauto | constructor]. }
  exact (proj1 (proj2 (whitelist_survives_restart _ Hnd))).
Defined.

Lemma thresholds_survive_restart_witness :
  exists tm',
    ThresholdManager.load ThresholdManager.create
      (Ok (Some (Storage.thresholdConfig
                   (ThresholdManager.setCustom ThresholdManager.create (60 # 100) (40 # 100)))))
    = Ok tm'
    /\ ThresholdManager.getAction tm' (JS.Fin (65 # 100)) false = BLOCK.
Proof.
  destruct (thresholds_survive_restart
              (ThresholdManager.setCustom ThresholdManager.create (60 # 100) (40 # 100)))
    as [_ [H1 H2]].
  eexists. split; [apply H1 |].
  rewrite (H2 _ (JS.Fin (65 # 100)) false (H1 (60 # 100) (40 # 100))). reflexivity.
Defined.
